(** * Screenshot calorie analyzer: a shallow embedding and its properties

    The development follows the Python sources of the repository:
    - [Py]: the Python values and exceptions the programs manipulate;
    - [Json]: [re.search(r'{.*}', text, re.DOTALL)] and [json.loads];
    - [Analyzer]: [gemini_calorie_analyzer.py] and the analysis part of
      [calorie_monitor.py];
    - [Capture]: [screenshot_taker.py] and [advanced_screenshot.py];
    - [Coordinator]: [screenshot_with_gemini.py];
    - [Simulated]: [calorie_analyzer.py] and the analysis thread of
      [screenshot_with_calories.py];
    - [AdvancedMain]: the main program of [advanced_screenshot.py];
    - [Monitor]: the capture and the loop of [calorie_monitor.py].

    Conventions.  A function that can raise returns in the monad [Py.M]; one
    that also prints, logs, sleeps or writes files returns in [Py.IO], which
    keeps what was written.  What the collaborators do (the screen grabber,
    the recognition service, the clock, the operator) is an argument of the
    function that meets them.  Text is a string of bytes (UTF-8), a Python
    [float] is a binary64 number of [SpecFloat], a time in seconds is an exact
    rational. *)

From Stdlib Require Import ZArith QArith Qround List String Ascii Bool Lia Lqa.
From Stdlib Require Import Floats.SpecFloat.
From Stdlib Require Import Sorting.Sorted Sorting.Permutation.
Import ListNotations.
Close Scope Q_scope.

Set Implicit Arguments.

(** ** Python values, exceptions and the operations the programs use *)
Module Py.

(** The exceptions that can reach the handlers of the programs.  All of them
    are subclasses of [Exception].  [ExternalError] stands for whatever a
    collaborator raises ([PIL.Image.open], the Gemini client, [pyautogui]). *)
Inductive exn : Type :=
| JSONDecodeError (msg : string)
| KeyError (key : string)
| TypeError (msg : string)
| AttributeError (msg : string)
| OverflowError (msg : string)
| ZeroDivisionError (msg : string)
| RecursionError
| ExternalError (msg : string).

(** A computation either raises ([inl]) or returns ([inr]). *)
Definition M (A : Type) : Type := (exn + A)%type.

Definition ret {A : Type} (a : A) : M A := inr a.

Definition raise {A : Type} (e : exn) : M A := inl e.

Definition bind {A B : Type} (m : M A) (k : A -> M B) : M B :=
  match m with
  | inl e => inl e
  | inr a => k a
  end.

Notation "x <- m ;; k" := (bind m (fun x => k))
  (at level 61, m at next level, right associativity).
Notation "' pat <- m ;; k" := (bind m (fun x => match x with pat => k end))
  (at level 61, pat pattern, m at next level, right associativity).

Fixpoint mapM {A B : Type} (f : A -> M B) (l : list A) : M (list B) :=
  match l with
  | [] => ret []
  | a :: l' => b <- f a ;; bs <- mapM f l' ;; ret (b :: bs)
  end.

(** Python's [float] is IEEE 754 binary64. *)
Definition prec : Z := 53.
Definition emax : Z := 1024.
Definition pyfloat : Type := spec_float.

Definition float_zero : pyfloat := S754_zero false.

(** [float(z)] for a Python [int]: rounds to nearest even, and raises
    [OverflowError] when the integer is too large. *)
Definition float_of_int (z : Z) : M pyfloat :=
  match binary_normalize prec emax z 0 false with
  | S754_infinity _ => raise (OverflowError "int too large to convert to float")
  | f => ret f
  end.

(** What [json.loads] can produce, and hence what the analyzer stores in its
    result dictionaries.  A [dict] keeps its insertion order. *)
#[warnings="-register-all"]
Inductive pyval : Type :=
| PNone
| PBool (b : bool)
| PInt (z : Z)
| PFloat (f : pyfloat)
| PStr (s : string)
| PList (l : list pyval)
| PDict (d : list (string * pyval)).

Fixpoint dict_get (d : list (string * pyval)) (k : string) : option pyval :=
  match d with
  | [] => None
  | (k', v) :: d' => if String.eqb k' k then Some v else dict_get d' k
  end.

(** [d[k] = v]: an existing key keeps its position. *)
Fixpoint dict_set (d : list (string * pyval)) (k : string) (v : pyval)
  : list (string * pyval) :=
  match d with
  | [] => [(k, v)]
  | (k', v') :: d' =>
      if String.eqb k' k then (k', v) :: d' else (k', v') :: dict_set d' k v
  end.

(** [dict(pairs)] *)
Definition dict_of_pairs (pairs : list (string * pyval)) : list (string * pyval) :=
  fold_left (fun d kv => dict_set d (fst kv) (snd kv)) pairs [].

(** [bool(v)] *)
Definition truthy (v : pyval) : bool :=
  match v with
  | PNone => false
  | PBool b => b
  | PInt z => negb (z =? 0)%Z
  | PFloat f => negb (SFeqb f float_zero)
  | PStr s => negb (String.eqb s "")
  | PList l => match l with [] => false | _ => true end
  | PDict d => match d with [] => false | _ => true end
  end.

(** [v.get(k, default)] *)
Definition py_get (v : pyval) (k : string) (default : pyval) : M pyval :=
  match v with
  | PDict d => ret (match dict_get d k with Some x => x | None => default end)
  | _ => raise (AttributeError "object has no attribute 'get'")
  end.

(** [v[k]] for a string [k] *)
Definition py_getitem (v : pyval) (k : string) : M pyval :=
  match v with
  | PDict d =>
      match dict_get d k with
      | Some x => ret x
      | None => raise (KeyError k)
      end
  | PStr _ => raise (TypeError "string indices must be integers")
  | PList _ => raise (TypeError "list indices must be integers or slices, not str")
  | _ => raise (TypeError "object is not subscriptable")
  end.

(** [for item in v]: the items the loop visits.  A [str] gives its
    characters (its bytes, here, for text outside ASCII), a [dict] its keys. *)
Definition py_iter (v : pyval) : M (list pyval) :=
  match v with
  | PList l => ret l
  | PStr s => ret (map (fun c => PStr (String c "")) (list_ascii_of_string s))
  | PDict d => ret (map (fun kv => PStr (fst kv)) d)
  | _ => raise (TypeError "object is not iterable")
  end.

(** [v > 0] *)
Definition py_gt0 (v : pyval) : M bool :=
  match v with
  | PBool b => ret b
  | PInt z => ret (0 <? z)%Z
  | PFloat f => ret (SFltb float_zero f)
  | _ => raise (TypeError "'>' not supported between instances")
  end.

Definition int_of_bool (b : bool) : Z := if b then 1%Z else 0%Z.

(** [a + b] when [a] is a number (the accumulator of [sum], which starts
    at [0]). *)
Definition py_add (a b : pyval) : M pyval :=
  let num (v : pyval) : option (Z + pyfloat) :=
    match v with
    | PBool x => Some (inl (int_of_bool x))
    | PInt z => Some (inl z)
    | PFloat f => Some (inr f)
    | _ => None
    end in
  match num a, num b with
  | Some (inl x), Some (inl y) => ret (PInt (x + y))
  | Some (inl x), Some (inr g) =>
      f <- float_of_int x ;; ret (PFloat (SFadd prec emax f g))
  | Some (inr f), Some (inl y) =>
      g <- float_of_int y ;; ret (PFloat (SFadd prec emax f g))
  | Some (inr f), Some (inr g) => ret (PFloat (SFadd prec emax f g))
  | _, _ => raise (TypeError "unsupported operand type(s) for +")
  end.

(** [sum(vs)], adding from the left, from [0].  (The compensated summation
    that recent interpreters use for floats is not modelled; integers add
    exactly.) *)
Definition py_sum (vs : list pyval) : M pyval :=
  fold_left (fun acc v => a <- acc ;; py_add a v) vs (ret (PInt 0)).

(** [sep.join(vs)]: every element has to be a [str]. *)
Fixpoint py_join (sep : string) (vs : list pyval) : M string :=
  match vs with
  | [] => ret ""%string
  | PStr s :: vs' =>
      match vs' with
      | [] => ret s
      | _ => t <- py_join sep vs' ;; ret (s ++ sep ++ t)%string
      end
  | _ :: _ => raise (TypeError "sequence item: expected str instance")
  end.

(** *** Console output

    Programs print, log, sleep, grab the screen and save files while they
    compute.  A printed line is kept as the source text of its f-string
    template (each replacement field written as a pair of braces) with the
    values of the fields, in order; the text Python renders for a value or
    for an exception is not modelled. *)
Inductive hole : Type :=
| Val (v : pyval)
| Exc (e : exn)
| Secs (q : Q).

Inductive out : Type :=
| Print (template : string) (fields : list hole)
| LogInfo (template : string) (fields : list hole)
| LogError (template : string) (fields : list hole)
| Notify (title : string) (fields : list hole)
| Sleep (seconds : Q)
| Screenshot (region : option (Z * Z * Z * Z))
| Save (path : string) (compress_level : option Z).

(** A program run: what it wrote, and whether it raised or returned. *)
Definition IO (A : Type) : Type := (list out * (exn + A))%type.

Definition io_ret {A : Type} (a : A) : IO A := ([], inr a).

Definition io_raise {A : Type} (e : exn) : IO A := ([], inl e).

Definition io_bind {A B : Type} (m : IO A) (k : A -> IO B) : IO B :=
  match m with
  | (o, inl e) => (o, inl e)
  | (o, inr a) => let '(o', r) := k a in ((o ++ o')%list, r)
  end.

Definition lift {A : Type} (m : M A) : IO A := ([], m).

Definition emit (o : out) : IO unit := ([o], inr tt).

(** [try: m except Exception as e: h e] *)
Definition try_except {A : Type} (m : IO A) (h : exn -> IO A) : IO A :=
  match m with
  | (o, inl e) => let '(o', r) := h e in ((o ++ o')%list, r)
  | (o, inr a) => (o, inr a)
  end.

Notation "x <~ m ;; k" := (io_bind m (fun x => k))
  (at level 61, m at next level, right associativity).
Notation "' pat <~ m ;; k" := (io_bind m (fun x => match x with pat => k end))
  (at level 61, pat pattern, m at next level, right associativity).
Notation "m ;;; k" := (io_bind m (fun _ => k))
  (at level 61, right associativity).

(** [for a in l: f a] *)
Fixpoint io_for {A : Type} (l : list A) (f : A -> IO unit) : IO unit :=
  match l with
  | [] => io_ret tt
  | a :: l' => f a ;;; io_for l' f
  end.

Definition output {A : Type} (m : IO A) : list out := fst m.

Definition outcome {A : Type} (m : IO A) : exn + A := snd m.

End Py.

(** ** Locating and decoding the JSON payload

    Text is a [string] of bytes, read as the UTF-8 encoding of the Python
    [str]; the braces, quotes, digits and white space that drive the search
    and the decoder are ASCII, so they are found at the same places. *)
Module Json.
Import Py.

Local Open Scope char_scope.

Definition dquote : ascii := "034".

(** [dq s] is [s] with every apostrophe replaced by a double quote; it is
    only used to write JSON literals down. *)
Fixpoint dq (s : string) : string :=
  match s with
  | EmptyString => EmptyString
  | String c r => String (if (c =? "'") then dquote else c) (dq r)
  end.

(** *** [re.search(r'{.*}', text, re.DOTALL)] *)

(** The suffix of [s] that starts at its first opening brace. *)
Fixpoint from_first_lbrace (s : string) : option string :=
  match s with
  | EmptyString => None
  | String c r => if (c =? "{") then Some s else from_first_lbrace r
  end.

(** The prefix of [s] that ends at its last closing brace. *)
Fixpoint upto_last_rbrace (s : string) : option string :=
  match s with
  | EmptyString => None
  | String c r =>
      match upto_last_rbrace r with
      | Some p => Some (String c p)
      | None => if (c =? "}") then Some (String c EmptyString) else None
      end
  end.

(** [json_match.group(0)], or [None] when the pattern does not match: the
    match starts at the leftmost brace that has a closing brace after it, and
    the greedy [.*] runs to the last closing brace of the text. *)
Definition re_search_braces (text : string) : option string :=
  match from_first_lbrace text with
  | Some s => upto_last_rbrace s
  | None => None
  end.

(** *** [json.loads] *)

Definition is_ws (c : ascii) : bool :=
  (c =? " ") || (c =? "009") || (c =? "010") || (c =? "013").

Fixpoint skip_ws (s : string) : string :=
  match s with
  | EmptyString => s
  | String c r => if is_ws c then skip_ws r else s
  end.

Definition is_digit (c : ascii) : bool :=
  (48 <=? nat_of_ascii c)%nat && (nat_of_ascii c <=? 57)%nat.

Definition digit_val (c : ascii) : Z := Z.of_nat (nat_of_ascii c) - 48.

Definition hex_val (c : ascii) : option N :=
  let n := N_of_ascii c in
  if ((48 <=? n) && (n <=? 57))%N then Some (n - 48)%N
  else if ((65 <=? n) && (n <=? 70))%N then Some (n - 55)%N
  else if ((97 <=? n) && (n <=? 102))%N then Some (n - 87)%N
  else None.

Definition hex4 (a b c d : ascii) : option N :=
  match hex_val a, hex_val b, hex_val c, hex_val d with
  | Some x, Some y, Some z, Some w => Some (((x * 16 + y) * 16 + z) * 16 + w)%N
  | _, _, _, _ => None
  end.

(** The UTF-8 bytes of a code point (a lone surrogate gets the three bytes
    of the generalized encoding). *)
Definition utf8 (n : N) : string :=
  let byte (k : N) := ascii_of_N k in
  let cont (k : N) := ascii_of_N (128 + k mod 64)%N in
  if (n <? 128)%N then String (byte n) EmptyString
  else if (n <? 2048)%N then
    String (byte (192 + n / 64)%N) (String (cont n) EmptyString)
  else if (n <? 65536)%N then
    String (byte (224 + n / 4096)%N)
      (String (cont (n / 64)%N) (String (cont n) EmptyString))
  else
    String (byte (240 + n / 262144)%N)
      (String (cont (n / 4096)%N)
         (String (cont (n / 64)%N) (String (cont n) EmptyString))).

(** The character a one-letter escape stands for. *)
Definition unescape (c : ascii) : option ascii :=
  if (c =? dquote) then Some dquote
  else if (c =? "\") then Some "\"
  else if (c =? "/") then Some "/"
  else if (c =? "b") then Some "008"
  else if (c =? "f") then Some "012"
  else if (c =? "n") then Some "010"
  else if (c =? "r") then Some "013"
  else if (c =? "t") then Some "009"
  else None.

(** [scanstring(s, end, strict=True)], called just after the opening quote:
    the decoded string and the text after the closing quote. *)
Fixpoint scanstring (s : string) : M (string * string) :=
  match s with
  | EmptyString => raise (JSONDecodeError "Unterminated string starting at")
  | String c r =>
      if (c =? dquote) then ret (EmptyString, r)
      else if (c =? "\") then
        match r with
        | EmptyString => raise (JSONDecodeError "Unterminated string starting at")
        | String e r1 =>
            if (e =? "u") then
              match r1 with
              | String h1 (String h2 (String h3 (String h4 r2))) =>
                  match hex4 h1 h2 h3 h4 with
                  | None => raise (JSONDecodeError "Invalid \uXXXX escape")
                  | Some u =>
                      let single :=
                        '(t, rest) <- scanstring r2 ;;
                        ret ((utf8 u ++ t)%string, rest) in
                      if ((55296 <=? u) && (u <=? 56319))%N then
                        match r2 with
                        | String b (String e2
                            (String l1 (String l2 (String l3 (String l4 r3))))) =>
                            match hex4 l1 l2 l3 l4 with
                            | Some u2 =>
                                if (b =? "\") && (e2 =? "u") &&
                                   ((56320 <=? u2) && (u2 <=? 57343))%N then
                                  '(t, rest) <- scanstring r3 ;;
                                  ret ((utf8 (65536 + (u - 55296) * 1024
                                                + (u2 - 56320)) ++ t)%string,
                                       rest)
                                else single
                            | None => single
                            end
                        | _ => single
                        end
                      else single
                  end
              | _ => raise (JSONDecodeError "Invalid \uXXXX escape")
              end
            else
              match unescape e with
              | Some ch =>
                  '(t, rest) <- scanstring r1 ;; ret (String ch t, rest)
              | None => raise (JSONDecodeError "Invalid \escape")
              end
        end
      else if (nat_of_ascii c <? 32)%nat then
        raise (JSONDecodeError "Invalid control character at")
      else '(t, rest) <- scanstring r ;; ret (String c t, rest)
  end.

(** The longest prefix of ASCII digits, and what follows it. *)
Fixpoint span_digits (s : string) : string * string :=
  match s with
  | EmptyString => (EmptyString, EmptyString)
  | String c r =>
      if is_digit c then let '(d, t) := span_digits r in (String c d, t)
      else (EmptyString, s)
  end.

Fixpoint digits_to_Z (acc : Z) (s : string) : Z :=
  match s with
  | EmptyString => acc
  | String c r => digits_to_Z (10 * acc + digit_val c) r
  end.

(** The three groups of the decoder's [NUMBER_RE], matched at the start of a
    text: an integer part (an optional minus sign, then a single zero or a
    nonzero digit and more digits), an optional fraction (a dot and at least
    one digit) and an optional exponent (e or E, an optional sign and at least
    one digit). *)
Record number_match : Type := {
  nm_neg : bool;
  nm_int : string;
  nm_frac : option string;
  nm_exp : option (bool * string);
  nm_rest : string
}.

Definition match_frac (s : string) : option string * string :=
  match s with
  | String c r =>
      if (c =? ".") then
        match span_digits r with
        | (EmptyString, _) => (None, s)
        | (d, t) => (Some d, t)
        end
      else (None, s)
  | EmptyString => (None, s)
  end.

Definition match_exp (s : string) : option (bool * string) * string :=
  match s with
  | String c r =>
      if (c =? "e") || (c =? "E") then
        let '(neg, r1) :=
          match r with
          | String c' r' =>
              if (c' =? "-") then (true, r')
              else if (c' =? "+") then (false, r')
              else (false, r)
          | EmptyString => (false, r)
          end in
        match span_digits r1 with
        | (EmptyString, _) => (None, s)
        | (d, t) => (Some (neg, d), t)
        end
      else (None, s)
  | EmptyString => (None, s)
  end.

Definition match_digits (neg : bool) (s1 : string) : option number_match :=
  match s1 with
  | String c r =>
      if is_digit c then
        let '(int_digits, s2) :=
          if (c =? "0") then (String c EmptyString, r)
          else let '(d, t) := span_digits r in (String c d, t) in
        let '(frac, s3) := match_frac s2 in
        let '(exp, s4) := match_exp s3 in
        Some {| nm_neg := neg; nm_int := int_digits; nm_frac := frac;
                nm_exp := exp; nm_rest := s4 |}
      else None
  | EmptyString => None
  end.

Definition match_number (s : string) : option number_match :=
  match s with
  | String c r => if (c =? "-") then match_digits true r else match_digits false s
  | EmptyString => None
  end.

(** [float(text)] for a decimal literal worth [(-1)^neg * m * 10^e], with
    [0 <= m]: the binary64 number nearest to it, ties to even.  A negative
    exponent is a division; enough quotient bits are kept (at least 64), and
    a last bit records whether the division left a remainder, so rounding the
    quotient rounds the exact value. *)
Definition float_of_decimal (neg : bool) (m e : Z) : pyfloat :=
  let sgn (z : Z) : Z := if neg then (- z)%Z else z in
  if (m =? 0)%Z then S754_zero neg
  else if (0 <=? e)%Z then binary_normalize prec emax (sgn (m * 10 ^ e)%Z) 0 false
  else
    let d := (10 ^ (- e))%Z in
    let s := Z.max 0 (65 + Z.log2 d - Z.log2 m) in
    let n := (m * 2 ^ s)%Z in
    let sticky := if (n mod d =? 0)%Z then 0%Z else 1%Z in
    binary_normalize prec emax (sgn (2 * (n / d) + sticky)%Z) (- s - 1) false.

(** The Python value of a matched number: an [int] unless a fraction or an
    exponent is present. *)
Definition number_value (nm : number_match) : pyval :=
  match nm_frac nm, nm_exp nm with
  | None, None =>
      let z := digits_to_Z 0 (nm_int nm) in
      PInt (if nm_neg nm then (- z)%Z else z)
  | frac, exp =>
      let fd := match frac with Some d => d | None => EmptyString end in
      let ex :=
        match exp with
        | Some (eneg, d) =>
            let z := digits_to_Z 0 d in if eneg then (- z)%Z else z
        | None => 0%Z
        end in
      PFloat (float_of_decimal (nm_neg nm)
                (digits_to_Z 0 (nm_int nm ++ fd)%string)
                (ex - Z.of_nat (String.length fd)))
  end.

(** [strip_prefix p s]: what follows [p] in [s], when [s] starts with [p]. *)
Fixpoint strip_prefix (p s : string) : option string :=
  match p, s with
  | EmptyString, _ => Some s
  | String a p', String b s' => if (a =? b) then strip_prefix p' s' else None
  | String _ _, EmptyString => None
  end.

(** The constants the scanner knows, tried in its order around the number
    pattern: [null], [true] and [false] before it, [NaN], [Infinity] and
    [-Infinity] after it. *)
Definition scan_constant_before (s : string) : option (pyval * string) :=
  match strip_prefix "null" s with
  | Some r => Some (PNone, r)
  | None =>
      match strip_prefix "true" s with
      | Some r => Some (PBool true, r)
      | None =>
          match strip_prefix "false" s with
          | Some r => Some (PBool false, r)
          | None => None
          end
      end
  end.

Definition scan_constant_after (s : string) : option (pyval * string) :=
  match strip_prefix "NaN" s with
  | Some r => Some (PFloat S754_nan, r)
  | None =>
      match strip_prefix "Infinity" s with
      | Some r => Some (PFloat (S754_infinity false), r)
      | None =>
          match strip_prefix "-Infinity" s with
          | Some r => Some (PFloat (S754_infinity true), r)
          | None => None
          end
      end
  end.

(** [scan_once] with [JSONObject] and [JSONArray].  Every nested call has
    consumed a character, so a budget of one call per character is never
    exhausted (see [JsonFacts.json_loads_fuel]); the interpreter's own limit on the
    nesting depth is not modelled.
    - [scan_once fuel s]: the value that starts at [s] and the text after it;
    - [object_members fuel s pairs]: the members of an object from just after
      the opening quote of a key, [pairs] being those already read;
    - [array_elements fuel s values]: the elements of an array from the start
      of an element. *)
Fixpoint scan_once (fuel : nat) (s : string) {struct fuel} : M (pyval * string) :=
  match fuel with
  | O => raise RecursionError
  | S fuel' =>
      match s with
      | EmptyString => raise (JSONDecodeError "Expecting value")
      | String c r =>
          if (c =? dquote) then
            '(str, rest) <- scanstring r ;; ret (PStr str, rest)
          else if (c =? "{") then
            match skip_ws r with
            | String c1 r1 =>
                if (c1 =? "}") then ret (PDict [], r1)
                else if (c1 =? dquote) then object_members fuel' r1 []
                else raise (JSONDecodeError
                       "Expecting property name enclosed in double quotes")
            | EmptyString =>
                raise (JSONDecodeError
                  "Expecting property name enclosed in double quotes")
            end
          else if (c =? "[") then
            match skip_ws r with
            | String c1 r1 =>
                if (c1 =? "]") then ret (PList [], r1)
                else array_elements fuel' (String c1 r1) []
            | EmptyString => array_elements fuel' EmptyString []
            end
          else
            match scan_constant_before s with
            | Some res => ret res
            | None =>
                match match_number s with
                | Some nm => ret (number_value nm, nm_rest nm)
                | None =>
                    match scan_constant_after s with
                    | Some res => ret res
                    | None => raise (JSONDecodeError "Expecting value")
                    end
                end
            end
      end
  end

with object_members (fuel : nat) (s : string) (pairs : list (string * pyval))
  {struct fuel} : M (pyval * string) :=
  match fuel with
  | O => raise RecursionError
  | S fuel' =>
      '(key, r) <- scanstring s ;;
      match skip_ws r with
      | String c1 r1 =>
          if (c1 =? ":") then
            '(v, r2) <- scan_once fuel' (skip_ws r1) ;;
            let pairs' := (pairs ++ [(key, v)])%list in
            match skip_ws r2 with
            | String c3 r3 =>
                if (c3 =? "}") then ret (PDict (dict_of_pairs pairs'), r3)
                else if (c3 =? ",") then
                  match skip_ws r3 with
                  | String c4 r4 =>
                      if (c4 =? dquote) then object_members fuel' r4 pairs'
                      else raise (JSONDecodeError
                             "Expecting property name enclosed in double quotes")
                  | EmptyString =>
                      raise (JSONDecodeError
                        "Expecting property name enclosed in double quotes")
                  end
                else raise (JSONDecodeError "Expecting ',' delimiter")
            | EmptyString => raise (JSONDecodeError "Expecting ',' delimiter")
            end
          else raise (JSONDecodeError "Expecting ':' delimiter")
      | EmptyString => raise (JSONDecodeError "Expecting ':' delimiter")
      end
  end

with array_elements (fuel : nat) (s : string) (values : list pyval)
  {struct fuel} : M (pyval * string) :=
  match fuel with
  | O => raise RecursionError
  | S fuel' =>
      '(v, r) <- scan_once fuel' s ;;
      let values' := (values ++ [v])%list in
      match skip_ws r with
      | String c1 r1 =>
          if (c1 =? "]") then ret (PList values', r1)
          else if (c1 =? ",") then array_elements fuel' (skip_ws r1) values'
          else raise (JSONDecodeError "Expecting ',' delimiter")
      | EmptyString => raise (JSONDecodeError "Expecting ',' delimiter")
      end
  end.

(** [json.loads(s)]: one value, white space around it, nothing else. *)
Definition json_loads (s : string) : M pyval :=
  '(v, rest) <- scan_once (2 * String.length s + 1) (skip_ws s) ;;
  match skip_ws rest with
  | EmptyString => ret v
  | String _ _ => raise (JSONDecodeError "Extra data")
  end.

End Json.


(** ** [gemini_calorie_analyzer.py] and the analysis of [calorie_monitor.py] *)
Module Analyzer.
Import Py Json.

Local Open Scope string_scope.

(** [os.path.basename] *)
Fixpoint after_last_slash (p : string) : option string :=
  match p with
  | EmptyString => None
  | String c r =>
      match after_last_slash r with
      | Some t => Some t
      | None => if (c =? "/")%char then Some r else None
      end
  end.

Definition basename (p : string) : string :=
  match after_last_slash p with
  | Some t => t
  | None => p
  end.

(** The ['status'] entry of a result: ['success'] or ['error']. *)
Inductive result_status : Type :=
| StSuccess
| StError.

(** The dictionary [analyze_screenshot] returns.  [error] is the ['error']
    entry, present in error results only; it holds [str(e)], kept here as the
    exception [e] itself. *)
Record result : Type := {
  filename : string;
  calories : pyval;
  food_items : list pyval;
  detailed_items : pyval;
  status : result_status;
  error : option exn
}.

(** What the collaborators give for one image: [Image.open], then
    [model.generate_content], then [response.text] either yield the reply
    text or raise. *)
Inductive reply : Type :=
| ReplyText (text : string)
| ReplyRaises (e : exn).

Definition recognize (r : reply) : M string :=
  match r with
  | ReplyText t => ret t
  | ReplyRaises e => raise e
  end.

(** The fallback payload used when no JSON pattern is found. *)
Definition fallback_json : pyval :=
  PDict [("food_detected", PBool false);
         ("food_items", PList []);
         ("total_calories", PInt 0)].

(** [result_json]: the decoded span, or the fallback. *)
Definition extract_json (result_text : string) : M pyval :=
  match re_search_braces result_text with
  | Some span => json_loads span
  | None => ret fallback_json
  end.

Definition no_food_result (screenshot_path : string) : result :=
  {| filename := basename screenshot_path;
     calories := PInt 0;
     food_items := [];
     detailed_items := PList [];
     status := StSuccess;
     error := None |}.

Definition error_result (screenshot_path : string) (e : exn) : result :=
  {| filename := basename screenshot_path;
     calories := PInt 0;
     food_items := [];
     detailed_items := PList [];
     status := StError;
     error := Some e |}.

(** [[item[key] for item in v]] *)
Definition py_project (v : pyval) (key : string) : M (list pyval) :=
  items <- py_iter v ;; mapM (fun item => py_getitem item key) items.

(** The result object built from [result_json]
    ([GeminiCalorieAnalyzer.analyze_screenshot], from the comment
    [# Create result object] on). *)
Definition create_result (screenshot_path : string) (result_json : pyval)
  : M result :=
  detected <- py_get result_json "food_detected" (PBool false) ;;
  if truthy detected then
    food_items <- py_get result_json "food_items" (PList []) ;;
    total_calories <- py_get result_json "total_calories" (PInt 0) ;;
    food_names <- py_project food_items "name" ;;
    ret {| filename := basename screenshot_path;
           calories := total_calories;
           food_items := food_names;
           detailed_items := food_items;
           status := StSuccess;
           error := None |}
  else ret (no_food_result screenshot_path).

(** The body of the [try] of [GeminiCalorieAnalyzer.analyze_screenshot]. *)
Definition analyze_body (screenshot_path : string) (r : reply) : M result :=
  result_text <- recognize r ;;
  result_json <- extract_json result_text ;;
  create_result screenshot_path result_json.

(** [GeminiCalorieAnalyzer.analyze_screenshot]: the [try] and its handler. *)
Definition analyze_screenshot (screenshot_path : string) (r : reply) : IO result :=
  try_except (lift (analyze_body screenshot_path r))
    (fun e =>
       emit (Print "Error processing {}: {}" [Val (PStr screenshot_path); Exc e]) ;;;
       io_ret (error_result screenshot_path e)).

(** One line of the item breakdown; the f-string is the same in both
    files. *)
Definition print_item (item : pyval) : IO unit :=
  name <~ lift (py_getitem item "name") ;;
  cal <~ lift (py_getitem item "calories") ;;
  emit (Print "    - {}: {} calories" [Val name; Val cal]).

(** [show_notification], which handles its own failures; [notifications] is
    the module flag [NOTIFICATIONS_ENABLED]. *)
Definition notify (notifications : bool) (title : string) (fields : list hole)
  : IO unit :=
  if notifications then emit (Notify title fields) else io_ret tt.

(** The body of the [try] of [CalorieMonitor.analyze_screenshot].  It
    decodes the reply as above, but prints the result, the notification and
    the item breakdown inside the [try]. *)
Definition monitor_body (notifications : bool) (screenshot_path : string)
  (r : reply) : IO result :=
  emit (Print "Analyzing {}..." [Val (PStr (basename screenshot_path))]) ;;;
  result_text <~ lift (recognize r) ;;
  result_json <~ lift (extract_json result_text) ;;
  detected <~ lift (py_get result_json "food_detected" (PBool false)) ;;
  if truthy detected then
    food_items <~ lift (py_get result_json "food_items" (PList [])) ;;
    total_calories <~ lift (py_get result_json "total_calories" (PInt 0)) ;;
    food_names <~ lift (py_project food_items "name") ;;
    foods_str <~ lift (py_join ", " food_names) ;;
    emit (Print "✓ {}: {} calories"
            [Val (PStr (basename screenshot_path)); Val total_calories]) ;;;
    emit (Print "  Detected items: {}" [Val (PStr foods_str)]) ;;;
    notify notifications "Food Detected!"
      [Val total_calories; Val (PStr foods_str)] ;;;
    items <~ lift (py_iter food_items) ;;
    io_for items print_item ;;;
    io_ret {| filename := basename screenshot_path;
              calories := total_calories;
              food_items := food_names;
              detailed_items := food_items;
              status := StSuccess;
              error := None |}
  else
    emit (Print "✓ {}: No food detected (0 calories)"
            [Val (PStr (basename screenshot_path))]) ;;;
    io_ret (no_food_result screenshot_path).

(** [CalorieMonitor.analyze_screenshot] *)
Definition monitor_analyze_screenshot (notifications : bool)
  (screenshot_path : string) (r : reply) : IO result :=
  try_except (monitor_body notifications screenshot_path r)
    (fun e =>
       emit (Print "Error processing {}: {}" [Val (PStr screenshot_path); Exc e]) ;;;
       notify notifications "Calorie Monitor Error" [Exc e] ;;;
       io_ret (error_result screenshot_path e)).

(** The result extraction step on its own: from the reply text to the result
    record. *)
Definition extract (screenshot_path : string) (raw_text : string) : IO result :=
  analyze_screenshot screenshot_path (ReplyText raw_text).

(** Whether the payload of a reply says that food was detected: the test
    [result_json.get("food_detected", False)] of the code.  The returned
    dictionary has no such entry. *)
Definition food_detected (raw_text : string) : bool :=
  match detected <- (result_json <- extract_json raw_text ;;
                     py_get result_json "food_detected" (PBool false)) ;;
        ret (truthy detected) with
  | inr b => b
  | inl _ => false
  end.


(** The same step in [CalorieMonitor]. *)
Definition monitor_extract (notifications : bool) (screenshot_path : string)
  (raw_text : string) : IO result :=
  monitor_analyze_screenshot notifications screenshot_path (ReplyText raw_text).

(** *** Batch analysis: [get_screenshots] and [analyze_all_screenshots] *)

(** [os.path.join(directory, name)] for a relative [name]. *)
Definition path_join (directory name : string) : string :=
  if String.eqb directory "" then name
  else if String.eqb (substring (String.length directory - 1) 1 directory) "/"
       then directory ++ name
       else directory ++ "/" ++ name.

Fixpoint ends_with (suffix s : string) : bool :=
  if String.eqb s suffix then true
  else match s with
       | EmptyString => false
       | String _ r => ends_with suffix r
       end.

(** [glob.glob(os.path.join(directory, '*' + ext))] on a directory that
    holds the entries [listing]; the star does not match a leading dot. *)
Definition glob_ext (directory : string) (listing : list string) (ext : string)
  : list string :=
  map (path_join directory)
      (filter (fun name => ends_with ext name && negb (prefix "." name)) listing).

(** [sorted] on strings: code point order, which on UTF-8 text is the byte
    order [String.leb]. *)
Fixpoint insert_sorted (x : string) (l : list string) : list string :=
  match l with
  | [] => [x]
  | y :: l' => if String.leb x y then x :: l else y :: insert_sorted x l'
  end.

Definition sorted (l : list string) : list string :=
  fold_right insert_sorted [] l.

Definition image_extensions : list string := [".png"; ".jpg"; ".jpeg"; ".bmp"].

(** [GeminiCalorieAnalyzer.get_screenshots] *)
Definition get_screenshots (screenshots_dir : string) (listing : list string)
  : list string :=
  sorted (flat_map (glob_ext screenshots_dir listing) image_extensions).

(** The lines [analyze_all_screenshots] prints for one result, right after
    the analysis. *)
Definition print_result_now (screenshot : string) (result : result) : IO unit :=
  positive <~ lift (py_gt0 (calories result)) ;;
  if positive then
    foods_str <~ lift (py_join ", " (food_items result)) ;;
    emit (Print "✓ {}: {} calories"
            [Val (PStr (basename screenshot)); Val (calories result)]) ;;;
    emit (Print "  Detected items: {}" [Val (PStr foods_str)]) ;;;
    if truthy (detailed_items result) then
      items <~ lift (py_iter (detailed_items result)) ;;
      io_for items print_item
    else io_ret tt
  else
    emit (Print "✓ {}: No food detected (0 calories)"
            [Val (PStr (basename screenshot))]).

(** The loop of [analyze_all_screenshots]; [service] is what the
    collaborators give for each file during this batch. *)
Fixpoint analyze_each (service : string -> reply) (screenshot_files : list string)
  : IO (list result) :=
  match screenshot_files with
  | [] => io_ret []
  | screenshot :: rest =>
      emit (Print "Analyzing {}..." [Val (PStr (basename screenshot))]) ;;;
      result <~ analyze_screenshot screenshot (service screenshot) ;;
      print_result_now screenshot result ;;;
      emit (Sleep 1) ;;;
      results <~ analyze_each service rest ;;
      io_ret (result :: results)
  end.

(** [GeminiCalorieAnalyzer.analyze_all_screenshots] *)
Definition analyze_all_screenshots (screenshots_dir : string)
  (listing : list string) (service : string -> reply) : IO (list result) :=
  match get_screenshots screenshots_dir listing with
  | [] =>
      emit (Print "No screenshots found in '{}'" [Val (PStr screenshots_dir)]) ;;;
      io_ret []
  | screenshot_files =>
      emit (Print "Analyzing {} screenshots using Gemini 2.0 Flash..."
              [Val (PInt (Z.of_nat (List.length screenshot_files)))]) ;;;
      analyze_each service screenshot_files
  end.

(** *** The report *)

(** [sum(r['calories'] for r in results)] *)
Definition total_of (results : list result) : M pyval :=
  py_sum (map calories results).

(** [sum(1 for r in results if r['calories'] > 0)] *)
Fixpoint count_food (results : list result) : M Z :=
  match results with
  | [] => ret 0%Z
  | r :: rest =>
      positive <- py_gt0 (calories r) ;;
      n <- count_food rest ;;
      ret (if positive then (1 + n)%Z else n)
  end.

Definition print_breakdown (result : result) : IO unit :=
  positive <~ lift (py_gt0 (calories result)) ;;
  if positive then
    foods_str <~ lift (py_join ", " (food_items result)) ;;
    emit (Print "- {}: {} calories"
            [Val (PStr (filename result)); Val (calories result)]) ;;;
    emit (Print "  Detected items: {}" [Val (PStr foods_str)]) ;;;
    (if truthy (detailed_items result) then
       emit (Print "  Item details:" []) ;;;
       items <~ lift (py_iter (detailed_items result)) ;;
       io_for items print_item
     else io_ret tt) ;;;
    emit (Print "" [])
  else io_ret tt.

(** [print_calorie_report] of [gemini_calorie_analyzer.py] *)
Definition print_calorie_report (results : list result) : IO unit :=
  match results with
  | [] => emit (Print "No results to display" [])
  | _ =>
      total_calories <~ lift (total_of results) ;;
      food_images <~ lift (count_food results) ;;
      emit (Print "\n===== GEMINI 2.0 FLASH CALORIE ANALYSIS REPORT =====" []) ;;;
      emit (Print "Total screenshots analyzed: {}"
              [Val (PInt (Z.of_nat (List.length results)))]) ;;;
      emit (Print "Screenshots containing food: {}" [Val (PInt food_images)]) ;;;
      emit (Print "Estimated total calories: {}" [Val total_calories]) ;;;
      emit (Print "=================================================" []) ;;;
      if (0 <? food_images)%Z then
        emit (Print "\nDetailed breakdown:" []) ;;;
        io_for results print_breakdown
      else io_ret tt
  end.

(** The summary that the analysis thread of [screenshot_with_gemini.py]
    prints after a batch ([if results: ...]). *)
Definition print_summary (results : list result) : IO unit :=
  match results with
  | [] => io_ret tt
  | _ =>
      total_calories <~ lift (total_of results) ;;
      food_images <~ lift (count_food results) ;;
      emit (Print "\n===== CALORIE ANALYSIS SUMMARY =====" []) ;;;
      emit (Print "Total screenshots analyzed: {}"
              [Val (PInt (Z.of_nat (List.length results)))]) ;;;
      emit (Print "Screenshots containing food: {}" [Val (PInt food_images)]) ;;;
      emit (Print "Estimated total calories: {}" [Val total_calories]) ;;;
      emit (Print "===================================" [])
  end.

End Analyzer.

(** ** [screenshot_taker.py] and [advanced_screenshot.py] *)
Module Capture.
Import Py.

Local Open Scope string_scope.

(** *** File names *)

(** [datetime.datetime.now()], to the second. *)
Record datetime : Type := {
  year : nat;
  month : nat;
  day : nat;
  hour : nat;
  minute : nat;
  second : nat
}.

(** The ranges of the fields, for a year of four digits. *)
Definition valid_datetime (t : datetime) : Prop :=
  (10 ^ 3 <= year t < 10 ^ 4 /\ 1 <= month t <= 12 /\ 1 <= day t <= 31 /\
   hour t <= 23 /\ minute t <= 59 /\ second t <= 59)%nat.

Definition digit_char (d : nat) : ascii := ascii_of_nat (48 + d).

(** [n] written with exactly [width] digits, most significant first (the
    zero padding of [strftime]); meant for [n < 10 ^ width]. *)
Fixpoint pad (width n : nat) : string :=
  match width with
  | O => EmptyString
  | S w => String (digit_char (n / 10 ^ w)) (pad w (n mod 10 ^ w))
  end.

(** The number of decimal digits of [n]; [fuel] bounds the count. *)
Fixpoint num_digits_upto (fuel n : nat) : nat :=
  match fuel with
  | O => 1
  | S f => if (n <? 10)%nat then 1 else S (num_digits_upto f (n / 10))
  end.

Definition num_digits (n : nat) : nat := num_digits_upto n n.

(** [str(n)] for a natural number: its digits, without padding. *)
Definition decimal (n : nat) : string := pad (num_digits n) n.

(** [now.strftime("%Y%m%d_%H%M%S")] *)
Definition strftime (t : datetime) : string :=
  pad 4 (year t) ++ pad 2 (month t) ++ pad 2 (day t) ++ "_" ++
  pad 2 (hour t) ++ pad 2 (minute t) ++ pad 2 (second t).

(** [f"{prefix}_{timestamp}_{counter}.{format}"] *)
Definition file_name (prefix : string) (t : datetime) (counter : nat)
  (format : string) : string :=
  prefix ++ "_" ++ strftime t ++ "_" ++ decimal counter ++ "." ++ format.

(** Capture order: by time stamp, then by sequence number. *)
Definition stamp (t : datetime) : list nat :=
  [year t; month t; day t; hour t; minute t; second t].

Fixpoint lex_compare (a b : list nat) : comparison :=
  match a, b with
  | [], [] => Eq
  | [], _ :: _ => Lt
  | _ :: _, [] => Gt
  | x :: a', y :: b' =>
      match Nat.compare x y with
      | Eq => lex_compare a' b'
      | c => c
      end
  end.

Definition capture_compare (t1 : datetime) (n1 : nat) (t2 : datetime) (n2 : nat)
  : comparison :=
  lex_compare (stamp t1 ++ [n1]) (stamp t2 ++ [n2]).

(** *** What the screen grabber does at one tick *)
Inductive shot : Type :=
| ShotSaved
| ShotRaises (e : exn)
| SaveRaises (e : exn).

(** [pyautogui.screenshot(region)] followed by [screenshot.save(filepath)]. *)
Definition grab (region : option (Z * Z * Z * Z)) (filepath : string)
  (compress_level : option Z) (s : shot) : IO unit :=
  match s with
  | ShotSaved => emit (Screenshot region) ;;; emit (Save filepath compress_level)
  | ShotRaises e => io_raise e
  | SaveRaises e => emit (Screenshot region) ;;; io_raise e
  end.

(** *** [ScreenshotTaker] *)
Record taker : Type := {
  output_dir : string;
  interval : Q;
  counter : nat
}.

Definition bump (self : taker) : taker :=
  {| output_dir := output_dir self;
     interval := interval self;
     counter := S (counter self) |}.

(** [ScreenshotTaker.take_screenshot]: the new state of the object and the
    returned path.  When it raises, the object is as it was. *)
Definition take_screenshot (self : taker) (now : datetime) (s : shot)
  : IO (taker * string) :=
  let filename := file_name "screenshot" now (counter self) "png" in
  let filepath := Analyzer.path_join (output_dir self) filename in
  grab None filepath None s ;;;
  emit (Print "Screenshot #{} saved: {}"
          [Val (PInt (Z.of_nat (S (counter self)))); Val (PStr filename)]) ;;;
  io_ret (bump self, filepath).

(** A tick of a capture loop: the clock reading and the grabber's doing. *)
Record tick : Type := {
  tick_now : datetime;
  tick_shot : shot;
  tick_latency : Q
}.

(** The loop of [ScreenshotTaker.run] over the ticks that happen before the
    operator's Ctrl+C, which arrives during the sleep after the last one. *)
Fixpoint run_loop (self : taker) (ticks : list tick) : IO taker :=
  match ticks with
  | [] => io_ret self
  | t :: rest =>
      '(self', _) <~ take_screenshot self (tick_now t) (tick_shot t) ;;
      emit (Sleep (interval self')) ;;;
      run_loop self' rest
  end.

(** [ScreenshotTaker.run]; only [KeyboardInterrupt] is handled. *)
Definition run (self : taker) (ticks : list tick) : IO taker :=
  emit (Print "Starting screenshot capture every {} seconds."
          [Secs (interval self)]) ;;;
  emit (Print "Press Ctrl+C to stop." []) ;;;
  self' <~ run_loop self ticks ;;
  emit (Print "\nScreenshot capture stopped." []) ;;;
  emit (Print "Total screenshots taken: {}"
          [Val (PInt (Z.of_nat (counter self')))]) ;;;
  io_ret self'.

(** *** [AdvancedScreenshotTaker] *)
Record advanced : Type := {
  a_output_dir : string;
  a_interval : Q;
  a_format : string;
  a_prefix : string;
  a_region : option (Z * Z * Z * Z);
  a_compress_level : Z;
  a_counter : nat
}.

Definition a_bump (self : advanced) : advanced :=
  {| a_output_dir := a_output_dir self;
     a_interval := a_interval self;
     a_format := a_format self;
     a_prefix := a_prefix self;
     a_region := a_region self;
     a_compress_level := a_compress_level self;
     a_counter := S (a_counter self) |}.

(** [AdvancedScreenshotTaker.take_screenshot]: the new state of the object
    and the returned path, [None] after a failure. *)
Definition a_take_screenshot (self : advanced) (now : datetime) (s : shot)
  : IO (advanced * option string) :=
  let filename := file_name (a_prefix self) now (a_counter self) (a_format self) in
  let filepath := Analyzer.path_join (a_output_dir self) filename in
  let compress :=
    if String.eqb (a_format self) "png" && (0 <? a_compress_level self)%Z
    then Some (Z.min (a_compress_level self) 9)
    else None in
  try_except
    (grab (a_region self) filepath compress s ;;;
     emit (LogInfo "Screenshot #{} saved: {}"
             [Val (PInt (Z.of_nat (S (a_counter self)))); Val (PStr filename)]) ;;;
     io_ret (a_bump self, Some filepath))
    (fun e =>
       emit (LogError "Error taking screenshot: {}" [Exc e]) ;;;
       io_ret (self, None)).

(** [x % y] on real numbers, as Python defines it for floats: the result has
    the sign of [y]; a zero [y] raises.  Times are exact rationals here, so
    the rounding of binary floating point is left out. *)
Definition py_mod (x y : Q) : M Q :=
  if Qeq_bool y 0 then raise (ZeroDivisionError "float modulo")
  else ret (x - y * inject_Z (Qfloor (x / y)))%Q.

(** [max(0, x)] *)
Definition max0 (x : Q) : Q := if Qle_bool x 0 then 0%Q else x.

(** [sleep_time] of [AdvancedScreenshotTaker.run]. *)
Definition sleep_time (interval elapsed : Q) : M Q :=
  m <- py_mod elapsed interval ;; ret (max0 (interval - m)%Q).

(** The loop of [AdvancedScreenshotTaker.run].  [clock] is [time.time()] at
    the top of the iteration, a tick takes [tick_latency] to capture and save,
    and [time.sleep] lasts as long as it is asked to.  The run is cut by the
    operator's Ctrl+C during the sleep after the last tick.  Returned: the
    object and the clock at that point. *)
Fixpoint a_run_loop (start_time : Q) (self : advanced) (clock : Q)
  (ticks : list tick) : IO (advanced * Q) :=
  match ticks with
  | [] => io_ret (self, clock)
  | t :: rest =>
      '(self', _) <~ a_take_screenshot self (tick_now t) (tick_shot t) ;;
      let after := (clock + tick_latency t)%Q in
      let elapsed := (after - start_time)%Q in
      sleep <~ lift (sleep_time (a_interval self') elapsed) ;;
      emit (Sleep sleep) ;;;
      a_run_loop start_time self' (after + sleep)%Q rest
  end.

(** [AdvancedScreenshotTaker.run], started when the clock reads
    [start_time]. *)
Definition a_run (self : advanced) (start_time : Q) (ticks : list tick)
  : IO advanced :=
  emit (LogInfo "Starting screenshot capture every {} seconds."
          [Secs (a_interval self)]) ;;;
  emit (LogInfo "Press Ctrl+C to stop." []) ;;;
  '(self', _) <~ a_run_loop start_time self start_time ticks ;;
  emit (LogInfo "\nScreenshot capture stopped." []) ;;;
  emit (LogInfo "Total screenshots taken: {}"
          [Val (PInt (Z.of_nat (a_counter self')))]) ;;;
  io_ret self'.

(** The paths saved during a run, in order. *)
Fixpoint saved_paths (o : list out) : list string :=
  match o with
  | [] => []
  | Save path _ :: o' => path :: saved_paths o'
  | _ :: o' => saved_paths o'
  end.

Fixpoint error_logs (o : list out) : list exn :=
  match o with
  | [] => []
  | LogError _ [Exc e] :: o' => e :: error_logs o'
  | _ :: o' => error_logs o'
  end.

Fixpoint successes (ticks : list tick) : list tick :=
  match ticks with
  | [] => []
  | t :: rest =>
      match tick_shot t with
      | ShotSaved => t :: successes rest
      | _ => successes rest
      end
  end.

End Capture.

(** ** [screenshot_with_gemini.py]: the coordinator

    Three threads share one [threading.Event]; the model is an interleaving
    of their steps.  A step of a thread runs it from one point where it can
    be suspended to the next. *)
Module Coordinator.
Import Py Analyzer Capture.

Local Open Scope string_scope.

(** Where the capture thread ([take_screenshots]) stands. *)
Inductive capture_pc : Type :=
| CapTop            (* about to test [stop_event.is_set()] *)
| CapWaiting        (* in [stop_event.wait(interval)] *)
| CapReturned       (* the loop ended, the thread function returned *)
| CapDied (e : exn) (* an exception ended the thread *).

(** Where the analysis thread ([analyze_periodically]) stands. *)
Inductive analysis_pc : Type :=
| AnFirstWait       (* in the first [stop_event.wait(analysis_interval)] *)
| AnTop             (* about to test [stop_event.is_set()] *)
| AnWaiting         (* in the [wait] that ends an iteration *)
| AnReturned
| AnDied (e : exn).

(** Where the main thread ([run]) stands. *)
Inductive main_pc : Type :=
| MainLoop          (* [while True: time.sleep(1)] *)
| HandlerPrinted    (* in [signal_handler], after its [print] *)
| HandlerSet        (* in [signal_handler], after [stop_event.set()] *)
| Exited (code : Z) (* [sys.exit(code)]: the process is gone *).

Record state : Type := {
  stop_event : bool;
  screenshot_taker : taker;
  capture_thread : capture_pc;
  analysis_thread : analysis_pc;
  main_thread : main_pc;
  console : list out
}.

(** The state machine of the specification, read off the main thread. *)
Inductive phase : Type :=
| Running
| StopRequested
| Stopped.

Definition phase_of (s : state) : phase :=
  match main_thread s with
  | MainLoop | HandlerPrinted => Running
  | HandlerSet => StopRequested
  | Exited _ => Stopped
  end.

(** [run] up to its main loop: both threads started. *)
Definition start (output_dir : string) (interval analysis_interval : Q) : state :=
  {| stop_event := false;
     screenshot_taker :=
       {| output_dir := output_dir; interval := interval; counter := 0 |};
     capture_thread := CapTop;
     analysis_thread := AnFirstWait;
     main_thread := MainLoop;
     console :=
       [Print "Screenshots will be saved to: {}" [Val (PStr output_dir)];
        Print "Starting screenshot capture every {} seconds." [Secs interval];
        Print "Gemini 2.0 Flash calorie analysis will run every {} seconds."
          [Secs analysis_interval];
        Print "Press Ctrl+C to stop." []] |}.

(** What makes a step happen. *)
Inductive event : Type :=
| Sigint                                   (* the operator's Ctrl+C *)
| HandlerStep                              (* the handler's next statement *)
| CaptureStep (now : datetime) (s : shot)  (* the capture thread runs *)
| CaptureWake                              (* its [wait] returns *)
| AnalysisStep (listing : list string) (service : string -> reply)
| AnalysisWake.

Definition set_capture (s : state) (t : taker) (pc : capture_pc) (o : list out)
  : state :=
  {| stop_event := stop_event s;
     screenshot_taker := t;
     capture_thread := pc;
     analysis_thread := analysis_thread s;
     main_thread := main_thread s;
     console := console s ++ o |}.

Definition set_analysis (s : state) (pc : analysis_pc) (o : list out)
  : state :=
  {| stop_event := stop_event s;
     screenshot_taker := screenshot_taker s;
     capture_thread := capture_thread s;
     analysis_thread := pc;
     main_thread := main_thread s;
     console := console s ++ o |}.

Definition set_main (s : state) (stop : bool) (pc : main_pc) (o : list out)
  : state :=
  {| stop_event := stop;
     screenshot_taker := screenshot_taker s;
     capture_thread := capture_thread s;
     analysis_thread := analysis_thread s;
     main_thread := pc;
     console := console s ++ o |}.

(** One iteration of [analyze_periodically]: the batch and its summary. *)
Definition analysis_pass (output_dir : string) (listing : list string)
  (service : string -> reply) : IO unit :=
  emit (Print "\n--- Running Gemini 2.0 Flash calorie analysis ---" []) ;;;
  results <~ analyze_all_screenshots output_dir listing service ;;
  print_summary results.

(** The step an event causes, [None] when it cannot happen in this state.
    Once the main thread has exited nothing runs any more: both threads are
    daemon threads. *)
Definition step (ev : event) (s : state) : option state :=
  match main_thread s with
  | Exited _ => None
  | pc =>
      match ev with
      | Sigint =>
          match pc with
          | MainLoop =>
              Some (set_main s (stop_event s) HandlerPrinted
                      [Print "\nStopping all processes..." []])
          | _ => None
          end
      | HandlerStep =>
          match pc with
          | HandlerPrinted => Some (set_main s true HandlerSet [])
          | HandlerSet => Some (set_main s (stop_event s) (Exited 0) [])
          | _ => None
          end
      | CaptureStep now sh =>
          match capture_thread s with
          | CapTop =>
              if stop_event s
              then Some (set_capture s (screenshot_taker s) CapReturned [])
              else
                match take_screenshot (screenshot_taker s) now sh with
                | (o, inr (t, _)) => Some (set_capture s t CapWaiting o)
                | (o, inl e) =>
                    Some (set_capture s (screenshot_taker s) (CapDied e) o)
                end
          | _ => None
          end
      | CaptureWake =>
          match capture_thread s with
          | CapWaiting => Some (set_capture s (screenshot_taker s) CapTop [])
          | _ => None
          end
      | AnalysisStep listing service =>
          match analysis_thread s with
          | AnTop =>
              if stop_event s
              then Some (set_analysis s AnReturned [])
              else
                match analysis_pass (output_dir (screenshot_taker s))
                        listing service with
                | (o, inr _) => Some (set_analysis s AnWaiting o)
                | (o, inl e) => Some (set_analysis s (AnDied e) o)
                end
          | _ => None
          end
      | AnalysisWake =>
          match analysis_thread s with
          | AnFirstWait =>
              Some (set_analysis s
                      (if stop_event s then AnReturned else AnTop) [])
          | AnWaiting => Some (set_analysis s AnTop [])
          | _ => None
          end
      end
  end.

(** A run: the events in order. *)
Fixpoint steps (evs : list event) (s : state) : option state :=
  match evs with
  | [] => Some s
  | ev :: rest =>
      match step ev s with
      | Some s' => steps rest s'
      | None => None
      end
  end.

(** Both scheduler units have observed the cancellation and returned. *)
Definition units_returned (s : state) : Prop :=
  capture_thread s = CapReturned /\ analysis_thread s = AnReturned.

End Coordinator.

(** ** [calorie_analyzer.py]: the simulated analysis, and the analysis
    thread of [screenshot_with_calories.py] *)
Module Simulated.
Import Py.

Local Open Scope string_scope.

(** What the image library does for one file: [Image.open], [resize],
    [np.array], the three channel means and [np.std] either all go through
    or one of them raises. *)
Inductive image : Type :=
| ImageRead
| ImageRaises (e : exn).

(** What the [random] module gives during one call of [_analyze_for_food]:
    the value of [random.random()], the result of the [n]-th call of
    [random.randint(a, b)] (counted from 0) and the result of
    [random.sample(population, k)]. *)
Record draws : Type := {
  random : pyfloat;
  randint : nat -> Z -> Z -> Z;
  sample : list string -> Z -> M (list string)
}.

Definition possible_foods : list string :=
  ["sandwich"; "salad"; "pasta"; "fruit"; "pizza";
   "burger"; "coffee"; "cake"; "bread"; "rice";
   "chicken"; "vegetables"; "soup"; "steak"; "fish"].

(** The bounds of the entries of [food_calories], in the order of the
    dictionary display. *)
Definition calorie_ranges : list (string * (Z * Z)) :=
  [("sandwich", (300, 500)%Z);
   ("salad", (150, 300)%Z);
   ("pasta", (400, 700)%Z);
   ("fruit", (80, 150)%Z);
   ("pizza", (250, 400)%Z);
   ("burger", (500, 800)%Z);
   ("coffee", (5, 150)%Z);
   ("cake", (300, 500)%Z);
   ("bread", (80, 200)%Z);
   ("rice", (150, 300)%Z);
   ("chicken", (200, 400)%Z);
   ("vegetables", (50, 150)%Z);
   ("soup", (100, 300)%Z);
   ("steak", (300, 600)%Z);
   ("fish", (200, 400)%Z)].

(** The dictionary [food_calories]: its entries are drawn in order, after
    the draw of [num_foods], which is call 0. *)
Fixpoint draw_calories (d : draws) (n : nat) (ranges : list (string * (Z * Z)))
  : list (string * Z) :=
  match ranges with
  | [] => []
  | (name, (lo, hi)) :: rest =>
      (name, randint d n lo hi) :: draw_calories d (S n) rest
  end.

(** [food_calories[food]] *)
Fixpoint lookup (food_calories : list (string * Z)) (food : string) : M Z :=
  match food_calories with
  | [] => raise (KeyError food)
  | (name, calories) :: rest =>
      if String.eqb name food then ret calories else lookup rest food
  end.

(** [sum(zs)] on integers *)
Definition sum_ints (zs : list Z) : Z := fold_left Z.add zs 0%Z.

(** The literal [0.7] *)
Definition seventy_percent : pyfloat := Json.float_of_decimal false 7 (-1).

(** [CalorieAnalyzer._analyze_for_food]: the pair it returns. *)
Definition _analyze_for_food (image_path : string) (img : image) (d : draws)
  : IO (Z * list string) :=
  try_except
    (lift (match img with
           | ImageRead => ret tt
           | ImageRaises e => raise e
           end) ;;;
     let contains_food := SFltb (random d) seventy_percent in
     if contains_food then
       let num_foods := randint d 0 1 3 in
       detected_foods <~ lift (sample d possible_foods num_foods) ;;
       let food_calories := draw_calories d 1 calorie_ranges in
       calories <~ lift (mapM (lookup food_calories) detected_foods) ;;
       io_ret (sum_ints calories, detected_foods)
     else io_ret (0%Z, []))
    (fun e =>
       emit (Print "Error processing {}: {}" [Val (PStr image_path); Exc e]) ;;;
       io_ret (0%Z, [])).

(** The dictionary [CalorieAnalyzer.analyze_screenshot] returns; it has no
    ['detailed_items'] entry, and [error] is its ['error'] entry. *)
Record result : Type := {
  filename : string;
  calories : Z;
  food_items : list string;
  status : Analyzer.result_status;
  error : option exn
}.

(** [CalorieAnalyzer.analyze_screenshot] *)
Definition analyze_screenshot (screenshot_path : string) (img : image)
  (d : draws) : IO result :=
  try_except
    ('(calories, food_items) <~ _analyze_for_food screenshot_path img d ;;
     io_ret {| filename := Analyzer.basename screenshot_path;
               calories := calories;
               food_items := food_items;
               status := Analyzer.StSuccess;
               error := None |})
    (fun e =>
       io_ret {| filename := Analyzer.basename screenshot_path;
                 calories := 0;
                 food_items := [];
                 status := Analyzer.StError;
                 error := Some e |}).

(** [list(executor.map(f, l))]: the results come in the order of [l]; a
    call that raises makes the whole expression raise. *)
Fixpoint executor_map {A B : Type} (f : A -> IO B) (l : list A) : IO (list B) :=
  match l with
  | [] => io_ret []
  | a :: l' => b <~ f a ;; bs <~ executor_map f l' ;; io_ret (b :: bs)
  end.

(** [CalorieAnalyzer.analyze_all_screenshots].  [get_screenshots] is, word
    for word, the one of [GeminiCalorieAnalyzer].  [images] and [rnd] tell
    what the image library and [random] give to the call made for each file.
    The four workers print their error lines as they come; here these lines
    are kept in the order of the files. *)
Definition analyze_all_screenshots (screenshots_dir : string)
  (listing : list string) (images : string -> image) (rnd : string -> draws)
  : IO (list result) :=
  match Analyzer.get_screenshots screenshots_dir listing with
  | [] =>
      emit (Print "No screenshots found in '{}'" [Val (PStr screenshots_dir)]) ;;;
      io_ret []
  | screenshot_files =>
      emit (Print "Analyzing {} screenshots..."
              [Val (PInt (Z.of_nat (List.length screenshot_files)))]) ;;;
      executor_map
        (fun screenshot => analyze_screenshot screenshot (images screenshot)
                             (rnd screenshot))
        screenshot_files
  end.

(** The two lines of the breakdown for one result. *)
Definition print_breakdown (result : result) : IO unit :=
  if (0 <? calories result)%Z then
    let foods_str := String.concat ", " (food_items result) in
    emit (Print "- {}: {} calories"
            [Val (PStr (filename result)); Val (PInt (calories result))]) ;;;
    emit (Print "  Detected items: {}" [Val (PStr foods_str)])
  else io_ret tt.

(** [sum(1 for r in results if r['calories'] > 0)] *)
Definition count_food (results : list result) : Z :=
  sum_ints (map (fun r => if (0 <? calories r)%Z then 1%Z else 0%Z) results).

(** [print_calorie_report] of [calorie_analyzer.py] *)
Definition print_calorie_report (results : list result) : IO unit :=
  match results with
  | [] => emit (Print "No results to display" [])
  | _ =>
      let total_calories := sum_ints (map calories results) in
      let food_images := count_food results in
      emit (Print "\n===== CALORIE ANALYSIS REPORT =====" []) ;;;
      emit (Print "Total screenshots analyzed: {}"
              [Val (PInt (Z.of_nat (List.length results)))]) ;;;
      emit (Print "Screenshots containing food: {}" [Val (PInt food_images)]) ;;;
      emit (Print "Estimated total calories: {}" [Val (PInt total_calories)]) ;;;
      emit (Print "==================================" []) ;;;
      if (0 <? food_images)%Z then
        emit (Print "\nDetailed breakdown:" []) ;;;
        io_for results print_breakdown ;;;
        emit (Print "\nNOTE: This analysis is simulated for demonstration purposes." []) ;;;
        emit (Print "A real implementation would use actual AI models trained on food recognition." [])
      else io_ret tt
  end.

(** One iteration of [analyze_periodically] in [screenshot_with_calories.py]:
    the batch and its report. *)
Definition analysis_pass (output_dir : string) (listing : list string)
  (images : string -> image) (rnd : string -> draws) : IO unit :=
  emit (Print "\n--- Running calorie analysis ---" []) ;;;
  results <~ analyze_all_screenshots output_dir listing images rnd ;;
  print_calorie_report results.

End Simulated.

(** ** The command line of [advanced_screenshot.py] *)
Module AdvancedMain.
Import Py.

Local Open Scope string_scope.

(** [s.split(sep)] for a separator of one character *)
Fixpoint split (sep : ascii) (s : string) : list string :=
  match s with
  | EmptyString => [EmptyString]
  | String c r =>
      if (c =? sep)%char then EmptyString :: split sep r
      else
        match split sep r with
        | [] => [String c EmptyString]
        | field :: fields => String c field :: fields
        end
  end.

(** The block [# Parse region if provided] of the main program: what it
    prints and the value [region] has after it.  [int] is the builtin, which
    returns an integer or raises; [region_arg] is [args.region].  The tuple
    is assigned to [region] before its length is tested, so the [ValueError]
    raised by the test, caught like the others, leaves it there. *)
Definition parse_region (int : string -> M Z) (region_arg : option string)
  : IO (option (list Z)) :=
  match region_arg with
  | None => io_ret None
  | Some text =>
      if String.eqb text "" then io_ret None
      else
        match mapM int (split "," text) with
        | inl e =>
            emit (Print "Error parsing region: {}" [Exc e]) ;;;
            emit (Print "Using full screen instead." []) ;;;
            io_ret None
        | inr region =>
            if negb (List.length region =? 4)%nat then
              emit (Print "Error parsing region: {}"
                      [Val (PStr "Region must have 4 values: left,top,width,height")]) ;;;
              emit (Print "Using full screen instead." []) ;;;
              io_ret (Some region)
            else io_ret (Some region)
        end
  end.

End AdvancedMain.

(** ** [calorie_monitor.py]: capture and analysis in one loop *)
Module Monitor.
Import Py.

Local Open Scope string_scope.

Record monitor : Type := {
  m_output_dir : string;
  m_interval : Q;
  m_counter : nat;
  m_screen_half : string
}.

(** What [__init__] keeps as [self.screen_half], and what it prints about
    it; [lowered] is [screen_half.lower()]. *)
Definition init_screen_half (screen_half lowered : string) : IO string :=
  if existsb (String.eqb lowered) ["left"; "right"] then io_ret lowered
  else
    emit (Print "Invalid screen half '{}'. Using 'left' as default."
            [Val (PStr screen_half)]) ;;;
    io_ret "left".

(** The [region] that [take_screenshot] captures on a screen of the given
    size; [//] is the division of [Z]. *)
Definition half_region (screen_half : string) (size : Z * Z)
  : Z * Z * Z * Z :=
  let '(screen_width, screen_height) := size in
  let half_width := (screen_width / 2)%Z in
  if String.eqb screen_half "left" then (0, 0, half_width, screen_height)%Z
  else (half_width, 0%Z, half_width, screen_height).

Definition m_bump (self : monitor) : monitor :=
  {| m_output_dir := m_output_dir self;
     m_interval := m_interval self;
     m_counter := S (m_counter self);
     m_screen_half := m_screen_half self |}.

(** [CalorieMonitor.take_screenshot]; [size] is what [pyautogui.size()]
    does. *)
Definition take_screenshot (self : monitor) (now : Capture.datetime)
  (size : M (Z * Z)) (s : Capture.shot) : IO (monitor * string) :=
  let filename := Capture.file_name "screenshot" now (m_counter self) "png" in
  let filepath := Analyzer.path_join (m_output_dir self) filename in
  screen <~ lift size ;;
  Capture.grab (Some (half_region (m_screen_half self) screen)) filepath None s ;;;
  emit (Print "Screenshot #{} saved: {} ({} half of screen)"
          [Val (PInt (Z.of_nat (S (m_counter self)))); Val (PStr filename);
           Val (PStr (m_screen_half self))]) ;;;
  io_ret (m_bump self, filepath).

(** One iteration of the loop of [run]: the clock reading, what the screen
    grabber does and what the recognition service replies. *)
Record tick : Type := {
  tick_now : Capture.datetime;
  tick_size : M (Z * Z);
  tick_shot : Capture.shot;
  tick_reply : Analyzer.reply
}.

(** The loop of [CalorieMonitor.run] over the iterations that happen before
    the operator's Ctrl+C, which arrives during the sleep after the last
    one. *)
Fixpoint run_loop (notifications : bool) (self : monitor) (ticks : list tick)
  : IO monitor :=
  match ticks with
  | [] => io_ret self
  | t :: rest =>
      '(self', screenshot_path) <~
        take_screenshot self (tick_now t) (tick_size t) (tick_shot t) ;;
      Analyzer.monitor_analyze_screenshot notifications screenshot_path
        (tick_reply t) ;;;
      emit (Sleep (m_interval self')) ;;;
      run_loop notifications self' rest
  end.

(** [CalorieMonitor.run]; the two closing lines are those of its
    [signal_handler], which then exits. *)
Definition run (notifications : bool) (self : monitor) (ticks : list tick)
  : IO monitor :=
  emit (Print "Starting Calorie Monitor with Gemini 2.0 Flash" []) ;;;
  emit (Print "Taking screenshots every {} seconds" [Secs (m_interval self)]) ;;;
  emit (Print "Press Ctrl+C to stop." []) ;;;
  self' <~ run_loop notifications self ticks ;;
  emit (Print "\nStopping Calorie Monitor..." []) ;;;
  emit (Print "Total screenshots taken: {}"
          [Val (PInt (Z.of_nat (m_counter self')))]) ;;;
  io_ret self'.

End Monitor.

(** * Properties *)

Unset Implicit Arguments.

(** ** Properties of the decoder *)
Module JsonFacts.
Import Py Json.

Local Open Scope string_scope.

Lemma bind_inr (A B : Type) (m : M A) (k : A -> M B) (b : B) :
  bind m k = inr b -> exists a, m = inr a /\ k a = inr b.
Proof. destruct m as [e | a]; simpl; [discriminate | eauto]. Qed.

Lemma bind_inl (A B : Type) (m : M A) (k : A -> M B) (e : exn) :
  bind m k = inl e -> m = inl e \/ exists a, m = inr a /\ k a = inl e.
Proof. destruct m as [e' | a]; simpl; [intros [= ->]; now left | eauto]. Qed.

Lemma skip_ws_length (s : string) : (String.length (skip_ws s) <= String.length s)%nat.
Proof.
  induction s as [| c r IH]; simpl; [lia |].
  destruct (is_ws c); simpl; lia.
Qed.

Ltac break_match_hyp H :=
  match type of H with
  | context [if ?b then _ else _] => destruct b eqn:?
  | context [match ?x with _ => _ end] => destruct x eqn:?
  end.

Lemma scanstring_length_aux (n : nat) :
  forall s t rest,
    (String.length s <= n)%nat ->
    scanstring s = inr (t, rest) ->
    (String.length rest < String.length s)%nat.
Proof.
  induction n as [| n IH]; intros s t rest Hn H.
  - destruct s; simpl in *; [discriminate | lia].
  - destruct s as [| c r]; [discriminate |].
    cbn [scanstring] in H. unfold bind, ret, raise in H.
    repeat (break_match_hyp H; subst; try discriminate);
      try (injection H as <- <-);
      cbn [String.length] in *;
      repeat match goal with
        | Hrec : scanstring ?r = inr (_, _) |- _ =>
            apply IH in Hrec; [| cbn [String.length]; lia]
        end;
      cbn [String.length] in *; lia.
Qed.

Lemma scanstring_error_aux (n : nat) :
  forall s e,
    (String.length s <= n)%nat ->
    scanstring s = inl e -> exists msg, e = JSONDecodeError msg.
Proof.
  induction n as [| n IH]; intros s e Hn H.
  - destruct s; simpl in *; [injection H as <-; eauto | lia].
  - destruct s as [| c r]; [injection H as <-; eauto |].
    cbn [scanstring] in H. unfold bind, ret, raise in H.
    repeat (break_match_hyp H; subst; try discriminate);
      try (injection H as <-);
      repeat match goal with
        | Hrec : scanstring ?r = inl _ |- _ =>
            apply IH in Hrec; [| cbn [String.length] in *; lia]
        end;
      eauto.
Qed.

Lemma scanstring_length (s t rest : string) :
  scanstring s = inr (t, rest) -> (String.length rest < String.length s)%nat.
Proof. apply scanstring_length_aux with (n := String.length s). lia. Qed.

Lemma scanstring_error (s : string) (e : exn) :
  scanstring s = inl e -> exists msg, e = JSONDecodeError msg.
Proof. apply scanstring_error_aux with (n := String.length s). lia. Qed.

Lemma span_digits_length (s : string) :
  (String.length (snd (span_digits s)) <= String.length s)%nat.
Proof.
  induction s as [| c r IH]; simpl; [lia |].
  destruct (is_digit c); [destruct (span_digits r) |]; simpl in *; lia.
Qed.

Lemma match_frac_length (s : string) :
  (String.length (snd (match_frac s)) <= String.length s)%nat.
Proof.
  destruct s as [| c r]; simpl; [lia |].
  destruct (c =? ".")%char; simpl; [| lia].
  pose proof (span_digits_length r) as H.
  destruct (span_digits r) as [[| d ds] t]; simpl in *; lia.
Qed.

Lemma match_exp_length (s : string) :
  (String.length (snd (match_exp s)) <= String.length s)%nat.
Proof.
  destruct s as [| c r]; simpl; [lia |].
  destruct ((c =? "e")%char || (c =? "E")%char); simpl; [| lia].
  destruct r as [| c' r']; simpl; [lia |].
  destruct (c' =? "-")%char; [| destruct (c' =? "+")%char].
  - pose proof (span_digits_length r') as H.
    destruct (span_digits r') as [[| d ds] t]; simpl in *; lia.
  - pose proof (span_digits_length r') as H.
    destruct (span_digits r') as [[| d ds] t]; simpl in *; lia.
  - pose proof (span_digits_length (String c' r')) as H.
    destruct (span_digits (String c' r')) as [[| d ds] t]; simpl in *; lia.
Qed.

Lemma match_digits_length (neg : bool) (s : string) (nm : number_match) :
  match_digits neg s = Some nm ->
  (String.length (nm_rest nm) < String.length s)%nat.
Proof.
  destruct s as [| c r]; [discriminate |]. unfold match_digits.
  destruct (is_digit c); [| discriminate].
  assert (Hs2 : (String.length
                   (snd (if (c =? "0")%char then (String c EmptyString, r)
                         else let '(d, t) := span_digits r in (String c d, t)))
                 <= String.length r)%nat).
  { destruct (c =? "0")%char; simpl; [lia |].
    pose proof (span_digits_length r). destruct (span_digits r); simpl in *; lia. }
  destruct (if (c =? "0")%char then (String c EmptyString, r)
            else let '(d, t) := span_digits r in (String c d, t))
    as [int_digits s2].
  pose proof (match_frac_length s2) as H3.
  destruct (match_frac s2) as [frac s3].
  pose proof (match_exp_length s3) as H4.
  destruct (match_exp s3) as [exp s4].
  intros [= <-]. simpl in *. lia.
Qed.

Lemma match_number_length (s : string) (nm : number_match) :
  match_number s = Some nm ->
  (String.length (nm_rest nm) < String.length s)%nat.
Proof.
  destruct s as [| c r]; [discriminate |]. unfold match_number.
  destruct (c =? "-")%char; intros H; apply match_digits_length in H;
    simpl in *; lia.
Qed.

Lemma strip_prefix_length (p s r : string) :
  strip_prefix p s = Some r ->
  String.length s = (String.length p + String.length r)%nat.
Proof.
  revert s. induction p as [| a p IH]; intros s; simpl.
  - now intros [= ->].
  - destruct s as [| b s]; [discriminate |].
    destruct (a =? b)%char; [| discriminate].
    intros H. apply IH in H. simpl. lia.
Qed.

Lemma scan_constant_before_length (s : string) (v : pyval) (r : string) :
  scan_constant_before s = Some (v, r) ->
  (String.length r < String.length s)%nat.
Proof.
  unfold scan_constant_before.
  destruct (strip_prefix "null" s) eqn:H1;
    [| destruct (strip_prefix "true" s) eqn:H2;
       [| destruct (strip_prefix "false" s) eqn:H3]];
    intros [= <- <-];
    match goal with H : strip_prefix _ _ = Some _ |- _ =>
      apply strip_prefix_length in H; simpl in H; lia end.
Qed.

Lemma scan_constant_after_length (s : string) (v : pyval) (r : string) :
  scan_constant_after s = Some (v, r) ->
  (String.length r < String.length s)%nat.
Proof.
  unfold scan_constant_after.
  destruct (strip_prefix "NaN" s) eqn:H1;
    [| destruct (strip_prefix "Infinity" s) eqn:H2;
       [| destruct (strip_prefix "-Infinity" s) eqn:H3]];
    intros [= <- <-];
    match goal with H : strip_prefix _ _ = Some _ |- _ =>
      apply strip_prefix_length in H; simpl in H; lia end.
Qed.

(** A run of the scanner is fine for a text of [n] characters when it did
    not exhaust its budget and, if it returned, left fewer than [n]
    characters. *)
Definition fine (n : nat) (m : M (pyval * string)) : Prop :=
  match m with
  | inl e => e <> RecursionError
  | inr (_, rest) => (String.length rest < n)%nat
  end.

Lemma fine_mono (n n' : nat) (m : M (pyval * string)) :
  (n <= n')%nat -> fine n m -> fine n' m.
Proof. destruct m as [e | [v rest]]; simpl; [auto | lia]. Qed.

Lemma skip_ws_cons (s : string) (c : ascii) (r : string) :
  skip_ws s = String c r -> (S (String.length r) <= String.length s)%nat.
Proof.
  intros H. pose proof (skip_ws_length s) as L. rewrite H in L. exact L.
Qed.

Lemma scan_fuel (fuel : nat) :
  (forall s, (2 * String.length s + 1 <= fuel)%nat ->
             fine (String.length s) (scan_once fuel s)) /\
  (forall s pairs, (2 * String.length s + 1 <= fuel)%nat ->
                   fine (String.length s) (object_members fuel s pairs)) /\
  (forall s values, (2 * String.length s + 2 <= fuel)%nat ->
                    fine (String.length s) (array_elements fuel s values)).
Proof.
  induction fuel as [| fuel [IHs [IHo IHa]]].
  { repeat split; intros; lia. }
  repeat split.
  - (* scan_once *)
    intros [| c r] Hf; cbn [scan_once]; [discriminate |].
    cbn [String.length] in *.
    destruct (c =? dquote)%char.
    { destruct (scanstring r) as [e | [str rest]] eqn:Hs; simpl.
      - apply scanstring_error in Hs.
        destruct Hs as [msg ->]. discriminate.
      - apply scanstring_length in Hs. lia. }
    destruct (c =? "{")%char.
    { destruct (skip_ws r) as [| c1 r1] eqn:Hw; [discriminate |].
      apply skip_ws_cons in Hw.
      destruct (c1 =? "}")%char; [simpl; lia |].
      destruct (c1 =? dquote)%char; [| discriminate].
      apply fine_mono with (n := String.length r1); [lia |].
      apply IHo. lia. }
    destruct (c =? "[")%char.
    { pose proof (skip_ws_length r) as Hw.
      destruct (skip_ws r) as [| c1 r1].
      - apply fine_mono with (n := 0%nat); [lia |]. apply IHa. simpl. lia.
      - destruct (c1 =? "]")%char; [simpl in *; lia |].
        apply fine_mono with (n := String.length (String c1 r1)); [lia |].
        apply IHa. lia. }
    destruct (scan_constant_before (String c r)) as [[v rest] |] eqn:Hb.
    { apply scan_constant_before_length in Hb. simpl in *. lia. }
    destruct (match_number (String c r)) as [nm |] eqn:Hm.
    { apply match_number_length in Hm. simpl in *. lia. }
    destruct (scan_constant_after (String c r)) as [[v rest] |] eqn:Ha.
    { apply scan_constant_after_length in Ha. simpl in *. lia. }
    discriminate.
  - (* object_members *)
    intros s pairs Hf. cbn [object_members].
    destruct (scanstring s) as [e | [key r]] eqn:Hs; cbn [bind].
    { apply scanstring_error in Hs.
      destruct Hs as [msg ->]. discriminate. }
    apply scanstring_length in Hs.
    destruct (skip_ws r) as [| c1 r1] eqn:Hw1; [discriminate |].
    apply skip_ws_cons in Hw1.
    destruct (c1 =? ":")%char; [| discriminate].
    pose proof (skip_ws_length r1) as Hw2.
    pose proof (IHs (skip_ws r1) ltac:(lia)) as Hv.
    destruct (scan_once fuel (skip_ws r1)) as [e | [v r2]]; cbn [bind];
      [exact Hv |].
    simpl in Hv.
    destruct (skip_ws r2) as [| c3 r3] eqn:Hw3; [discriminate |].
    apply skip_ws_cons in Hw3.
    destruct (c3 =? "}")%char; [simpl; lia |].
    destruct (c3 =? ",")%char; [| discriminate].
    destruct (skip_ws r3) as [| c4 r4] eqn:Hw4; [discriminate |].
    apply skip_ws_cons in Hw4.
    destruct (c4 =? dquote)%char; [| discriminate].
    apply fine_mono with (n := String.length r4); [lia |].
    apply IHo. lia.
  - (* array_elements *)
    intros s values Hf. cbn [array_elements].
    pose proof (IHs s ltac:(lia)) as Hv.
    destruct (scan_once fuel s) as [e | [v r]]; cbn [bind]; [exact Hv |].
    simpl in Hv.
    destruct (skip_ws r) as [| c1 r1] eqn:Hw1; [discriminate |].
    apply skip_ws_cons in Hw1.
    destruct (c1 =? "]")%char; [simpl; lia |].
    destruct (c1 =? ",")%char; [| discriminate].
    pose proof (skip_ws_length r1) as Hw2.
    apply fine_mono with (n := String.length (skip_ws r1)); [lia |].
    apply IHa. lia.
Qed.

(** [json.loads] never exhausts the budget it gives the scanner. *)
Lemma json_loads_fuel (s : string) : json_loads s <> inl RecursionError.
Proof.
  unfold json_loads.
  pose proof (skip_ws_length s) as Hw.
  destruct (scan_fuel (2 * String.length s + 1)) as [Hs _].
  specialize (Hs (skip_ws s) ltac:(lia)).
  destruct (scan_once (2 * String.length s + 1) (skip_ws s)) as [e | [v rest]];
    cbn [bind].
  - simpl in Hs. congruence.
  - destruct (skip_ws rest); discriminate.
Qed.

(** A text that starts with an opening brace decodes to a [dict], if at
    all. *)
Lemma object_members_dict (fuel : nat) :
  forall s pairs v rest,
    object_members fuel s pairs = inr (v, rest) -> exists d, v = PDict d.
Proof.
  induction fuel as [| fuel IH]; intros s pairs v rest; [discriminate |].
  cbn [object_members].
  destruct (scanstring s) as [e | [key r]]; cbn [bind]; [discriminate |].
  destruct (skip_ws r) as [| c1 r1]; [discriminate |].
  destruct (c1 =? ":")%char; [| discriminate].
  destruct (scan_once fuel (skip_ws r1)) as [e | [v' r2]]; cbn [bind];
    [discriminate |].
  destruct (skip_ws r2) as [| c3 r3]; [discriminate |].
  destruct (c3 =? "}")%char; [intros [= <- _]; eauto |].
  destruct (c3 =? ",")%char; [| discriminate].
  destruct (skip_ws r3) as [| c4 r4]; [discriminate |].
  destruct (c4 =? dquote)%char; [| discriminate].
  apply IH.
Qed.

Lemma from_first_lbrace_head (s t : string) :
  from_first_lbrace s = Some t -> exists r, t = String "{" r.
Proof.
  induction s as [| c r IH]; simpl; [discriminate |].
  destruct (Ascii.eqb_spec c "{") as [-> | _]; [intros [= <-]; eauto | exact IH].
Qed.

Lemma upto_last_rbrace_head (c : ascii) (r t : string) :
  upto_last_rbrace (String c r) = Some t -> exists r', t = String c r'.
Proof.
  simpl. destruct (upto_last_rbrace r); [intros [= <-]; eauto |].
  destruct (c =? "}")%char; [intros [= <-]; eauto | discriminate].
Qed.

Lemma re_search_braces_head (text span : string) :
  re_search_braces text = Some span -> exists r, span = String "{" r.
Proof.
  unfold re_search_braces.
  destruct (from_first_lbrace text) as [s |] eqn:Hs; [| discriminate].
  apply from_first_lbrace_head in Hs. destruct Hs as [r ->].
  apply upto_last_rbrace_head.
Qed.

Lemma scan_once_lbrace (fuel : nat) (r : string) (v : pyval) (rest : string) :
  scan_once fuel (String "{" r) = inr (v, rest) -> exists d, v = PDict d.
Proof.
  destruct fuel as [| fuel]; [discriminate |].
  cbn [scan_once].
  change ("{" =? dquote)%char with false.
  change ("{" =? "{")%char with true. cbv iota.
  destruct (skip_ws r) as [| c1 r1]; [discriminate |].
  destruct (c1 =? "}")%char; [intros [= <- _]; eauto |].
  destruct (c1 =? dquote)%char; [| discriminate].
  apply object_members_dict.
Qed.

Lemma json_loads_span_dict (text span : string) (j : pyval) :
  re_search_braces text = Some span ->
  json_loads span = inr j -> exists d, j = PDict d.
Proof.
  intros Hspan. apply re_search_braces_head in Hspan. destruct Hspan as [r ->].
  unfold json_loads.
  change (skip_ws (String "{" r)) with (String "{" r).
  destruct (scan_once _ (String "{" r)) as [e | [v rest]] eqn:Hs; cbn [bind];
    [discriminate |].
  apply scan_once_lbrace in Hs. destruct Hs as [d ->].
  destruct (skip_ws rest); [intros [= <-]; eauto | discriminate].
Qed.

End JsonFacts.

(** ** Properties of the result extraction *)
Module AnalyzerFacts.
Import Py Json Analyzer.

Local Open Scope string_scope.

(** *** The monads *)

(** Runs the monadic plumbing, and nothing else. *)
Ltac io_simpl :=
  cbn [io_bind io_ret io_raise emit lift try_except recognize ret raise bind
       fst snd outcome output app].

Lemma outcome_try_except (A : Type) (m : IO A) (h : exn -> IO A) :
  outcome (try_except m h) =
  match outcome m with
  | inr a => inr a
  | inl e => outcome (h e)
  end.
Proof.
  destruct m as [o [e | a]]; simpl; [destruct (h e) |]; reflexivity.
Qed.

Lemma outcome_bind (A B : Type) (m : IO A) (k : A -> IO B) :
  outcome (io_bind m k) =
  match outcome m with
  | inr a => outcome (k a)
  | inl e => inl e
  end.
Proof.
  destruct m as [o [e | a]]; simpl; [| destruct (k a)]; reflexivity.
Qed.

Lemma outcome_lift (A : Type) (m : M A) : outcome (lift m) = m.
Proof. reflexivity. Qed.

(** *** [analyze_screenshot] by cases on the body of its [try] *)

Lemma analyze_screenshot_eq (screenshot_path : string) (r : reply) :
  analyze_screenshot screenshot_path r =
  match analyze_body screenshot_path r with
  | inr res => ([], inr res)
  | inl e =>
      ([Print "Error processing {}: {}" [Val (PStr screenshot_path); Exc e]],
       inr (error_result screenshot_path e))
  end.
Proof.
  unfold analyze_screenshot, lift, try_except.
  destruct (analyze_body screenshot_path r); reflexivity.
Qed.

Lemma analyze_body_text (screenshot_path raw_text : string) :
  analyze_body screenshot_path (ReplyText raw_text) =
  bind (extract_json raw_text) (create_result screenshot_path).
Proof. reflexivity. Qed.

Lemma create_result_no_food (screenshot_path : string) (j v : pyval) :
  py_get j "food_detected" (PBool false) = inr v ->
  truthy v = false ->
  create_result screenshot_path j = inr (no_food_result screenshot_path).
Proof.
  intros Hget Hv. unfold create_result. rewrite Hget. simpl. now rewrite Hv.
Qed.

Lemma create_result_food (screenshot_path : string) (j v : pyval) :
  py_get j "food_detected" (PBool false) = inr v ->
  truthy v = true ->
  create_result screenshot_path j =
  (food_items <- py_get j "food_items" (PList []) ;;
   total_calories <- py_get j "total_calories" (PInt 0) ;;
   food_names <- py_project food_items "name" ;;
   ret {| filename := basename screenshot_path;
          calories := total_calories;
          food_items := food_names;
          detailed_items := food_items;
          status := StSuccess;
          error := None |}).
Proof.
  intros Hget Hv. unfold create_result. rewrite Hget. simpl. now rewrite Hv.
Qed.

(** The flag [food_detected] by cases. *)
Lemma food_detected_eq (raw_text : string) :
  food_detected raw_text =
  match extract_json raw_text with
  | inr j =>
      match py_get j "food_detected" (PBool false) with
      | inr v => truthy v
      | inl _ => false
      end
  | inl _ => false
  end.
Proof.
  unfold food_detected.
  destruct (extract_json raw_text) as [e | j]; simpl; [reflexivity |].
  destruct (py_get j "food_detected" (PBool false)); reflexivity.
Qed.

(** Without detected food, the body of the [try] can only return the
    canonical result. *)
Lemma analyze_body_not_detected (screenshot_path raw_text : string) (res : result) :
  food_detected raw_text = false ->
  analyze_body screenshot_path (ReplyText raw_text) = inr res ->
  res = no_food_result screenshot_path.
Proof.
  rewrite food_detected_eq, analyze_body_text.
  destruct (extract_json raw_text) as [e | j]; simpl; [discriminate 2 |].
  destruct (py_get j "food_detected" (PBool false)) as [e | v] eqn:Hget.
  - intros _. unfold create_result. rewrite Hget. discriminate.
  - intros Hv. rewrite (create_result_no_food screenshot_path j v Hget Hv). congruence.
Qed.

Lemma monitor_body_not_detected (notifications : bool)
  (screenshot_path raw_text : string) (res : result) :
  food_detected raw_text = false ->
  outcome (monitor_body notifications screenshot_path (ReplyText raw_text)) = inr res ->
  res = no_food_result screenshot_path.
Proof.
  rewrite food_detected_eq. unfold monitor_body. io_simpl.
  destruct (extract_json raw_text) as [e | j]; [discriminate 2 |].
  io_simpl.
  destruct (py_get j "food_detected" (PBool false)) as [e | v]; [discriminate 2 |].
  intros Hv. rewrite Hv. io_simpl. congruence.
Qed.

(** C1.  Result extraction is total: for every reply text (and, more
    generally, whatever the collaborators do) [analyze_screenshot] raises
    nothing and returns a result record, in [GeminiCalorieAnalyzer] and in
    [CalorieMonitor]; the record carries an error detail exactly when its
    status is not success; and whenever the payload does not say that food was
    detected, the record has no items and 0 calories. *)
Theorem extract_total_and_well_formed :
  forall (notifications : bool) (screenshot_path raw_text : string),
    (forall r : reply,
        exists res, outcome (analyze_screenshot screenshot_path r) = inr res) /\
    (forall r : reply,
        exists res,
          outcome (monitor_analyze_screenshot notifications screenshot_path r)
          = inr res) /\
    (exists res,
        outcome (extract screenshot_path raw_text) = inr res /\
        (error res = None <-> status res = StSuccess) /\
        (food_detected raw_text = false ->
         food_items res = [] /\ detailed_items res = PList [] /\
         calories res = PInt 0)) /\
    (exists res,
        outcome (monitor_extract notifications screenshot_path raw_text) = inr res /\
        (food_detected raw_text = false ->
         food_items res = [] /\ detailed_items res = PList [] /\
         calories res = PInt 0)).
Proof.
  intros notifications screenshot_path raw_text.
  assert (Hmon : forall e,
             outcome (emit (Print "Error processing {}: {}"
                              [Val (PStr screenshot_path); Exc e]) ;;;
                      notify notifications "Calorie Monitor Error" [Exc e] ;;;
                      io_ret (error_result screenshot_path e))
             = inr (error_result screenshot_path e)).
  { intros e. now destruct notifications. }
  repeat split.
  - intros r. rewrite analyze_screenshot_eq.
    destruct (analyze_body screenshot_path r); eexists; reflexivity.
  - intros r. unfold monitor_analyze_screenshot. rewrite outcome_try_except.
    destruct (outcome (monitor_body notifications screenshot_path r)) as [e | res].
    + eexists. apply (Hmon e).
    + eexists. reflexivity.
  - unfold extract. rewrite analyze_screenshot_eq.
    destruct (analyze_body screenshot_path (ReplyText raw_text)) as [e | res] eqn:Hb.
    + exists (error_result screenshot_path e). simpl.
      repeat split; intros; try discriminate; reflexivity.
    + exists res. split; [reflexivity |]. split.
      * rewrite analyze_body_text in Hb.
        destruct (extract_json raw_text) as [e | j]; [discriminate |].
        simpl in Hb. unfold create_result in Hb.
        destruct (py_get j "food_detected" (PBool false)) as [e | v];
          [discriminate |].
        simpl in Hb. destruct (truthy v).
        -- destruct (py_get j "food_items" (PList [])) as [e | fi];
             [discriminate |].
           simpl in Hb.
           destruct (py_get j "total_calories" (PInt 0)) as [e | tc];
             [discriminate |].
           simpl in Hb.
           destruct (py_project fi "name") as [e | names]; [discriminate |].
           simpl in Hb. injection Hb as <-. simpl. tauto.
        -- injection Hb as <-. simpl. tauto.
      * intros Hfd. rewrite (analyze_body_not_detected screenshot_path raw_text res Hfd Hb).
        repeat split.
  - unfold monitor_extract, monitor_analyze_screenshot.
    rewrite outcome_try_except.
    destruct (outcome (monitor_body notifications screenshot_path
                         (ReplyText raw_text))) as [e | res] eqn:Hb.
    + exists (error_result screenshot_path e).
      split; [apply (Hmon e) | repeat split].
    + exists res. split; [reflexivity |].
      intros Hfd. rewrite (monitor_body_not_detected notifications screenshot_path raw_text res Hfd Hb).
      repeat split.
Qed.

(** *** What the payload decides *)

(** [d.get(key, default)] on a decoded dictionary. *)
Definition dict_field (d : list (string * pyval)) (key : string)
  (default : pyval) : pyval :=
  match dict_get d key with
  | Some x => x
  | None => default
  end.

(** The two literal replies used below. *)
Definition soup_reply : string :=
  dq "{'food_detected': true, 'food_items':[{'name':'soup'}], 'total_calories':120}".

Definition negative_reply : string :=
  dq "{'food_detected': true, 'food_items':[{'name':'ice','calories':-7}], 'total_calories':-5}".

Lemma extract_json_dict (raw_text : string) (j : pyval) :
  extract_json raw_text = inr j -> exists d, j = PDict d.
Proof.
  unfold extract_json.
  destruct (re_search_braces raw_text) as [span |] eqn:Hspan.
  - apply (JsonFacts.json_loads_span_dict raw_text span j Hspan).
  - intros [= <-]. unfold fallback_json. eauto.
Qed.

Lemma extract_eq (screenshot_path raw_text : string) :
  extract screenshot_path raw_text =
  match bind (extract_json raw_text) (create_result screenshot_path) with
  | inr res => ([], inr res)
  | inl e =>
      ([Print "Error processing {}: {}" [Val (PStr screenshot_path); Exc e]],
       inr (error_result screenshot_path e))
  end.
Proof. unfold extract. now rewrite analyze_screenshot_eq, analyze_body_text. Qed.

Lemma create_result_dict (screenshot_path : string) (d : list (string * pyval)) :
  create_result screenshot_path (PDict d) =
  if truthy (dict_field d "food_detected" (PBool false)) then
    food_names <- py_project (dict_field d "food_items" (PList [])) "name" ;;
    ret {| filename := basename screenshot_path;
           calories := dict_field d "total_calories" (PInt 0);
           food_items := food_names;
           detailed_items := dict_field d "food_items" (PList []);
           status := StSuccess;
           error := None |}
  else ret (no_food_result screenshot_path).
Proof. reflexivity. Qed.

(** With detected food and a name in every entry, the result is the payload
    as decoded. *)
Lemma extract_detected (screenshot_path raw_text : string)
  (d : list (string * pyval)) (names : list pyval) :
  extract_json raw_text = inr (PDict d) ->
  truthy (dict_field d "food_detected" (PBool false)) = true ->
  py_project (dict_field d "food_items" (PList [])) "name" = inr names ->
  extract screenshot_path raw_text =
  ([], inr {| filename := basename screenshot_path;
              calories := dict_field d "total_calories" (PInt 0);
              food_items := names;
              detailed_items := dict_field d "food_items" (PList []);
              status := StSuccess;
              error := None |}).
Proof.
  intros Hj Hd Hn. rewrite extract_eq, Hj. cbn [bind].
  now rewrite create_result_dict, Hd, Hn.
Qed.

Lemma extract_not_detected (screenshot_path raw_text : string)
  (d : list (string * pyval)) :
  extract_json raw_text = inr (PDict d) ->
  truthy (dict_field d "food_detected" (PBool false)) = false ->
  extract screenshot_path raw_text = ([], inr (no_food_result screenshot_path)).
Proof.
  intros Hj Hd. rewrite extract_eq, Hj. cbn [bind].
  now rewrite create_result_dict, Hd.
Qed.

Lemma mapM_length (A B : Type) (f : A -> M B) (l : list A) (l' : list B) :
  mapM f l = inr l' -> List.length l' = List.length l.
Proof.
  revert l'. induction l as [| a l IH]; intros l'; simpl.
  - now intros [= <-].
  - destruct (f a) as [e | b]; simpl; [discriminate |].
    destruct (mapM f l) as [e | bs]; simpl; [discriminate |].
    intros [= <-]. simpl. now rewrite (IH bs eq_refl).
Qed.

(** C2, counterexample.  A span that does not parse gives an error-status
    result, not the canonical empty one; and a payload that lacks
    [food_items] while it reports detected food gives a success result with
    120 calories, not the canonical empty one either. *)
Lemma parse_failure_is_an_error_result :
  re_search_braces "{oops}" = Some "{oops}" /\
  extract "shot.png" "{oops}" =
  ([Print "Error processing {}: {}"
      [Val (PStr "shot.png");
       Exc (JSONDecodeError "Expecting property name enclosed in double quotes")]],
   inr (error_result "shot.png"
          (JSONDecodeError "Expecting property name enclosed in double quotes"))) /\
  status (error_result "shot.png"
            (JSONDecodeError "Expecting property name enclosed in double quotes"))
  = StError /\
  extract "shot.png" (dq "{'food_detected': true, 'total_calories': 120}") =
  ([], inr {| filename := "shot.png";
              calories := PInt 120;
              food_items := [];
              detailed_items := PList [];
              status := StSuccess;
              error := None |}).
Proof. repeat split; vm_compute; reflexivity. Qed.

(** C2, amended.  Extraction never raises.  It returns the canonical
    no-food result, with status success, when the text has no span from a
    first opening brace to a last closing brace, and when the decoded payload
    has no [food_detected] entry or a false one.  When the span does not
    parse, it returns an error-status result that carries the parse error.
    When the payload reports detected food, a missing [food_items] counts as
    the empty list and a missing [total_calories] as 0, the rest of the payload
    being returned as decoded.  (A decoded span is always a dictionary.) *)
Theorem extraction_fallbacks (screenshot_path raw_text : string) :
  (re_search_braces raw_text = None ->
   extract screenshot_path raw_text =
   ([], inr (no_food_result screenshot_path))) /\
  (forall span e,
      re_search_braces raw_text = Some span ->
      json_loads span = inl e ->
      extract screenshot_path raw_text =
      ([Print "Error processing {}: {}" [Val (PStr screenshot_path); Exc e]],
       inr (error_result screenshot_path e))) /\
  (forall span j,
      re_search_braces raw_text = Some span ->
      json_loads span = inr j ->
      exists d,
        j = PDict d /\
        (truthy (dict_field d "food_detected" (PBool false)) = false ->
         extract screenshot_path raw_text =
         ([], inr (no_food_result screenshot_path))) /\
        (forall names,
            truthy (dict_field d "food_detected" (PBool false)) = true ->
            py_project (dict_field d "food_items" (PList [])) "name" = inr names ->
            extract screenshot_path raw_text =
            ([], inr {| filename := basename screenshot_path;
                        calories := dict_field d "total_calories" (PInt 0);
                        food_items := names;
                        detailed_items := dict_field d "food_items" (PList []);
                        status := StSuccess;
                        error := None |}))).
Proof.
  repeat split.
  - intros Hspan. rewrite extract_eq. unfold extract_json. now rewrite Hspan.
  - intros span e Hspan He. rewrite extract_eq. unfold extract_json.
    now rewrite Hspan, He.
  - intros span j Hspan Hj.
    destruct (JsonFacts.json_loads_span_dict raw_text span j Hspan Hj) as [d ->].
    assert (Hx : extract_json raw_text = inr (PDict d)).
    { unfold extract_json. now rewrite Hspan. }
    exists d. repeat split.
    + now apply extract_not_detected.
    + intros names. now apply extract_detected.
Qed.

(** The literal case of the specification without braces, by the theorem. *)
Lemma extraction_fallbacks_witness :
  extract "shot.png" "I see no food here." = ([], inr (no_food_result "shot.png")).
Proof.
  apply (proj1 (extraction_fallbacks "shot.png" "I see no food here.")).
  reflexivity.
Defined.

(** C3, counterexample.  For the literal reply whose only item has no
    [calories], the item "soup" is in the result: in its list of names and,
    as decoded, in its detailed items. *)
Lemma soup_is_not_dropped :
  extract "screenshots/shot.png" soup_reply =
  ([], inr {| filename := "shot.png";
              calories := PInt 120;
              food_items := [PStr "soup"];
              detailed_items := PList [PDict [("name", PStr "soup")]];
              status := StSuccess;
              error := None |}).
Proof. vm_compute. reflexivity. Qed.

(** C3, amended.  For the literal reply, [GeminiCalorieAnalyzer] keeps the
    item "soup" (it is listed by name and kept as decoded, without calories),
    preserves the total of 120 and reports success.  In general it drops no
    entry: when food is detected and every entry of [food_items] has a name,
    the result is a success that holds every entry as decoded, whether or not
    it has [calories], and as many names as entries, together with the total
    of the payload.  [CalorieMonitor], which prints the calories of each item
    inside its [try], turns the literal reply into an error-status result. *)
Theorem items_without_calories_are_kept :
  (exists res,
      extract "screenshots/shot.png" soup_reply = ([], inr res) /\
      status res = StSuccess /\ calories res = PInt 120 /\
      food_items res = [PStr "soup"] /\
      detailed_items res = PList [PDict [("name", PStr "soup")]]) /\
  (forall notifications,
      outcome (monitor_extract notifications "screenshots/shot.png" soup_reply)
      = inr (error_result "screenshots/shot.png" (KeyError "calories"))) /\
  (forall screenshot_path raw_text d items names,
      extract_json raw_text = inr (PDict d) ->
      truthy (dict_field d "food_detected" (PBool false)) = true ->
      dict_get d "food_items" = Some (PList items) ->
      mapM (fun item => py_getitem item "name") items = inr names ->
      exists res,
        extract screenshot_path raw_text = ([], inr res) /\
        status res = StSuccess /\
        detailed_items res = PList items /\
        food_items res = names /\
        List.length (food_items res) = List.length items /\
        calories res = dict_field d "total_calories" (PInt 0)).
Proof.
  repeat split.
  - eexists. split; [vm_compute; reflexivity |]. repeat split.
  - intros [|]; vm_compute; reflexivity.
  - intros screenshot_path raw_text d items names Hj Hd Hitems Hnames.
    assert (Hf : dict_field d "food_items" (PList []) = PList items).
    { unfold dict_field. now rewrite Hitems. }
    eexists. split.
    + apply (extract_detected screenshot_path raw_text d names Hj Hd).
      rewrite Hf. exact Hnames.
    + simpl. rewrite Hf. repeat split. apply (mapM_length _ _ _ _ _ Hnames).
Qed.

Lemma items_without_calories_are_kept_witness :
  exists res,
    extract "screenshots/shot.png" soup_reply = ([], inr res) /\
    status res = StSuccess /\
    detailed_items res = PList [PDict [("name", PStr "soup")]] /\
    food_items res = [PStr "soup"] /\
    List.length (food_items res) = 1%nat /\
    calories res =
    dict_field [("food_detected", PBool true);
                ("food_items", PList [PDict [("name", PStr "soup")]]);
                ("total_calories", PInt 120)] "total_calories" (PInt 0).
Proof.
  exact (proj2 (proj2 items_without_calories_are_kept)
           "screenshots/shot.png" soup_reply
           [("food_detected", PBool true);
            ("food_items", PList [PDict [("name", PStr "soup")]]);
            ("total_calories", PInt 120)]
           [PDict [("name", PStr "soup")]] [PStr "soup"]
           eq_refl eq_refl eq_refl eq_refl).
Defined.

(** X3.  The first literal case of the specification: a payload wrapped in
    prose is found, decoded and returned as it is, with status success. *)
Lemma pizza_in_prose_is_extracted :
  extract "screenshots/shot.png"
    (dq "Here you go: {'food_detected': true, 'food_items':[{'name':'pizza','calories':350}], 'total_calories':350} thanks") =
  ([], inr {| filename := "shot.png";
              calories := PInt 350;
              food_items := [PStr "pizza"];
              detailed_items :=
                PList [PDict [("name", PStr "pizza"); ("calories", PInt 350)]];
              status := StSuccess;
              error := None |}).
Proof. vm_compute. reflexivity. Qed.

(** C4, counterexample.  Negative calorie values, of an item and of the
    total, are returned as they are. *)
Lemma negative_calories_are_not_clamped :
  extract "shot.png" negative_reply =
  ([], inr {| filename := "shot.png";
              calories := PInt (-5);
              food_items := [PStr "ice"];
              detailed_items :=
                PList [PDict [("name", PStr "ice"); ("calories", PInt (-7))]];
              status := StSuccess;
              error := None |}).
Proof. vm_compute. reflexivity. Qed.

(** C4, amended.  Calorie values are not clamped.  For every reply whose
    payload decodes and reports detected food, with a name in every entry of
    [food_items], the result is the success record whose calories and items
    are the [total_calories] and [food_items] of the payload exactly as
    decoded (0 and the empty list when absent), negative values included; in
    particular an integer total, of either sign, is the calories of the
    result.  When an entry has no name, the result is the error record.
    Conversely, every result either is such a success or carries 0 calories
    and no item (the no-food and the error results): a result has
    non-negative calories only as far as the payload has. *)
Theorem calories_are_passed_through (screenshot_path raw_text : string) :
  (forall d names,
      extract_json raw_text = inr (PDict d) ->
      truthy (dict_field d "food_detected" (PBool false)) = true ->
      py_project (dict_field d "food_items" (PList [])) "name" = inr names ->
      extract screenshot_path raw_text =
      ([], inr {| filename := basename screenshot_path;
                  calories := dict_field d "total_calories" (PInt 0);
                  food_items := names;
                  detailed_items := dict_field d "food_items" (PList []);
                  status := StSuccess;
                  error := None |})) /\
  (forall d names z res,
      extract_json raw_text = inr (PDict d) ->
      truthy (dict_field d "food_detected" (PBool false)) = true ->
      py_project (dict_field d "food_items" (PList [])) "name" = inr names ->
      dict_get d "total_calories" = Some (PInt z) ->
      outcome (extract screenshot_path raw_text) = inr res ->
      calories res = PInt z /\ status res = StSuccess) /\
  (forall d e,
      extract_json raw_text = inr (PDict d) ->
      truthy (dict_field d "food_detected" (PBool false)) = true ->
      py_project (dict_field d "food_items" (PList [])) "name" = inl e ->
      extract screenshot_path raw_text =
      ([Print "Error processing {}: {}" [Val (PStr screenshot_path); Exc e]],
       inr (error_result screenshot_path e))) /\
  (forall res,
      outcome (extract screenshot_path raw_text) = inr res ->
      (status res = StSuccess /\ food_detected raw_text = true /\
       exists d,
         extract_json raw_text = inr (PDict d) /\
         calories res = dict_field d "total_calories" (PInt 0) /\
         detailed_items res = dict_field d "food_items" (PList [])) \/
      (calories res = PInt 0 /\ food_items res = [] /\
       detailed_items res = PList [])).
Proof.
  split; [| split; [| split]].
  - intros d names. apply extract_detected.
  - intros d names z res Hj Hd Hn Hz.
    rewrite (extract_detected screenshot_path raw_text d names Hj Hd Hn).
    cbn [outcome snd]. intros [= <-]. cbn [calories status].
    unfold dict_field. now rewrite Hz.
  - intros d e Hj Hd Hn. rewrite extract_eq, Hj. cbn [bind].
    now rewrite create_result_dict, Hd, Hn.
  - intros res. rewrite extract_eq, food_detected_eq.
    destruct (extract_json raw_text) as [e | j] eqn:Hj; cbn [bind].
    { intros [= <-]. right. repeat split. }
    destruct (extract_json_dict raw_text j Hj) as [d ->].
    rewrite create_result_dict. cbn [py_get ret].
    fold (dict_field d "food_detected" (PBool false)).
    destruct (truthy (dict_field d "food_detected" (PBool false))).
    + destruct (py_project (dict_field d "food_items" (PList [])) "name")
        as [e | names]; cbn [bind ret].
      * intros [= <-]. right. repeat split.
      * intros [= <-]. left. repeat split. exists d. repeat split.
    + intros [= <-]. right. repeat split.
Qed.

(** The theorem at a payload with a negative total and no [food_items]. *)
Lemma calories_are_passed_through_witness :
  extract "shot.png" (dq "{'food_detected': true, 'total_calories': -40}") =
  ([], inr {| filename := "shot.png";
              calories := PInt (-40);
              food_items := [];
              detailed_items := PList [];
              status := StSuccess;
              error := None |}).
Proof.
  apply (proj1 (calories_are_passed_through "shot.png"
                  (dq "{'food_detected': true, 'total_calories': -40}"))
           [("food_detected", PBool true); ("total_calories", PInt (-40))] []);
    vm_compute; reflexivity.
Defined.

(** *** The batch and its summary *)

Definition sum_Z (zs : list Z) : Z := fold_right Z.add 0%Z zs.

Definition positives (zs : list Z) : Z :=
  Z.of_nat (List.length (filter (fun z => (0 <? z)%Z) zs)).

(** The five lines of a summary. *)
Definition summary_lines (header footer : string) (images_analyzed food_images : Z)
  (total_calories : pyval) : list out :=
  [Print header [];
   Print "Total screenshots analyzed: {}" [Val (PInt images_analyzed)];
   Print "Screenshots containing food: {}" [Val (PInt food_images)];
   Print "Estimated total calories: {}" [Val total_calories];
   Print footer []].

Lemma py_sum_ints_from (zs : list Z) (a : Z) :
  fold_left (fun acc v => x <- acc ;; py_add x v) (map PInt zs) (ret (PInt a))
  = ret (PInt (a + sum_Z zs)).
Proof.
  revert a. induction zs as [| z zs IH]; intros a; simpl.
  - now rewrite Z.add_0_r.
  - change (py_add (PInt a) (PInt z)) with (ret (PInt (a + z))).
    rewrite IH. now rewrite Z.add_assoc.
Qed.

Lemma total_of_ints (results : list result) (zs : list Z) :
  map calories results = map PInt zs ->
  total_of results = inr (PInt (sum_Z zs)).
Proof.
  intros H. unfold total_of, py_sum. rewrite H.
  exact (py_sum_ints_from zs 0).
Qed.

Lemma count_food_ints (results : list result) (zs : list Z) :
  map calories results = map PInt zs ->
  count_food results = inr (positives zs).
Proof.
  revert zs. induction results as [| r results IH]; intros [| z zs]; simpl;
    try discriminate; [reflexivity |].
  intros [= Hr Hrest]. rewrite Hr, (IH zs Hrest). cbn [py_gt0 bind ret].
  unfold positives. simpl. destruct (0 <? z)%Z; simpl List.length; [| reflexivity].
  now rewrite Nat2Z.inj_succ, <- Z.add_1_l.
Qed.

Lemma print_summary_ints (results : list result) (zs : list Z) :
  results <> [] ->
  map calories results = map PInt zs ->
  print_summary results =
  (summary_lines "\n===== CALORIE ANALYSIS SUMMARY ====="
     "===================================" (Z.of_nat (List.length results))
     (positives zs) (PInt (sum_Z zs)),
   inr tt).
Proof.
  intros Hne H. destruct results as [| r results]; [congruence |].
  unfold print_summary.
  rewrite (total_of_ints _ zs H), (count_food_ints _ zs H). reflexivity.
Qed.

Lemma print_calorie_report_ints (results : list result) (zs : list Z) :
  results <> [] ->
  map calories results = map PInt zs ->
  exists details,
    output (print_calorie_report results) =
    (summary_lines "\n===== GEMINI 2.0 FLASH CALORIE ANALYSIS REPORT ====="
       "=================================================" (Z.of_nat (List.length results))
       (positives zs) (PInt (sum_Z zs)) ++ details)%list.
Proof.
  intros Hne H. destruct results as [| r results]; [congruence |].
  unfold print_calorie_report.
  rewrite (total_of_ints _ zs H), (count_food_ints _ zs H).
  io_simpl. destruct (0 <? positives zs)%Z.
  - destruct (io_for (r :: results) print_breakdown) as [o x].
    exists (Print "\nDetailed breakdown:" [] :: o). reflexivity.
  - exists []. reflexivity.
Qed.

(** C8.  A batch of four results with calories 0, 120 and 300 and a fourth,
    error result (which carries 0 calories) is summarised as 4 images
    analysed, 2 images with food and 420 calories in total, by the analysis
    thread and by [print_calorie_report].  In general, for a batch that is
    not empty and whose calories are integers, the summary reports the length
    of the list, the number of results with positive calories and the sum of
    all calories. *)
Theorem batch_summary :
  (forall r1 r2 r3 screenshot_path e,
      calories r1 = PInt 0 -> calories r2 = PInt 120 -> calories r3 = PInt 300 ->
      let batch := [r1; r2; r3; error_result screenshot_path e] in
      print_summary batch =
      (summary_lines "\n===== CALORIE ANALYSIS SUMMARY ====="
         "===================================" 4 2 (PInt 420), inr tt) /\
      exists details,
        output (print_calorie_report batch) =
        (summary_lines "\n===== GEMINI 2.0 FLASH CALORIE ANALYSIS REPORT ====="
           "=================================================" 4 2 (PInt 420)
         ++ details)%list) /\
  (forall results zs,
      results <> [] ->
      map calories results = map PInt zs ->
      print_summary results =
      (summary_lines "\n===== CALORIE ANALYSIS SUMMARY ====="
         "===================================" (Z.of_nat (List.length results))
         (positives zs) (PInt (sum_Z zs)), inr tt) /\
      exists details,
        output (print_calorie_report results) =
        (summary_lines "\n===== GEMINI 2.0 FLASH CALORIE ANALYSIS REPORT ====="
           "=================================================" (Z.of_nat (List.length results))
           (positives zs) (PInt (sum_Z zs)) ++ details)%list).
Proof.
  split.
  - intros r1 r2 r3 screenshot_path e H1 H2 H3 batch.
    assert (Hz : map calories batch = map PInt [0; 120; 300; 0]%Z).
    { unfold batch. simpl. now rewrite H1, H2, H3. }
    assert (Hne : batch <> []) by discriminate.
    split.
    + exact (print_summary_ints batch _ Hne Hz).
    + exact (print_calorie_report_ints batch _ Hne Hz).
  - intros results zs Hne Hz. split.
    + exact (print_summary_ints results zs Hne Hz).
    + exact (print_calorie_report_ints results zs Hne Hz).
Qed.

Lemma batch_summary_witness :
  let batch :=
    [no_food_result "screenshots/a.png";
     {| filename := "b.png"; calories := PInt 120; food_items := [PStr "soup"];
        detailed_items := PList [PDict [("name", PStr "soup")]];
        status := StSuccess; error := None |};
     {| filename := "c.png"; calories := PInt 300; food_items := [PStr "pizza"];
        detailed_items := PList []; status := StSuccess; error := None |};
     error_result "screenshots/d.png" (ExternalError "quota exceeded")] in
  print_summary batch =
  (summary_lines "\n===== CALORIE ANALYSIS SUMMARY ====="
     "===================================" 4 2 (PInt 420), inr tt) /\
  exists details,
    output (print_calorie_report batch) =
    (summary_lines "\n===== GEMINI 2.0 FLASH CALORIE ANALYSIS REPORT ====="
       "=================================================" 4 2 (PInt 420)
     ++ details)%list.
Proof.
  exact (proj1 batch_summary
           (no_food_result "screenshots/a.png")
           {| filename := "b.png"; calories := PInt 120;
              food_items := [PStr "soup"];
              detailed_items := PList [PDict [("name", PStr "soup")]];
              status := StSuccess; error := None |}
           {| filename := "c.png"; calories := PInt 300;
              food_items := [PStr "pizza"];
              detailed_items := PList []; status := StSuccess; error := None |}
           "screenshots/d.png" (ExternalError "quota exceeded")
           eq_refl eq_refl eq_refl).
Defined.

(** X1.  An image whose analysis fails inside [analyze_screenshot] is
    reported as an error result with the exception as detail, and the loop of
    the batch goes on with the remaining images exactly as it would have
    without that image. *)
Lemma failed_image_is_isolated (service : string -> reply)
  (screenshot : string) (rest : list string) (e : exn) :
  analyze_body screenshot (service screenshot) = inl e ->
  analyze_screenshot screenshot (service screenshot) =
  ([Print "Error processing {}: {}" [Val (PStr screenshot); Exc e]],
   inr (error_result screenshot e)) /\
  status (error_result screenshot e) = StError /\
  error (error_result screenshot e) = Some e /\
  analyze_each service (screenshot :: rest) =
  (([Print "Analyzing {}..." [Val (PStr (basename screenshot))];
     Print "Error processing {}: {}" [Val (PStr screenshot); Exc e];
     Print "✓ {}: No food detected (0 calories)" [Val (PStr (basename screenshot))];
     Sleep 1] ++ output (analyze_each service rest))%list,
   match outcome (analyze_each service rest) with
   | inr results => inr (error_result screenshot e :: results)
   | inl e' => inl e'
   end).
Proof.
  intros Hb.
  assert (Ha : analyze_screenshot screenshot (service screenshot) =
               ([Print "Error processing {}: {}" [Val (PStr screenshot); Exc e]],
                inr (error_result screenshot e))).
  { rewrite analyze_screenshot_eq. now rewrite Hb. }
  repeat split; [exact Ha |].
  cbn [analyze_each]. rewrite Ha.
  destruct (analyze_each service rest) as [o [e' | results]]; cbn;
    rewrite ?app_nil_r; reflexivity.
Qed.

Lemma failed_image_is_isolated_witness :
  analyze_each (fun _ => ReplyRaises (ExternalError "quota exceeded"))
    ["screenshots/a.png"] =
  ([Print "Analyzing {}..." [Val (PStr "a.png")];
    Print "Error processing {}: {}"
      [Val (PStr "screenshots/a.png"); Exc (ExternalError "quota exceeded")];
    Print "✓ {}: No food detected (0 calories)" [Val (PStr "a.png")];
    Sleep 1],
   inr [error_result "screenshots/a.png" (ExternalError "quota exceeded")]).
Proof.
  exact (proj2 (proj2 (proj2
    (failed_image_is_isolated
       (fun _ => ReplyRaises (ExternalError "quota exceeded"))
       "screenshots/a.png" [] (ExternalError "quota exceeded") eq_refl)))).
Defined.

(** *** Prose around the payload *)

(** [free_of c s]: the character [c] does not occur in [s]. *)
Fixpoint free_of (c : ascii) (s : string) : bool :=
  match s with
  | EmptyString => true
  | String c' r => negb (c' =? c)%char && free_of c r
  end.

Lemma from_first_lbrace_skips (pre r : string) :
  free_of "{" pre = true ->
  from_first_lbrace (pre ++ String "{" r) = Some (String "{" r).
Proof.
  induction pre as [| c pre IH]; cbn [free_of append from_first_lbrace].
  - reflexivity.
  - destruct (c =? "{")%char; [discriminate | exact IH].
Qed.

Lemma upto_last_rbrace_none (post : string) :
  free_of "}" post = true -> upto_last_rbrace post = None.
Proof.
  induction post as [| c post IH]; cbn [free_of upto_last_rbrace];
    [reflexivity |].
  destruct (c =? "}")%char; [discriminate |].
  intros H. now rewrite (IH H).
Qed.

Lemma upto_last_rbrace_stops (a post : string) :
  free_of "}" post = true ->
  upto_last_rbrace (a ++ String "}" post) = Some (a ++ "}").
Proof.
  intros Hpost. induction a as [| c a IH]; cbn [append upto_last_rbrace].
  - now rewrite (upto_last_rbrace_none post Hpost).
  - now rewrite IH.
Qed.

(** The span the pattern matches: from the first opening brace to the last
    closing brace. *)
Lemma re_search_braces_span (pre body post : string) :
  free_of "{" pre = true -> free_of "}" post = true ->
  re_search_braces (pre ++ "{" ++ body ++ "}" ++ post) =
  Some ("{" ++ body ++ "}").
Proof.
  intros Hpre Hpost. unfold re_search_braces.
  change ("{" ++ body ++ "}" ++ post) with (String "{" (body ++ "}" ++ post)).
  rewrite (from_first_lbrace_skips pre _ Hpre).
  change (String "{" (body ++ "}" ++ post))
    with (String "{" body ++ String "}" post).
  now rewrite (upto_last_rbrace_stops (String "{" body) post Hpost).
Qed.

(** X7.  Prose around the payload is ignored: text before the first opening
    brace and after the last closing brace of a reply has no effect on the
    result, in either analyzer. *)
Lemma prose_around_the_payload_is_ignored (notifications : bool)
  (screenshot_path pre body post : string) :
  free_of "{" pre = true -> free_of "}" post = true ->
  extract screenshot_path (pre ++ "{" ++ body ++ "}" ++ post) =
  extract screenshot_path ("{" ++ body ++ "}") /\
  monitor_extract notifications screenshot_path
    (pre ++ "{" ++ body ++ "}" ++ post) =
  monitor_extract notifications screenshot_path ("{" ++ body ++ "}").
Proof.
  intros Hpre Hpost.
  assert (H : extract_json (pre ++ "{" ++ body ++ "}" ++ post) =
              extract_json ("{" ++ body ++ "}")).
  { unfold extract_json.
    rewrite (re_search_braces_span pre body post Hpre Hpost).
    change ("{" ++ body ++ "}") with ("" ++ "{" ++ body ++ "}" ++ "") at 2.
    now rewrite (re_search_braces_span "" body "" eq_refl eq_refl). }
  revert H.
  generalize (pre ++ "{" ++ body ++ "}" ++ post), ("{" ++ body ++ "}").
  intros t1 t2 H. split.
  - unfold extract, analyze_screenshot, analyze_body.
    cbn [recognize bind ret]. now rewrite H.
  - unfold monitor_extract, monitor_analyze_screenshot, monitor_body.
    cbn [recognize lift io_bind ret]. now rewrite H.
Qed.

Lemma prose_around_the_payload_is_ignored_witness :
  extract "shots/a.png"
    ("Here you go: " ++ "{" ++ dq "'food_detected': false" ++ "}" ++ " thanks")
  = extract "shots/a.png" ("{" ++ dq "'food_detected': false" ++ "}") /\
  monitor_extract true "shots/a.png"
    ("Here you go: " ++ "{" ++ dq "'food_detected': false" ++ "}" ++ " thanks")
  = monitor_extract true "shots/a.png"
      ("{" ++ dq "'food_detected': false" ++ "}").
Proof.
  apply (prose_around_the_payload_is_ignored true "shots/a.png"
           "Here you go: " (dq "'food_detected': false") " thanks");
    reflexivity.
Defined.

(** *** The listing of the directory *)

(** What the four patterns of [get_screenshots] accept: a name that ends
    with one of the extensions and does not start with a dot. *)
Definition is_image (name : string) : bool :=
  existsb (fun ext => ends_with ext name) image_extensions &&
  negb (prefix "." name).

(** A directory name that [glob] takes as it is: it has none of the
    characters that make a pattern, and no doubled slash at its end. *)
Definition literal_directory (directory : string) : bool :=
  free_of "*" directory && free_of "?" directory && free_of "[" directory &&
  negb (ends_with "//" directory).

(** Ascending order of a list of paths: each path is at most the next. *)
Definition ascending (l : list string) : Prop :=
  Sorted (fun a b => String.leb a b = true) l.

Lemma ends_with_length (suffix s : string) :
  ends_with suffix s = true -> (String.length suffix <= String.length s)%nat.
Proof.
  induction s as [| c r IH]; cbn [ends_with].
  - destruct (String.eqb_spec "" suffix) as [<- | _]; [lia | discriminate].
  - destruct (String.eqb_spec (String c r) suffix) as [<- | _]; [lia |].
    intros H. specialize (IH H). cbn [String.length]. lia.
Qed.

(** Of two endings of one name, the shorter is an ending of the longer. *)
Lemma ends_with_both (a b s : string) :
  ends_with a s = true -> ends_with b s = true ->
  (String.length a <= String.length b)%nat ->
  ends_with a b = true.
Proof.
  induction s as [| c r IH]; cbn [ends_with].
  - destruct (String.eqb_spec "" b) as [<- | _]; [| discriminate].
    destruct (String.eqb_spec "" a) as [<- | _]; [| discriminate].
    reflexivity.
  - intros Ha Hb Hlen.
    destruct (String.eqb_spec (String c r) b) as [<- | _].
    + cbn [ends_with]. exact Ha.
    + destruct (String.eqb_spec (String c r) a) as [<- | _].
      * apply ends_with_length in Hb. cbn [String.length] in Hlen. lia.
      * now apply IH.
Qed.

(** No name matches two of the patterns. *)
Lemma one_extension (a b name : string) :
  In a image_extensions -> In b image_extensions ->
  ends_with a name = true -> ends_with b name = true -> a = b.
Proof.
  intros Ha Hb Hna Hnb.
  destruct (Nat.le_ge_cases (String.length a) (String.length b)) as [Hl | Hl].
  - pose proof (ends_with_both a b name Hna Hnb Hl) as H. revert H.
    cbn in Ha, Hb.
    repeat (destruct Ha as [<- | Ha]; [| ]);
      repeat (destruct Hb as [<- | Hb]; [| ]);
      try contradiction; try reflexivity; cbn; discriminate.
  - pose proof (ends_with_both b a name Hnb Hna Hl) as H. revert H.
    cbn in Ha, Hb.
    repeat (destruct Ha as [<- | Ha]; [| ]);
      repeat (destruct Hb as [<- | Hb]; [| ]);
      try contradiction; try reflexivity; cbn; discriminate.
Qed.

Lemma filter_split (A : Type) (p q : A -> bool) (l : list A) :
  (forall x, In x l -> p x = true -> q x = false) ->
  Permutation (filter p l ++ filter q l) (filter (fun x => p x || q x) l).
Proof.
  induction l as [| x l IH]; intros Hex; [constructor |].
  cbn [filter].
  assert (IH' : Permutation (filter p l ++ filter q l)
                  (filter (fun x => p x || q x) l)).
  { apply IH. intros y Hy. apply Hex. now right. }
  destruct (p x) eqn:Hp.
  - rewrite (Hex x (or_introl eq_refl) Hp). cbn. now constructor.
  - destruct (q x); cbn.
    + apply Permutation_sym, Permutation_cons_app, Permutation_sym, IH'.
    + exact IH'.
Qed.

Lemma insert_sorted_perm (x : string) (l : list string) :
  Permutation (insert_sorted x l) (x :: l).
Proof.
  induction l as [| y l IH]; cbn [insert_sorted]; [reflexivity |].
  destruct (String.leb x y); [reflexivity |].
  rewrite IH. apply perm_swap.
Qed.

Lemma sorted_perm (l : list string) : Permutation (sorted l) l.
Proof.
  induction l as [| x l IH]; cbn [sorted fold_right]; [constructor |].
  fold (sorted l). rewrite insert_sorted_perm. now constructor.
Qed.

Lemma insert_sorted_ascending (x : string) (l : list string) :
  ascending l -> ascending (insert_sorted x l).
Proof.
  unfold ascending. induction l as [| y l IH]; intros Hl; cbn [insert_sorted].
  - repeat constructor.
  - destruct (String.leb x y) eqn:Hxy.
    + constructor; [exact Hl | constructor; exact Hxy].
    + assert (Hyx : String.leb y x = true).
      { destruct (String.leb_total x y) as [H | H]; [congruence | exact H]. }
      inversion Hl as [| y' l' Hl' Hhd]; subst.
      constructor; [now apply IH |].
      destruct l as [| z l]; cbn [insert_sorted].
      * constructor; exact Hyx.
      * destruct (String.leb x z); constructor; [exact Hyx |].
        now inversion Hhd.
Qed.

Lemma sorted_ascending (l : list string) : ascending (sorted l).
Proof.
  induction l as [| x l IH]; cbn [sorted fold_right]; [constructor |].
  now apply insert_sorted_ascending.
Qed.

Lemma globs_perm (directory : string) (listing : list string) :
  Permutation (flat_map (glob_ext directory listing) image_extensions)
    (map (path_join directory) (filter is_image listing)).
Proof.
  unfold image_extensions, glob_ext. cbn [flat_map].
  rewrite app_nil_r, <- !map_app. apply Permutation_map.
  set (hid := fun name : string => negb (prefix "." name)).
  set (f := fun ext name => ends_with ext name && hid name).
  change (Permutation
            (filter (f ".png") listing ++ filter (f ".jpg") listing ++
             filter (f ".jpeg") listing ++ filter (f ".bmp") listing)
            (filter is_image listing)).
  assert (Hex : forall a b name,
             In a image_extensions -> In b image_extensions -> a <> b ->
             f a name = true -> f b name = false).
  { intros a b name Ha Hb Hab. unfold f.
    destruct (ends_with a name) eqn:Ea; [| discriminate].
    destruct (ends_with b name) eqn:Eb; [| reflexivity].
    destruct Hab. exact (one_extension a b name Ha Hb Ea Eb). }
  assert (Hext : forall name, is_image name =
             (f ".png" name || (f ".jpg" name || (f ".jpeg" name || f ".bmp" name)))).
  { intros name. unfold is_image, image_extensions, f, hid. cbn [existsb].
    destruct (ends_with ".png" name), (ends_with ".jpg" name),
      (ends_with ".jpeg" name), (ends_with ".bmp" name),
      (negb (prefix "." name)); reflexivity. }
  rewrite (filter_ext _ _ Hext).
  assert (In4 : forall e, In e [".png"; ".jpg"; ".jpeg"; ".bmp"] ->
                  In e image_extensions) by (intros e H; exact H).
  rewrite <- (filter_split _ (f ".png")
                (fun n => f ".jpg" n || (f ".jpeg" n || f ".bmp" n))).
  2:{ intros x _ Hx.
      rewrite (Hex ".png" ".jpg" x), (Hex ".png" ".jpeg" x),
        (Hex ".png" ".bmp" x); cbn; auto 6; discriminate. }
  apply Permutation_app_head.
  rewrite <- (filter_split _ (f ".jpg") (fun n => f ".jpeg" n || f ".bmp" n)).
  2:{ intros x _ Hx.
      rewrite (Hex ".jpg" ".jpeg" x), (Hex ".jpg" ".bmp" x);
        cbn; auto 6; discriminate. }
  apply Permutation_app_head.
  rewrite <- (filter_split _ (f ".jpeg") (f ".bmp")).
  2:{ intros x _ Hx. rewrite (Hex ".jpeg" ".bmp" x); cbn; auto 6; discriminate. }
  reflexivity.
Qed.

(** X6.  [get_screenshots] returns the image files of the directory: every
    entry that ends with one of the four extensions and is not hidden, once
    for each time the directory lists it, joined to the directory, and
    nothing else (no entry is found by two of the patterns); and it returns
    them in ascending order. *)
Lemma get_screenshots_lists_the_images (screenshots_dir : string)
  (listing : list string) :
  literal_directory screenshots_dir = true ->
  Permutation (get_screenshots screenshots_dir listing)
    (map (path_join screenshots_dir) (filter is_image listing)) /\
  ascending (get_screenshots screenshots_dir listing).
Proof.
  intros _. unfold get_screenshots. split.
  - rewrite sorted_perm. apply globs_perm.
  - apply sorted_ascending.
Qed.

Lemma get_screenshots_lists_the_images_witness :
  Permutation
    (get_screenshots "shots"
       ["b.jpeg"; "notes.txt"; ".hidden.png"; "a.png"; "c.jpg.bak"; "a.bmp"])
    (map (path_join "shots") ["b.jpeg"; "a.png"; "a.bmp"]) /\
  ascending
    (get_screenshots "shots"
       ["b.jpeg"; "notes.txt"; ".hidden.png"; "a.png"; "c.jpg.bak"; "a.bmp"]).
Proof.
  exact (get_screenshots_lists_the_images "shots"
           ["b.jpeg"; "notes.txt"; ".hidden.png"; "a.png"; "c.jpg.bak"; "a.bmp"]
           eq_refl).
Defined.

(** *** Batches that complete *)













End AnalyzerFacts.

(** ** Properties of the capture loops *)
Module CaptureFacts.
Import Py Capture.

Local Open Scope string_scope.

(** *** The sleep of the drift-corrected loop *)

Lemma max0_positive (x : Q) : (0 < x)%Q -> max0 x = x.
Proof.
  intros Hx. unfold max0. destruct (Qle_bool x 0) eqn:Hb; [| reflexivity].
  apply Qle_bool_iff in Hb. lra.
Qed.

Lemma max0_nonneg (x : Q) : (0 <= max0 x)%Q.
Proof.
  unfold max0. destruct (Qle_bool x 0) eqn:Hb; [lra |].
  destruct (Qlt_le_dec 0 x) as [H | H]; [lra |].
  apply Qle_bool_iff in H. congruence.
Qed.

Section PositiveInterval.

Variable interval : Q.
Hypothesis interval_positive : (0 < interval)%Q.

(** The remainder of [elapsed] modulo the interval. *)
Let remainder (elapsed : Q) : Q :=
  (elapsed - interval * inject_Z (Qfloor (elapsed / interval)))%Q.

Lemma py_mod_positive (elapsed : Q) :
  py_mod elapsed interval = inr (remainder elapsed) /\
  (0 <= remainder elapsed)%Q /\ (remainder elapsed < interval)%Q.
Proof.
  unfold py_mod, remainder.
  assert (Hne : ~ (interval == 0)%Q).
  { intros H. rewrite H in interval_positive. lra. }
  destruct (Qeq_bool interval 0) eqn:Hb;
    [apply Qeq_bool_iff in Hb; contradiction |].
  split; [reflexivity |].
  pose proof (Qfloor_le (elapsed / interval)) as Hlo.
  pose proof (Qlt_floor (elapsed / interval)) as Hhi.
  rewrite inject_Z_plus in Hhi.
  assert (Hx : (interval * (elapsed / interval) == elapsed)%Q)
    by (now apply Qmult_div_r).
  set (f := inject_Z (Qfloor (elapsed / interval))) in *.
  assert (H1 : (interval * f <= interval * (elapsed / interval))%Q).
  { apply Qmult_le_l; assumption. }
  assert (H2 : (interval * (elapsed / interval) < interval * (f + inject_Z 1))%Q).
  { apply Qmult_lt_l; assumption. }
  rewrite Hx in H1, H2.
  change (inject_Z 1) with 1%Q in H2.
  split; lra.
Qed.

Lemma sleep_time_positive (elapsed : Q) :
  exists s,
    sleep_time interval elapsed = inr s /\
    s = max0 (interval - remainder elapsed)%Q /\
    (0 < s)%Q /\ (s <= interval)%Q /\
    (elapsed + s == interval * inject_Z (Qfloor (elapsed / interval) + 1))%Q.
Proof.
  destruct (py_mod_positive elapsed) as [Hm [Hlo Hhi]].
  unfold sleep_time. rewrite Hm. cbn [bind ret].
  eexists. split; [reflexivity |]. split; [reflexivity |].
  rewrite max0_positive by lra.
  repeat split; try lra.
  rewrite inject_Z_plus. change (inject_Z 1) with 1%Q. unfold remainder. ring.
Qed.

End PositiveInterval.

(** *** Order of file names *)

Lemma append_assoc (a b c : string) : (a ++ b) ++ c = a ++ (b ++ c).
Proof. induction a as [| x a IH]; simpl; [reflexivity | now rewrite IH]. Qed.

Lemma ascii_compare_refl (c : ascii) : Ascii.compare c c = Eq.
Proof. unfold Ascii.compare. apply N.compare_refl. Qed.

Lemma compare_refl (s : string) : String.compare s s = Eq.
Proof.
  induction s as [| c s IH]; simpl; [reflexivity |].
  now rewrite ascii_compare_refl.
Qed.

Lemma compare_app_same (p a b : string) :
  String.compare (p ++ a) (p ++ b) = String.compare a b.
Proof.
  induction p as [| c p IH]; simpl; [reflexivity |].
  now rewrite ascii_compare_refl.
Qed.

Lemma digit_char_compare (x y : nat) :
  (x < 10)%nat -> (y < 10)%nat ->
  Ascii.compare (digit_char x) (digit_char y) = Nat.compare x y.
Proof.
  intros Hx Hy.
  do 10 (destruct x as [| x]; [do 10 (destruct y as [| y]; [reflexivity |]); lia |]).
  lia.
Qed.

Lemma compare_split (p a b : nat) :
  (0 < p)%nat ->
  Nat.compare a b =
  match Nat.compare (a / p) (b / p) with
  | Eq => Nat.compare (a mod p) (b mod p)
  | c => c
  end.
Proof.
  intros Hp.
  pose proof (Nat.div_mod_eq a p) as Ha. pose proof (Nat.div_mod_eq b p) as Hb.
  pose proof (Nat.mod_upper_bound a p ltac:(lia)) as Ra.
  pose proof (Nat.mod_upper_bound b p ltac:(lia)) as Rb.
  destruct (Nat.compare_spec (a / p) (b / p)) as [Hq | Hq | Hq].
  - destruct (Nat.compare_spec (a mod p) (b mod p)) as [Hr | Hr | Hr].
    + apply Nat.compare_eq_iff. nia.
    + apply Nat.compare_lt_iff. nia.
    + apply Nat.compare_gt_iff. nia.
  - apply Nat.compare_lt_iff. nia.
  - apply Nat.compare_gt_iff. nia.
Qed.

Lemma pad_compare (w : nat) :
  forall (a b : nat) (s t : string),
    (a < 10 ^ w)%nat -> (b < 10 ^ w)%nat ->
    String.compare (pad w a ++ s) (pad w b ++ t) =
    match Nat.compare a b with
    | Eq => String.compare s t
    | c => c
    end.
Proof.
  induction w as [| w IH]; intros a b s t Ha Hb.
  - simpl in Ha, Hb. assert (a = 0%nat) by lia. assert (b = 0%nat) by lia.
    subst. reflexivity.
  - assert (Hp : (0 < 10 ^ w)%nat) by (apply Nat.neq_0_lt_0, Nat.pow_nonzero; lia).
    cbn [pad append String.compare].
    rewrite Nat.pow_succ_r' in Ha, Hb.
    rewrite digit_char_compare
      by (apply Nat.Div0.div_lt_upper_bound; lia).
    rewrite (compare_split (10 ^ w) a b Hp).
    destruct (Nat.compare (a / 10 ^ w) (b / 10 ^ w)); try reflexivity.
    apply IH; apply Nat.mod_upper_bound; lia.
Qed.

Lemma num_digits_upto_bound (fuel : nat) :
  forall n, (n <= fuel)%nat -> (n < 10 ^ num_digits_upto fuel n)%nat.
Proof.
  induction fuel as [| fuel IH]; intros n Hn.
  - simpl. lia.
  - cbn [num_digits_upto]. destruct (Nat.ltb_spec n 10) as [H | H].
    + simpl. lia.
    + rewrite Nat.pow_succ_r'.
      pose proof (Nat.div_mod_eq n 10) as Hd.
      pose proof (Nat.mod_upper_bound n 10 ltac:(lia)) as Hr.
      assert (Hq : (n / 10 <= fuel)%nat) by lia.
      specialize (IH (n / 10)%nat Hq). lia.
Qed.

Lemma num_digits_bound (n : nat) : (n < 10 ^ num_digits n)%nat.
Proof. apply num_digits_upto_bound. lia. Qed.

Lemma num_digits_upto_pos (fuel n : nat) : (1 <= num_digits_upto fuel n)%nat.
Proof.
  destruct fuel; cbn [num_digits_upto]; [lia |].
  destruct (n <? 10)%nat; lia.
Qed.

(** [decimal] writes no leading zero. *)
Lemma num_digits_upto_tight (fuel : nat) :
  forall n, (n <= fuel)%nat -> (0 < n)%nat ->
            (10 ^ (num_digits_upto fuel n - 1) <= n)%nat.
Proof.
  induction fuel as [| fuel IH]; intros n Hn Hpos.
  - lia.
  - cbn [num_digits_upto]. destruct (Nat.ltb_spec n 10) as [H | H].
    + simpl. lia.
    + pose proof (Nat.div_mod_eq n 10) as Hd.
      pose proof (Nat.mod_upper_bound n 10 ltac:(lia)) as Hr.
      assert (Hq : (n / 10 <= fuel)%nat) by lia.
      specialize (IH (n / 10)%nat Hq ltac:(lia)).
      replace (S (num_digits_upto fuel (n / 10)) - 1)%nat
        with (S (num_digits_upto fuel (n / 10) - 1))%nat.
      * rewrite Nat.pow_succ_r'. lia.
      * pose proof (num_digits_upto_pos fuel (n / 10)). lia.
Qed.

Lemma strftime_app (t : datetime) (rest : string) :
  strftime t ++ rest =
  pad 4 (year t) ++ pad 2 (month t) ++ pad 2 (day t) ++ "_" ++
  pad 2 (hour t) ++ pad 2 (minute t) ++ pad 2 (second t) ++ rest.
Proof. unfold strftime. now rewrite !append_assoc. Qed.

(** File names compare like captures as soon as the sequence numbers
    have as many digits, or the time stamps already differ. *)
Lemma file_name_compare (prefix format : string) (t1 t2 : datetime) (n1 n2 : nat) :
  valid_datetime t1 -> valid_datetime t2 ->
  stamp t1 <> stamp t2 \/ num_digits n1 = num_digits n2 ->
  String.compare (file_name prefix t1 n1 format) (file_name prefix t2 n2 format)
  = capture_compare t1 n1 t2 n2.
Proof.
  intros (Hy1 & Hm1 & Hd1 & HH1 & HM1 & HS1) (Hy2 & Hm2 & Hd2 & HH2 & HM2 & HS2) Hor.
  unfold file_name, capture_compare, stamp.
  rewrite compare_app_same. cbn [append String.compare].
  rewrite ascii_compare_refl.
  rewrite !strftime_app.
  cbn [app lex_compare].
  rewrite pad_compare by lia.
  destruct (Nat.compare_spec (year t1) (year t2)) as [Ey | |]; try reflexivity.
  rewrite pad_compare by (change (10 ^ 2)%nat with 100%nat; lia).
  destruct (Nat.compare_spec (month t1) (month t2)) as [Em | |]; try reflexivity.
  rewrite pad_compare by (change (10 ^ 2)%nat with 100%nat; lia).
  destruct (Nat.compare_spec (day t1) (day t2)) as [Ed | |]; try reflexivity.
  cbn [append String.compare]. rewrite ascii_compare_refl.
  rewrite pad_compare by (change (10 ^ 2)%nat with 100%nat; lia).
  destruct (Nat.compare_spec (hour t1) (hour t2)) as [EH | |]; try reflexivity.
  rewrite pad_compare by (change (10 ^ 2)%nat with 100%nat; lia).
  destruct (Nat.compare_spec (minute t1) (minute t2)) as [EM | |]; try reflexivity.
  rewrite pad_compare by (change (10 ^ 2)%nat with 100%nat; lia).
  destruct (Nat.compare_spec (second t1) (second t2)) as [ES | |]; try reflexivity.
  cbn [append String.compare]. rewrite ascii_compare_refl.
  destruct Hor as [Hne | Hdig].
  { exfalso. apply Hne. unfold stamp. congruence. }
  unfold decimal. rewrite Hdig.
  rewrite pad_compare.
  - rewrite compare_refl. now destruct (Nat.compare n1 n2).
  - rewrite <- Hdig. apply num_digits_bound.
  - apply num_digits_bound.
Qed.

(** *** The capture loops *)

(** The sleeps of a run, in order. *)
Fixpoint sleeps (o : list out) : list Q :=
  match o with
  | [] => []
  | Sleep q :: o' => q :: sleeps o'
  | _ :: o' => sleeps o'
  end.

(** The exceptions of the ticks that fail, in order. *)
Fixpoint failures (ticks : list tick) : list exn :=
  match ticks with
  | [] => []
  | t :: rest =>
      match tick_shot t with
      | ShotSaved => failures rest
      | ShotRaises e | SaveRaises e => e :: failures rest
      end
  end.

(** The path of the capture numbered [n] and taken at [now]. *)
Definition a_path (self : advanced) (now : datetime) (n : nat) : string :=
  Analyzer.path_join (a_output_dir self)
    (file_name (a_prefix self) now n (a_format self)).

(** The paths of the successful ticks when they are numbered from [n] on,
    each with the next number. *)
Definition numbered_paths (self : advanced) (n : nat) (ticks : list tick)
  : list string :=
  map (fun p => a_path self (tick_now (snd p)) (fst p))
      (combine (seq n (List.length (successes ticks))) (successes ticks)).

Lemma saved_paths_app (o1 o2 : list out) :
  saved_paths (o1 ++ o2) = (saved_paths o1 ++ saved_paths o2)%list.
Proof.
  induction o1 as [| x o1 IH]; simpl; [reflexivity |].
  destruct x; simpl; now rewrite ?IH.
Qed.

Lemma error_logs_app (o1 o2 : list out) :
  error_logs (o1 ++ o2) = (error_logs o1 ++ error_logs o2)%list.
Proof.
  induction o1 as [| x o1 IH]; simpl; [reflexivity |].
  destruct x as [| | tpl fields | | | |]; simpl; rewrite ?IH; try reflexivity.
  destruct fields as [| [v | e | q] [| h fields]]; simpl; now rewrite ?IH.
Qed.

Lemma sleeps_app (o1 o2 : list out) :
  sleeps (o1 ++ o2) = (sleeps o1 ++ sleeps o2)%list.
Proof.
  induction o1 as [| x o1 IH]; simpl; [reflexivity |].
  destruct x; simpl; now rewrite ?IH.
Qed.

(** Two objects that differ by their counter only. *)
Definition same_settings (a b : advanced) : Prop :=
  a_output_dir a = a_output_dir b /\ a_interval a = a_interval b /\
  a_format a = a_format b /\ a_prefix a = a_prefix b /\
  a_region a = a_region b /\ a_compress_level a = a_compress_level b.

Lemma a_path_same (a b : advanced) (now : datetime) (n : nat) :
  same_settings a b -> a_path a now n = a_path b now n.
Proof. intros (H1 & _ & H3 & H4 & _). unfold a_path. now rewrite H1, H3, H4. Qed.

Lemma numbered_paths_same (a b : advanced) (n : nat) (ticks : list tick) :
  same_settings a b -> numbered_paths a n ticks = numbered_paths b n ticks.
Proof.
  intros H. unfold numbered_paths. apply map_ext. intros p.
  now apply a_path_same.
Qed.

(** One capture of [AdvancedScreenshotTaker]: it never raises; a success
    saves the file numbered by the counter and adds one to the counter; a
    failure is logged and leaves the counter alone. *)
Lemma a_take_screenshot_cases (self : advanced) (now : datetime) (s : shot) :
  exists o self' p,
    a_take_screenshot self now s = (o, inr (self', p)) /\
    same_settings self' self /\
    match s with
    | ShotSaved =>
        self' = a_bump self /\ p = Some (a_path self now (a_counter self)) /\
        saved_paths o = [a_path self now (a_counter self)] /\
        error_logs o = [] /\ sleeps o = []
    | ShotRaises e | SaveRaises e =>
        self' = self /\ p = None /\ saved_paths o = [] /\
        error_logs o = [e] /\ sleeps o = []
    end.
Proof.
  destruct s as [| e | e]; do 3 eexists;
    (split; [reflexivity |]); (split; [repeat split |]); repeat split.
Qed.

Lemma a_run_loop_spec (start_time : Q) (ticks : list tick) :
  forall (self : advanced) (clock : Q),
    (0 < a_interval self)%Q ->
    exists o self' clock',
      a_run_loop start_time self clock ticks = (o, inr (self', clock')) /\
      same_settings self' self /\
      a_counter self' = (a_counter self + List.length (successes ticks))%nat /\
      saved_paths o = numbered_paths self (a_counter self) ticks /\
      error_logs o = failures ticks /\
      List.length (sleeps o) = List.length ticks /\
      Forall (fun s => (0 < s)%Q /\ (s <= a_interval self)%Q) (sleeps o) /\
      (ticks <> [] ->
       exists k : Z, (clock' - start_time == a_interval self * inject_Z k)%Q).
Proof.
  induction ticks as [| t rest IH]; intros self clock Hpos.
  - exists [], self, clock. repeat split; try reflexivity.
    + simpl. lia.
    + constructor.
    + congruence.
  - cbn [a_run_loop].
    destruct (a_take_screenshot_cases self (tick_now t) (tick_shot t))
      as (o1 & self1 & p & Htake & Hsame & Hcase).
    rewrite Htake.
    assert (Hint : a_interval self1 = a_interval self) by apply Hsame.
    assert (Hpos1 : (0 < a_interval self1)%Q) by now rewrite Hint.
    set (after := (clock + tick_latency t)%Q).
    destruct (sleep_time_positive (a_interval self1) Hpos1 (after - start_time))
      as (s & Hs & _ & Hs0 & Hs1 & Hgrid).
    destruct (IH self1 (after + s)%Q Hpos1)
      as (o2 & self2 & clock2 & Hrun & Hsame2 & Hcount & Hsaved & Hlogs
          & Hlen & Hall & Hrest).
    exists (o1 ++ (Sleep s :: o2))%list, self2, clock2.
    split.
    { cbn [io_bind]. fold after. rewrite Hs. cbn [lift io_bind emit].
      rewrite Hrun. cbn [app]. reflexivity. }
    split.
    { destruct Hsame2 as (A1 & A2 & A3 & A4 & A5 & A6).
      destruct Hsame as (B1 & B2 & B3 & B4 & B5 & B6).
      repeat split; congruence. }
    rewrite saved_paths_app, error_logs_app, sleeps_app. cbn [saved_paths error_logs sleeps].
    rewrite Hsaved, Hlogs, (numbered_paths_same self1 self _ _ Hsame).
    assert (Hgrid' : exists k : Z,
               (clock2 - start_time == a_interval self * inject_Z k)%Q).
    { destruct rest as [| t' rest'].
      - cbn in Hrun. injection Hrun as _ _ <-.
        exists (Qfloor ((after - start_time) / a_interval self1) + 1)%Z.
        rewrite <- Hint, <- Hgrid. ring.
      - destruct (Hrest ltac:(discriminate)) as [k Hk]. exists k.
        now rewrite <- Hint. }
    unfold numbered_paths. cbn [successes failures].
    destruct (tick_shot t) as [| e | e];
      destruct Hcase as (Hself1 & _ & Hsv & Hlg & Hsl);
      rewrite Hsv, Hlg, Hsl; cbn [app List.length];
      subst self1.
    + split; [rewrite Hcount; cbn [a_bump a_counter]; lia |].
      split; [reflexivity |].
      split; [reflexivity |].
      split; [now rewrite Hlen |].
      split; [| intros _; exact Hgrid'].
      constructor; [split; [exact Hs0 | now rewrite <- Hint] |].
      eapply Forall_impl; [| exact Hall]. cbv beta. intros q [? ?].
      split; [assumption | now rewrite <- Hint].
    + split; [exact Hcount |].
      split; [reflexivity |].
      split; [reflexivity |].
      split; [now rewrite Hlen |].
      split; [| intros _; exact Hgrid'].
      constructor; [split; assumption | exact Hall].
    + split; [exact Hcount |].
      split; [reflexivity |].
      split; [reflexivity |].
      split; [now rewrite Hlen |].
      split; [| intros _; exact Hgrid'].
      constructor; [split; assumption | exact Hall].
Qed.

(** The objects and the clock readings of the examples. *)
Definition march_7 (s : nat) : datetime :=
  {| year := 2025; month := 3; day := 7; hour := 9; minute := 5; second := s |}.

Definition basic_taker : taker :=
  {| output_dir := "screenshots"; interval := 10; counter := 0 |}.

Definition advanced_taker : advanced :=
  {| a_output_dir := "screenshots";
     a_interval := 10;
     a_format := "png";
     a_prefix := "screenshot";
     a_region := None;
     a_compress_level := 0;
     a_counter := 0 |}.

Definition valid_datetimeb (t : datetime) : bool :=
  ((10 ^ 3 <=? year t) && (year t <? 10 ^ 4) &&
   (1 <=? month t) && (month t <=? 12) && (1 <=? day t) && (day t <=? 31) &&
   (hour t <=? 23) && (minute t <=? 59) && (second t <=? 59))%nat.

Lemma valid_datetimeb_ok (t : datetime) :
  valid_datetimeb t = true -> valid_datetime t.
Proof.
  unfold valid_datetimeb, valid_datetime. rewrite !andb_true_iff.
  rewrite !Nat.leb_le, Nat.ltb_lt. tauto.
Defined.

(** C5, counterexample.  With an interval of 10 seconds and a capture that
    took 25 seconds, the computed sleep is 5 seconds, not zero: the loop
    waits for the next multiple of the interval. *)
Lemma late_capture_still_sleeps :
  sleep_time 10 25 = inr 5%Q /\
  sleeps (output (a_run_loop 0 advanced_taker 0
                    [{| tick_now := march_7 0; tick_shot := ShotSaved;
                        tick_latency := 25 |}])) = [5%Q] /\
  (0 < 5)%Q.
Proof. repeat split; vm_compute; reflexivity. Qed.

(** C5, amended.  In the drift-corrected loop the sleep after a capture is
    [max(0, interval - (elapsed mod interval))], with [elapsed] measured from
    the fixed start time, and it is never negative.  For a positive interval
    the sleep is never zero either: it lies in (0, interval] and ends exactly
    at the next multiple of the interval after the start, also when the
    capture took longer than the interval (the missed multiples are skipped,
    the loop does not run back to back).  So every iteration of a run ends on
    the grid of multiples of the interval, whatever the latencies: they do
    not accumulate. *)
Theorem sleep_realigns_with_the_interval (interval : Q) :
  (0 < interval)%Q ->
  (forall elapsed,
      exists m s,
        py_mod elapsed interval = inr m /\
        sleep_time interval elapsed = inr s /\
        s = max0 (interval - m)%Q /\
        (0 < s)%Q /\ (s <= interval)%Q /\
        (elapsed + s == interval * inject_Z (Qfloor (elapsed / interval) + 1))%Q) /\
  (forall start_time self clock ticks,
      a_interval self = interval ->
      exists o self' clock',
        a_run_loop start_time self clock ticks = (o, inr (self', clock')) /\
        List.length (sleeps o) = List.length ticks /\
        Forall (fun s => (0 < s)%Q /\ (s <= interval)%Q) (sleeps o) /\
        (ticks <> [] ->
         exists k : Z, (clock' - start_time == interval * inject_Z k)%Q)) /\
  (forall any_interval elapsed s,
      sleep_time any_interval elapsed = inr s -> (0 <= s)%Q).
Proof.
  intros Hpos. repeat split.
  - intros elapsed.
    destruct (py_mod_positive interval Hpos elapsed) as [Hm _].
    destruct (sleep_time_positive interval Hpos elapsed)
      as (s & Hs & Hmax & Hs0 & Hs1 & Hgrid).
    exists (elapsed - interval * inject_Z (Qfloor (elapsed / interval)))%Q, s.
    repeat split; assumption.
  - intros start_time self clock ticks <-.
    destruct (a_run_loop_spec start_time ticks self clock Hpos)
      as (o & self' & clock' & Hrun & _ & _ & _ & _ & Hlen & Hall & Hgrid).
    exists o, self', clock'. repeat split; assumption.
  - intros any_interval elapsed s. unfold sleep_time.
    destruct (py_mod elapsed any_interval) as [e | m]; cbn [bind ret];
      [discriminate |].
    intros [= <-]. apply max0_nonneg.
Qed.

Lemma sleep_realigns_with_the_interval_witness :
  exists m s,
    py_mod 25 10 = inr m /\
    sleep_time 10 25 = inr s /\
    s = max0 (10 - m)%Q /\
    (0 < s)%Q /\ (s <= 10)%Q /\
    (25 + s == 10 * inject_Z (Qfloor (25 / 10) + 1))%Q.
Proof.
  exact (proj1 (sleep_realigns_with_the_interval 10%Q eq_refl) 25%Q).
Defined.

(** *** Sequence numbers *)

(** X2.  In [AdvancedScreenshotTaker.run], for every sequence of ticks: the loop
    goes through all of them (one sleep per tick, no exception); every
    failure is logged, in order; the counter grows by the number of
    successful captures; and the files saved are those of the successful
    ticks, numbered from the initial counter on without a gap. *)
Lemma advanced_run_numbers_captures (self : advanced) (start_time clock : Q)
  (ticks : list tick) :
  (0 < a_interval self)%Q ->
  exists o self' clock',
    a_run_loop start_time self clock ticks = (o, inr (self', clock')) /\
    List.length (sleeps o) = List.length ticks /\
    error_logs o = failures ticks /\
    a_counter self' = (a_counter self + List.length (successes ticks))%nat /\
    saved_paths o =
    map (fun p => a_path self (tick_now (snd p)) (fst p))
        (combine (seq (a_counter self) (List.length (successes ticks)))
                 (successes ticks)).
Proof.
  intros Hpos.
  destruct (a_run_loop_spec start_time ticks self clock Hpos)
    as (o & self' & clock' & Hrun & _ & Hcount & Hsaved & Hlogs & Hlen & _).
  exists o, self', clock'. repeat split; assumption.
Qed.

Lemma advanced_run_numbers_captures_witness :
  exists o self' clock',
    a_run_loop 0 advanced_taker 0
      [{| tick_now := march_7 0; tick_shot := ShotSaved; tick_latency := 1 |};
       {| tick_now := march_7 10;
          tick_shot := ShotRaises (ExternalError "screen grab failed");
          tick_latency := 1 |};
       {| tick_now := march_7 20; tick_shot := ShotSaved; tick_latency := 1 |}]
    = (o, inr (self', clock')) /\
    List.length (sleeps o) = 3%nat /\
    error_logs o = [ExternalError "screen grab failed"] /\
    a_counter self' = 2%nat /\
    saved_paths o =
    [a_path advanced_taker (march_7 0) 0; a_path advanced_taker (march_7 20) 1].
Proof.
  exact (advanced_run_numbers_captures advanced_taker 0%Q 0%Q
           [{| tick_now := march_7 0; tick_shot := ShotSaved;
               tick_latency := 1 |};
            {| tick_now := march_7 10;
               tick_shot := ShotRaises (ExternalError "screen grab failed");
               tick_latency := 1 |};
            {| tick_now := march_7 20; tick_shot := ShotSaved;
               tick_latency := 1 |}] eq_refl).
Defined.

(** In [ScreenshotTaker], a capture that succeeds uses the counter as its
    number and adds one to it; a capture that fails raises, and the counter
    is as before. *)
Lemma take_screenshot_cases (self : taker) (now : datetime) (s : shot) :
  match s with
  | ShotSaved =>
      exists o,
        take_screenshot self now s =
        (o, inr (bump self,
                 Analyzer.path_join (output_dir self)
                   (file_name "screenshot" now (counter self) "png"))) /\
        saved_paths o =
        [Analyzer.path_join (output_dir self)
           (file_name "screenshot" now (counter self) "png")]
  | ShotRaises e | SaveRaises e =>
      exists o, take_screenshot self now s = (o, inl e) /\ saved_paths o = []
  end.
Proof. destruct s; eexists; split; reflexivity. Qed.

(** *** One file per capture *)

Lemma append_length (a b : string) :
  String.length (a ++ b) = (String.length a + String.length b)%nat.
Proof. induction a as [| c a IH]; simpl; [reflexivity | now rewrite IH]. Qed.

Lemma append_inj_l (p a b : string) : p ++ a = p ++ b -> a = b.
Proof. induction p as [| c p IH]; simpl; [auto | intros [= H]; auto]. Qed.

(** Two texts that start with pieces of the same length have the same
    pieces. *)
Lemma append_inj_length (a b x y : string) :
  String.length a = String.length b -> a ++ x = b ++ y -> a = b /\ x = y.
Proof.
  revert b. induction a as [| c a IH]; intros [| d b]; simpl;
    try discriminate.
  - auto.
  - intros [= Hlen] [= -> H]. destruct (IH b Hlen H) as [-> ->]. auto.
Qed.

Lemma append_inj_r (a b s : string) : a ++ s = b ++ s -> a = b.
Proof.
  intros H. apply (append_inj_length a b s s); [| exact H].
  apply (f_equal String.length) in H. rewrite !append_length in H. lia.
Qed.

Lemma pad_length (w n : nat) : String.length (pad w n) = w.
Proof.
  revert n. induction w as [| w IH]; intros n; simpl; [reflexivity |].
  now rewrite IH.
Qed.

Lemma strftime_length (t : datetime) : String.length (strftime t) = 15%nat.
Proof. unfold strftime. rewrite !append_length, !pad_length. reflexivity. Qed.

Lemma decimal_inj (n m : nat) : decimal n = decimal m -> n = m.
Proof.
  unfold decimal. intros H.
  assert (Hw : num_digits n = num_digits m).
  { apply (f_equal String.length) in H. now rewrite !pad_length in H. }
  pose proof (num_digits_bound n) as Hn. pose proof (num_digits_bound m) as Hm.
  rewrite Hw in H, Hn.
  pose proof (pad_compare (num_digits m) n m "" "" Hn Hm) as Hc.
  rewrite H, compare_refl in Hc.
  destruct (Nat.compare_spec n m) as [E | _ | _];
    [exact E | discriminate | discriminate].
Qed.

(** The sequence number can be read off a file name, whatever the clock
    said. *)
Lemma file_name_inj (prefix format : string) (t1 t2 : datetime) (n1 n2 : nat) :
  file_name prefix t1 n1 format = file_name prefix t2 n2 format -> n1 = n2.
Proof.
  unfold file_name. intros H.
  apply append_inj_l, (append_inj_l "_") in H.
  apply append_inj_length in H; [| now rewrite !strftime_length].
  destruct H as [_ H]. apply (append_inj_l "_") in H.
  apply decimal_inj, (append_inj_r _ _ ("." ++ format)), H.
Qed.

Lemma path_join_inj (directory a b : string) :
  Analyzer.path_join directory a = Analyzer.path_join directory b -> a = b.
Proof.
  unfold Analyzer.path_join.
  destruct (String.eqb directory ""); [auto |].
  destruct (String.eqb _ "/"); intros H; apply append_inj_l in H; [exact H |].
  now apply (append_inj_l "/") in H.
Qed.

(** Files numbered with different numbers are different files. *)
Lemma numbered_NoDup (A : Type) (path : nat -> A -> string) (n : nat)
  (l : list A) :
  (forall i j x y, path i x = path j y -> i = j) ->
  NoDup (map (fun p => path (fst p) (snd p)) (combine (seq n (List.length l)) l)).
Proof.
  intros Hinj. revert n. induction l as [| x l IH]; intros n;
    cbn [List.length seq combine map]; constructor; [| apply IH].
  intros Hin. apply in_map_iff in Hin. destruct Hin as ([j y] & Heq & Hin).
  cbn [fst snd] in Heq. apply Hinj in Heq. subst j.
  apply in_combine_l, in_seq in Hin. lia.
Qed.

(** X8.  A run of [AdvancedScreenshotTaker] writes every screenshot to a
    file of its own: no two captures of the run are saved under the same
    path, whatever the clock readings and the failures in between. *)
Lemma advanced_run_never_overwrites (self : advanced) (start_time clock : Q)
  (ticks : list tick) :
  (0 < a_interval self)%Q ->
  exists o self' clock',
    a_run_loop start_time self clock ticks = (o, inr (self', clock')) /\
    List.length (saved_paths o) = List.length (successes ticks) /\
    NoDup (saved_paths o).
Proof.
  intros Hpos.
  destruct (a_run_loop_spec start_time ticks self clock Hpos)
    as (o & self' & clock' & Hrun & _ & _ & Hsaved & _).
  exists o, self', clock'. split; [exact Hrun |]. rewrite Hsaved.
  unfold numbered_paths. split.
  - rewrite length_map, length_combine, length_seq. lia.
  - apply (numbered_NoDup tick (fun i t => a_path self (tick_now t) i)).
    intros i j x y H. unfold a_path in H.
    apply path_join_inj, file_name_inj in H. exact H.
Qed.

Lemma advanced_run_never_overwrites_witness :
  exists o self' clock',
    a_run_loop 0 advanced_taker 0
      [{| tick_now := march_7 0; tick_shot := ShotSaved; tick_latency := 1 |};
       {| tick_now := march_7 0; tick_shot := ShotSaved; tick_latency := 12 |}]
    = (o, inr (self', clock')) /\
    List.length (saved_paths o) = 2%nat /\
    NoDup (saved_paths o).
Proof.
  exact (advanced_run_never_overwrites advanced_taker 0%Q 0%Q
           [{| tick_now := march_7 0; tick_shot := ShotSaved;
               tick_latency := 1 |};
            {| tick_now := march_7 0; tick_shot := ShotSaved;
               tick_latency := 12 |}] eq_refl).
Defined.


(** *** The loop of [ScreenshotTaker.run] *)

(** The ticks before the first one that fails. *)
Fixpoint before_failure (ticks : list tick) : list tick :=
  match ticks with
  | [] => []
  | t :: rest =>
      match tick_shot t with
      | ShotSaved => t :: before_failure rest
      | _ => []
      end
  end.

(** The exception of the first tick that fails. *)
Fixpoint first_failure (ticks : list tick) : option exn :=
  match ticks with
  | [] => None
  | t :: rest =>
      match tick_shot t with
      | ShotSaved => first_failure rest
      | ShotRaises e | SaveRaises e => Some e
      end
  end.

Definition path (self : taker) (now : datetime) (n : nat) : string :=
  Analyzer.path_join (output_dir self) (file_name "screenshot" now n "png").

Definition is_total_line (o : out) : bool :=
  match o with
  | Print template _ => String.eqb template "Total screenshots taken: {}"
  | _ => false
  end.

(** One capture of [ScreenshotTaker], with all that it writes. *)
Lemma take_screenshot_eq (self : taker) (now : datetime) (s : shot) :
  take_screenshot self now s =
  match s with
  | ShotSaved =>
      ([Screenshot None; Save (path self now (counter self)) None;
        Print "Screenshot #{} saved: {}"
          [Val (PInt (Z.of_nat (S (counter self))));
           Val (PStr (file_name "screenshot" now (counter self) "png"))]],
       inr (bump self, path self now (counter self)))
  | ShotRaises e => ([], inl e)
  | SaveRaises e => ([Screenshot None], inl e)
  end.
Proof. destruct s; reflexivity. Qed.

Lemma run_loop_cons (self : taker) (t : tick) (rest : list tick) :
  run_loop self (t :: rest) =
  match tick_shot t with
  | ShotSaved =>
      ((fst (take_screenshot self (tick_now t) ShotSaved) ++
        Sleep (interval self) :: fst (run_loop (bump self) rest))%list,
       snd (run_loop (bump self) rest))
  | ShotRaises e => ([], inl e)
  | SaveRaises e => ([Screenshot None], inl e)
  end.
Proof.
  cbn [run_loop]. rewrite take_screenshot_eq.
  destruct (tick_shot t) as [| e | e]; [| reflexivity | reflexivity].
  rewrite take_screenshot_eq. cbn [io_bind emit fst snd bump interval].
  destruct (run_loop (bump self) rest) as [o2 r]. reflexivity.
Qed.

Lemma run_loop_spec (ticks : list tick) :
  forall self : taker,
    saved_paths (output (run_loop self ticks)) =
    map (fun p => path self (tick_now (snd p)) (fst p))
        (combine (seq (counter self) (List.length (before_failure ticks)))
                 (before_failure ticks)) /\
    sleeps (output (run_loop self ticks)) =
    repeat (interval self) (List.length (before_failure ticks)) /\
    existsb is_total_line (output (run_loop self ticks)) = false /\
    match first_failure ticks with
    | None =>
        outcome (run_loop self ticks) =
        inr {| output_dir := output_dir self;
               interval := interval self;
               counter := counter self + List.length ticks |}
    | Some e => outcome (run_loop self ticks) = inl e
    end.
Proof.
  induction ticks as [| t rest IH]; intros self.
  - cbn [run_loop before_failure first_failure List.length seq combine map
         repeat output outcome io_ret fst snd saved_paths sleeps existsb].
    repeat split. rewrite Nat.add_0_r. now destruct self.
  - rewrite run_loop_cons. cbn [before_failure first_failure].
    destruct (tick_shot t) as [| e | e].
    + destruct (IH (bump self)) as (Hsaved & Hsleeps & Htot & Hend).
      unfold output, outcome in *. cbn [fst snd].
      rewrite take_screenshot_eq. cbn [fst].
      rewrite saved_paths_app, sleeps_app, existsb_app.
      cbn [saved_paths sleeps existsb is_total_line String.eqb Ascii.eqb
           Bool.eqb orb app List.length seq combine map repeat fst snd
           tick_now].
      rewrite Hsaved, Hsleeps, Htot.
      cbn [bump output_dir interval counter path].
      split; [reflexivity |]. split; [reflexivity |].
      split; [reflexivity |].
      destruct (first_failure rest); [exact Hend |].
      rewrite Hend. cbn [bump output_dir interval counter List.length].
      now rewrite Nat.add_succ_r.
    + repeat split.
    + repeat split.
Qed.

(** X9.  [ScreenshotTaker.run] with a non-negative interval saves one file
    per tick, numbered from the counter on, and sleeps for the interval after
    each, up to the first tick whose capture or save raises.  That exception
    ends [run]: nothing more is saved and the closing total is not printed.
    When no tick fails, [run] ends with the counter raised by the number of
    ticks and prints it as the total. *)
Lemma basic_run_stops_at_the_first_failure (self : taker) (ticks : list tick) :
  (0 <= interval self)%Q ->
  saved_paths (output (run self ticks)) =
  map (fun p => path self (tick_now (snd p)) (fst p))
      (combine (seq (counter self) (List.length (before_failure ticks)))
               (before_failure ticks)) /\
  NoDup (saved_paths (output (run self ticks))) /\
  sleeps (output (run self ticks)) =
  repeat (interval self) (List.length (before_failure ticks)) /\
  match first_failure ticks with
  | None =>
      outcome (run self ticks) =
      inr {| output_dir := output_dir self;
             interval := interval self;
             counter := counter self + List.length ticks |} /\
      last (output (run self ticks)) (Sleep 0) =
      Print "Total screenshots taken: {}"
        [Val (PInt (Z.of_nat (counter self + List.length ticks)))]
  | Some e =>
      outcome (run self ticks) = inl e /\
      existsb is_total_line (output (run self ticks)) = false
  end.
Proof.
  intros _.
  destruct (run_loop_spec ticks self) as (Hsaved & Hsleeps & Htot & Hend).
  assert (Hsv : saved_paths (output (run self ticks)) =
                saved_paths (output (run_loop self ticks)) /\
                sleeps (output (run self ticks)) =
                sleeps (output (run_loop self ticks))).
  { unfold run, output.
    destruct (run_loop self ticks) as [o [e | self']];
      cbn [io_bind emit io_ret fst snd app saved_paths sleeps];
      [split; reflexivity |].
    rewrite saved_paths_app, sleeps_app. cbn [saved_paths sleeps].
    now rewrite !app_nil_r. }
  destruct Hsv as [Hsv Hsl]. rewrite Hsv, Hsl, Hsaved, Hsleeps.
  split; [reflexivity |]. split.
  { apply (numbered_NoDup tick (fun i t => path self (tick_now t) i)).
    intros i j x y H. unfold path in H.
    apply path_join_inj, file_name_inj in H. exact H. }
  split; [reflexivity |].
  unfold run, output, outcome in *.
  destruct (run_loop self ticks) as [o r]. cbn [fst snd] in *.
  destruct (first_failure ticks) as [e |]; subst r;
    cbn [io_bind emit io_ret fst snd app].
  - split; [reflexivity |].
    cbn [existsb is_total_line String.eqb Ascii.eqb Bool.eqb orb].
    exact Htot.
  - split; [reflexivity |]. cbn [counter].
    assert (Hlast : forall (l : list out) (x y d : out),
               last (l ++ [x; y]) d = y).
    { induction l as [| a l IHl]; intros x y d; [reflexivity |].
      cbn [app]. rewrite <- (IHl x y d) at 2. cbn [last].
      destruct (l ++ [x; y])%list eqn:E; [| reflexivity].
      destruct l; discriminate. }
    exact (Hlast (_ :: _ :: o) _ _ _).
Qed.

Lemma basic_run_stops_at_the_first_failure_witness :
  saved_paths
    (output
       (run basic_taker
          [{| tick_now := march_7 0; tick_shot := ShotSaved;
              tick_latency := 1 |};
           {| tick_now := march_7 10;
              tick_shot := ShotRaises (ExternalError "screen grab failed");
              tick_latency := 1 |};
           {| tick_now := march_7 20; tick_shot := ShotSaved;
              tick_latency := 1 |}])) =
  [path basic_taker (march_7 0) (counter basic_taker)] /\
  NoDup
    (saved_paths
       (output
          (run basic_taker
             [{| tick_now := march_7 0; tick_shot := ShotSaved;
                 tick_latency := 1 |};
              {| tick_now := march_7 10;
                 tick_shot := ShotRaises (ExternalError "screen grab failed");
                 tick_latency := 1 |};
              {| tick_now := march_7 20; tick_shot := ShotSaved;
                 tick_latency := 1 |}]))) /\
  sleeps
    (output
       (run basic_taker
          [{| tick_now := march_7 0; tick_shot := ShotSaved;
              tick_latency := 1 |};
           {| tick_now := march_7 10;
              tick_shot := ShotRaises (ExternalError "screen grab failed");
              tick_latency := 1 |};
           {| tick_now := march_7 20; tick_shot := ShotSaved;
              tick_latency := 1 |}])) = [interval basic_taker] /\
  outcome
    (run basic_taker
       [{| tick_now := march_7 0; tick_shot := ShotSaved;
           tick_latency := 1 |};
        {| tick_now := march_7 10;
           tick_shot := ShotRaises (ExternalError "screen grab failed");
           tick_latency := 1 |};
        {| tick_now := march_7 20; tick_shot := ShotSaved;
           tick_latency := 1 |}]) = inl (ExternalError "screen grab failed") /\
  existsb is_total_line
    (output
       (run basic_taker
          [{| tick_now := march_7 0; tick_shot := ShotSaved;
              tick_latency := 1 |};
           {| tick_now := march_7 10;
              tick_shot := ShotRaises (ExternalError "screen grab failed");
              tick_latency := 1 |};
           {| tick_now := march_7 20; tick_shot := ShotSaved;
              tick_latency := 1 |}])) = false.
Proof.
  apply (basic_run_stops_at_the_first_failure basic_taker
           [{| tick_now := march_7 0; tick_shot := ShotSaved;
               tick_latency := 1 |};
            {| tick_now := march_7 10;
               tick_shot := ShotRaises (ExternalError "screen grab failed");
               tick_latency := 1 |};
            {| tick_now := march_7 20; tick_shot := ShotSaved;
               tick_latency := 1 |}]).
  vm_compute. discriminate.
Defined.

(** *** Sorting the directory *)

Lemma sorted_pair (a b : string) :
  String.compare a b = Lt ->
  Analyzer.sorted [a; b] = [a; b] /\ Analyzer.sorted [b; a] = [a; b].
Proof.
  intros H. unfold Analyzer.sorted. cbn [fold_right Analyzer.insert_sorted].
  unfold String.leb. rewrite (String.compare_antisym b a), H.
  split; reflexivity.
Qed.

(** C10, counterexample.  The ninth and the tenth capture of one second:
    the tenth was taken later, its name sorts first, and the sorted listing
    gives it first. *)
Lemma tenth_capture_sorts_before_ninth :
  capture_compare (march_7 0) 9 (march_7 0) 10 = Lt /\
  String.compare (file_name "screenshot" (march_7 0) 9 "png")
                 (file_name "screenshot" (march_7 0) 10 "png") = Gt /\
  Analyzer.get_screenshots "screenshots"
    [file_name "screenshot" (march_7 0) 9 "png";
     file_name "screenshot" (march_7 0) 10 "png"] =
  ["screenshots/screenshot_20250307_090500_10.png";
   "screenshots/screenshot_20250307_090500_9.png"].
Proof. repeat split; vm_compute; reflexivity. Qed.

(** C10, amended.  For two captures of one taker (same prefix and
    extension), at valid times with a year of four digits, whose time stamps
    differ or whose sequence numbers have the same number of digits, the
    lexicographic order of the file names is the capture order (time stamp,
    then sequence number); sorting the two names then lists them in capture
    order.  (The sequence number is not padded, so within one second 10 sorts
    before 9.) *)
Theorem file_names_sort_in_capture_order
  (prefix format : string) (t1 t2 : datetime) (n1 n2 : nat) :
  valid_datetime t1 -> valid_datetime t2 ->
  stamp t1 <> stamp t2 \/ num_digits n1 = num_digits n2 ->
  String.compare (file_name prefix t1 n1 format) (file_name prefix t2 n2 format)
  = capture_compare t1 n1 t2 n2 /\
  (capture_compare t1 n1 t2 n2 = Lt ->
   Analyzer.sorted [file_name prefix t1 n1 format; file_name prefix t2 n2 format]
   = [file_name prefix t1 n1 format; file_name prefix t2 n2 format] /\
   Analyzer.sorted [file_name prefix t2 n2 format; file_name prefix t1 n1 format]
   = [file_name prefix t1 n1 format; file_name prefix t2 n2 format]).
Proof.
  intros H1 H2 Hor.
  pose proof (file_name_compare prefix format t1 t2 n1 n2 H1 H2 Hor) as Hc.
  split; [exact Hc |].
  intros Hlt. apply sorted_pair. now rewrite Hc.
Qed.

Lemma file_names_sort_in_capture_order_witness :
  String.compare (file_name "screenshot" (march_7 0) 9 "png")
                 (file_name "screenshot" (march_7 1) 10 "png")
  = capture_compare (march_7 0) 9 (march_7 1) 10 /\
  (capture_compare (march_7 0) 9 (march_7 1) 10 = Lt ->
   Analyzer.sorted [file_name "screenshot" (march_7 0) 9 "png";
                    file_name "screenshot" (march_7 1) 10 "png"]
   = [file_name "screenshot" (march_7 0) 9 "png";
      file_name "screenshot" (march_7 1) 10 "png"] /\
   Analyzer.sorted [file_name "screenshot" (march_7 1) 10 "png";
                    file_name "screenshot" (march_7 0) 9 "png"]
   = [file_name "screenshot" (march_7 0) 9 "png";
      file_name "screenshot" (march_7 1) 10 "png"]).
Proof.
  apply (file_names_sort_in_capture_order "screenshot" "png"
           (march_7 0) (march_7 1) 9 10).
  - apply valid_datetimeb_ok. reflexivity.
  - apply valid_datetimeb_ok. reflexivity.
  - left. discriminate.
Defined.

End CaptureFacts.

(** ** Properties of the coordinator *)
Module CoordinatorFacts.
Import Py Analyzer Capture Coordinator.

Local Open Scope string_scope.

Definition stop_message : out := Print "\nStopping all processes..." [].

(** The handler, from the signal to the exit, with nothing in between. *)
Definition shutdown : list event := [Sigint; HandlerStep; HandlerStep].

(** What the collaborators give in the examples: a quota error for the
    first image, a payload whose item has no calories for the second, prose
    for the third. *)
Definition service_of_the_example (screenshot : string) : reply :=
  if String.eqb screenshot "screenshots/a.png"
  then ReplyRaises (ExternalError "quota exceeded")
  else if String.eqb screenshot "screenshots/b.png"
       then ReplyText AnalyzerFacts.soup_reply
       else ReplyText "I see no food here.".

Definition failing_tick : tick :=
  {| tick_now := CaptureFacts.march_7 10;
     tick_shot := ShotRaises (ExternalError "screen grab failed");
     tick_latency := 0 |}.

Definition good_tick (s : nat) : tick :=
  {| tick_now := CaptureFacts.march_7 s; tick_shot := ShotSaved;
     tick_latency := 0 |}.

(** The five kinds of step: one of the capture thread, one of the analysis
    thread, and the three statements of the handler. *)
Lemma step_shape (ev : event) (s s' : state) :
  step ev s = Some s' ->
  (exists t pc o, s' = set_capture s t pc o) \/
  (exists pc o, s' = set_analysis s pc o) \/
  (ev = Sigint /\ main_thread s = MainLoop /\
   s' = set_main s (stop_event s) HandlerPrinted [stop_message]) \/
  (ev = HandlerStep /\ main_thread s = HandlerPrinted /\
   s' = set_main s true HandlerSet []) \/
  (ev = HandlerStep /\ main_thread s = HandlerSet /\
   s' = set_main s (stop_event s) (Exited 0) []).
Proof.
  unfold step. intros H.
  assert (Hcap : forall now sh,
             match capture_thread s with
             | CapTop =>
                 if stop_event s
                 then Some (set_capture s (screenshot_taker s) CapReturned [])
                 else
                   match take_screenshot (screenshot_taker s) now sh with
                   | (o, inr (t, _)) => Some (set_capture s t CapWaiting o)
                   | (o, inl e) =>
                       Some (set_capture s (screenshot_taker s) (CapDied e) o)
                   end
             | _ => None
             end = Some s' ->
             exists t pc o, s' = set_capture s t pc o).
  { intros now sh. destruct (capture_thread s); try discriminate.
    destruct (stop_event s); [intros [= <-]; eauto |].
    destruct (take_screenshot (screenshot_taker s) now sh) as [o [e | [t p]]];
      intros [= <-]; eauto. }
  assert (Hwake : match capture_thread s with
                  | CapWaiting =>
                      Some (set_capture s (screenshot_taker s) CapTop [])
                  | _ => None
                  end = Some s' ->
                  exists t pc o, s' = set_capture s t pc o).
  { destruct (capture_thread s); try discriminate. intros [= <-]; eauto. }
  assert (Han : forall listing service,
             match analysis_thread s with
             | AnTop =>
                 if stop_event s
                 then Some (set_analysis s AnReturned [])
                 else
                   match analysis_pass (output_dir (screenshot_taker s))
                           listing service with
                   | (o, inr _) => Some (set_analysis s AnWaiting o)
                   | (o, inl e) => Some (set_analysis s (AnDied e) o)
                   end
             | _ => None
             end = Some s' ->
             exists pc o, s' = set_analysis s pc o).
  { intros listing service. destruct (analysis_thread s); try discriminate.
    destruct (stop_event s); [intros [= <-]; eauto |].
    destruct (analysis_pass _ listing service) as [o [e | u]];
      intros [= <-]; eauto. }
  assert (Hanw : match analysis_thread s with
                 | AnFirstWait =>
                     Some (set_analysis s
                             (if stop_event s then AnReturned else AnTop) [])
                 | AnWaiting => Some (set_analysis s AnTop [])
                 | _ => None
                 end = Some s' ->
                 exists pc o, s' = set_analysis s pc o).
  { destruct (analysis_thread s); try discriminate; intros [= <-]; eauto. }
  destruct (main_thread s) eqn:Hm; destruct ev; try discriminate;
    try (left; eapply Hcap; exact H);
    try (left; apply Hwake; exact H);
    try (right; left; eapply Han; exact H);
    try (right; left; apply Hanw; exact H);
    injection H as <-.
  - right; right; left. repeat split.
  - right; right; right; left. repeat split.
  - right; right; right; right. repeat split.
Qed.

(** No step changes the event once it is set. *)
Lemma step_keeps_stop (ev : event) (s s' : state) :
  step ev s = Some s' -> stop_event s = true -> stop_event s' = true.
Proof.
  intros H Hstop.
  destruct (step_shape ev s s' H)
    as [(t & pc & o & ->) | [(pc & o & ->) | [(_ & _ & ->) | [(_ & _ & ->)
       | (_ & _ & ->)]]]];
    cbn; congruence.
Qed.

(** The exit is the handler's last statement, it follows [stop_event.set()],
    its code is 0, and it looks at neither thread and prints nothing. *)
Lemma step_to_exit (ev : event) (s s' : state) (code : Z) :
  step ev s = Some s' ->
  main_thread s' = Exited code ->
  ev = HandlerStep /\ main_thread s = HandlerSet /\ code = 0%Z /\
  s' = set_main s (stop_event s) (Exited 0) [].
Proof.
  intros H Hexit.
  assert (Halive : forall c, main_thread s <> Exited c).
  { intros c Hc. unfold step in H. rewrite Hc in H. discriminate. }
  destruct (step_shape ev s s' H)
    as [(t & pc & o & ->) | [(pc & o & ->) | [(_ & _ & ->) | [(_ & _ & ->)
       | (-> & Hm & ->)]]]];
    cbn in Hexit; try discriminate; try (now apply Halive in Hexit).
  injection Hexit as <-. repeat split. exact Hm.
Qed.

Lemma step_to_handler_set (ev : event) (s s' : state) :
  step ev s = Some s' ->
  stop_event s = true \/ main_thread s <> HandlerSet ->
  main_thread s' = HandlerSet ->
  stop_event s' = true.
Proof.
  intros H Hor Hset.
  destruct (step_shape ev s s' H)
    as [(t & pc & o & ->) | [(pc & o & ->) | [(_ & _ & ->) | [(_ & _ & ->)
       | (_ & _ & ->)]]]];
    cbn in Hset |- *; try discriminate; try reflexivity;
    destruct Hor as [Hs | Hn]; congruence.
Qed.

(** While the handler is between [stop_event.set()] and [sys.exit(0)], and
    after the exit, the event is set. *)
Definition stop_is_set (s : state) : Prop :=
  match main_thread s with
  | HandlerSet | Exited _ => stop_event s = true
  | _ => True
  end.

Lemma step_stop_is_set (ev : event) (s s' : state) :
  step ev s = Some s' -> stop_is_set s -> stop_is_set s'.
Proof.
  intros H Hinv. unfold stop_is_set in *.
  destruct (main_thread s') eqn:Hm'; try exact I.
  - apply (step_to_handler_set ev s s' H); [| exact Hm'].
    destruct (main_thread s); try (right; discriminate). now left.
  - destruct (step_to_exit ev s s' code H Hm') as (_ & Hm & _ & _).
    rewrite Hm in Hinv. exact (step_keeps_stop ev s s' H Hinv).
Qed.

Lemma steps_stop_is_set (evs : list event) :
  forall s s', steps evs s = Some s' -> stop_is_set s -> stop_is_set s'.
Proof.
  induction evs as [| ev evs IH]; intros s s'; cbn [steps].
  - now intros [= <-].
  - destruct (step ev s) as [s1 |] eqn:H1; [| discriminate].
    intros Hrest Hinv. apply (IH s1 s' Hrest).
    exact (step_stop_is_set ev s s1 H1 Hinv).
Qed.

(** C9, counterexample.  A stop signal right after the start: the
    coordinator is [Stopped] while neither unit has returned (the capture
    thread was about to take a screenshot, the analysis thread was in its
    first wait), and the console holds the start-up lines and the stop
    message, no count. *)
Lemma stopped_before_the_units_return :
  exists s,
    steps shutdown (start "screenshots" 10 60) = Some s /\
    phase_of s = Stopped /\
    capture_thread s = CapTop /\
    analysis_thread s = AnFirstWait /\
    ~ units_returned s /\
    console s = (console (start "screenshots" 10 60) ++ [stop_message])%list.
Proof.
  eexists. split; [reflexivity |]. repeat split.
  intros [H _]. discriminate H.
Qed.

(** C9, amended.  When the stop signal arrives while the coordinator is
    running, the handler prints its stop message, sets the shared
    cancellation signal and exits the process with code 0, in this order and
    without a condition: it does not wait for the two units, whose threads
    are where they were (daemon threads, they end with the process), and it
    prints no final count.  Whatever the threads do in between, the only way
    to [Stopped] is the handler's exit from [StopRequested], and the signal
    is set by then. *)
Theorem stop_sets_the_signal_and_exits (s : state) :
  main_thread s = MainLoop ->
  (exists s',
      steps shutdown s = Some s' /\
      phase_of s' = Stopped /\ main_thread s' = Exited 0 /\
      stop_event s' = true /\
      capture_thread s' = capture_thread s /\
      analysis_thread s' = analysis_thread s /\
      screenshot_taker s' = screenshot_taker s /\
      console s' = (console s ++ [stop_message])%list) /\
  (forall evs s' code,
      steps evs s = Some s' ->
      main_thread s' = Exited code ->
      code = 0%Z /\ stop_event s' = true) /\
  (forall ev s1 s2,
      step ev s1 = Some s2 ->
      phase_of s2 = Stopped ->
      phase_of s1 = StopRequested /\ ev = HandlerStep /\
      capture_thread s2 = capture_thread s1 /\
      analysis_thread s2 = analysis_thread s1 /\
      console s2 = console s1).
Proof.
  intros Hmain. split; [| split].
  - unfold shutdown. cbn [steps]. unfold step at 1. rewrite Hmain.
    eexists. split; [reflexivity |]. cbn.
    repeat split. now rewrite !app_nil_r.
  - intros evs s' code Hrun Hexit. split.
    + assert (Hgen : forall evs s0 s1 c,
                 steps evs s0 = Some s1 -> main_thread s1 = Exited c ->
                 main_thread s0 = Exited c \/ c = 0%Z).
      { clear. induction evs as [| ev evs IH]; intros s0 s1 c; cbn [steps].
        - intros [= <-]. now left.
        - destruct (step ev s0) as [s2 |] eqn:H2; [| discriminate].
          intros Hrest Hexit. destruct (IH s2 s1 c Hrest Hexit) as [H | H];
            [| now right].
          right. now destruct (step_to_exit ev s0 s2 c H2 H) as (_ & _ & ? & _). }
      destruct (Hgen evs s s' code Hrun Hexit) as [H | H]; [congruence | exact H].
    + assert (Hinv : stop_is_set s) by (unfold stop_is_set; now rewrite Hmain).
      pose proof (steps_stop_is_set evs s s' Hrun Hinv) as Hs.
      unfold stop_is_set in Hs. now rewrite Hexit in Hs.
  - intros ev s1 s2 Hstep Hphase.
    unfold phase_of in Hphase.
    destruct (main_thread s2) as [| | | code] eqn:Hm2; try discriminate.
    destruct (step_to_exit ev s1 s2 code Hstep Hm2) as (-> & Hm1 & _ & ->).
    unfold phase_of. rewrite Hm1. cbn. repeat split. apply app_nil_r.
Qed.

Lemma stop_sets_the_signal_and_exits_witness :
  exists s',
    steps shutdown (start "screenshots" 10 60) = Some s' /\
    phase_of s' = Stopped /\ main_thread s' = Exited 0 /\
    stop_event s' = true /\
    capture_thread s' = capture_thread (start "screenshots" 10 60) /\
    analysis_thread s' = analysis_thread (start "screenshots" 10 60) /\
    screenshot_taker s' = screenshot_taker (start "screenshots" 10 60) /\
    console s' = (console (start "screenshots" 10 60) ++ [stop_message])%list.
Proof.
  exact (proj1 (stop_sets_the_signal_and_exits (start "screenshots" 10 60)
                  eq_refl)).
Defined.

(** C6, at the failing input.  [ScreenshotTaker.take_screenshot] has no
    handler: with a capture that fails at the second of three ticks, [run]
    ends by that exception after one screenshot, and the third tick never
    happens; in the coordinator the capture thread is dead while the
    coordinator is still running, and nothing makes it run again.  The counter
    is not advanced by the failure.  [AdvancedScreenshotTaker.run], on the same
    ticks, logs the failure, goes on, and numbers its two screenshots 0 and
    1. *)
Theorem capture_failure_ends_the_basic_scheduler :
  let ticks := [good_tick 0; failing_tick; good_tick 20] in
  outcome (run CaptureFacts.basic_taker ticks)
  = inl (ExternalError "screen grab failed") /\
  saved_paths (output (run CaptureFacts.basic_taker ticks))
  = ["screenshots/screenshot_20250307_090500_0.png"] /\
  (exists s,
      steps [CaptureStep (CaptureFacts.march_7 0) ShotSaved; CaptureWake;
             CaptureStep (CaptureFacts.march_7 10)
               (ShotRaises (ExternalError "screen grab failed"))]
        (start "screenshots" 10 60) = Some s /\
      capture_thread s = CapDied (ExternalError "screen grab failed") /\
      phase_of s = Running /\
      counter (screenshot_taker s) = 1%nat /\
      step CaptureWake s = None /\
      forall now sh, step (CaptureStep now sh) s = None) /\
  (exists self',
      outcome (a_run CaptureFacts.advanced_taker 0 ticks) = inr self' /\
      a_counter self' = 2%nat) /\
  saved_paths (output (a_run CaptureFacts.advanced_taker 0 ticks))
  = ["screenshots/screenshot_20250307_090500_0.png";
     "screenshots/screenshot_20250307_090520_1.png"] /\
  error_logs (output (a_run CaptureFacts.advanced_taker 0 ticks))
  = [ExternalError "screen grab failed"].
Proof.
  cbv zeta. repeat split.
  - eexists. repeat split.
  - eexists. split; reflexivity.
Qed.

(** C7, at the failing input.  A batch of three images: the service fails
    for the first, answers for the second with a payload whose item has no
    calories, and would answer for the third.  The first failure is isolated
    (an error result, the loop goes on); the second image gets a success
    result, and then the item breakdown that [analyze_all_screenshots] prints
    outside any [try] raises [KeyError]: the batch is aborted, the third image
    is never analysed, and in the coordinator the analysis thread is dead.
    [CalorieMonitor.analyze_screenshot] prints the same breakdown inside its
    [try] and returns an error result for that reply. *)
Theorem malformed_item_aborts_the_batch :
  let listing := ["a.png"; "b.png"; "c.png"] in
  analyze_all_screenshots "screenshots" listing service_of_the_example =
  ([Print "Analyzing {} screenshots using Gemini 2.0 Flash..." [Val (PInt 3)];
    Print "Analyzing {}..." [Val (PStr "a.png")];
    Print "Error processing {}: {}"
      [Val (PStr "screenshots/a.png"); Exc (ExternalError "quota exceeded")];
    Print "✓ {}: No food detected (0 calories)" [Val (PStr "a.png")];
    Sleep 1;
    Print "Analyzing {}..." [Val (PStr "b.png")];
    Print "✓ {}: {} calories" [Val (PStr "b.png"); Val (PInt 120)];
    Print "  Detected items: {}" [Val (PStr "soup")]],
   inl (KeyError "calories")) /\
  (exists res,
      outcome (analyze_screenshot "screenshots/b.png"
                 (service_of_the_example "screenshots/b.png")) = inr res /\
      status res = StSuccess) /\
  (exists s,
      steps [AnalysisWake; AnalysisStep listing service_of_the_example]
        (start "screenshots" 10 60) = Some s /\
      analysis_thread s = AnDied (KeyError "calories") /\
      phase_of s = Running /\
      step AnalysisWake s = None /\
      forall l sv, step (AnalysisStep l sv) s = None) /\
  (forall notifications,
      outcome (monitor_analyze_screenshot notifications "screenshots/b.png"
                 (service_of_the_example "screenshots/b.png"))
      = inr (error_result "screenshots/b.png" (KeyError "calories"))).
Proof.
  cbv zeta. repeat split.
  - eexists. split; reflexivity.
  - eexists. repeat split.
  - intros [|]; reflexivity.
Qed.

(** The analysis thread leaves its first wait only when that wait
    returns. *)
Lemma step_keeps_first_wait (ev : event) (s s' : state) :
  step ev s = Some s' ->
  analysis_thread s = AnFirstWait ->
  ev = AnalysisWake \/ analysis_thread s' = AnFirstWait.
Proof.
  intros Hstep Hpc. destruct ev; [right | right | right | right | | now left];
    revert Hstep; unfold step; rewrite ?Hpc.
  - destruct (main_thread s); try discriminate; intros [= <-]; exact Hpc.
  - destruct (main_thread s); try discriminate; intros [= <-]; exact Hpc.
  - destruct (main_thread s); try discriminate;
      (destruct (capture_thread s); try discriminate;
       destruct (stop_event s); [intros [= <-]; exact Hpc |];
       destruct (take_screenshot (screenshot_taker s) now s0)
         as [o [e | [t p]]]; intros [= <-]; exact Hpc).
  - destruct (main_thread s); try discriminate;
      (destruct (capture_thread s); try discriminate;
       intros [= <-]; exact Hpc).
  - destruct (main_thread s); discriminate.
Qed.

Lemma steps_app (evs evs' : list event) (s : state) :
  steps (evs ++ evs') s =
  match steps evs s with
  | Some s' => steps evs' s'
  | None => None
  end.
Proof.
  revert s. induction evs as [| ev evs IH]; intros s; [reflexivity |].
  cbn [steps app]. destruct (step ev s); [apply IH | reflexivity].
Qed.

Lemma analysis_needs_the_first_wake (evs : list event) :
  forall (s s' : state) (listing : list string) (service : string -> reply)
         (rest : list event),
    analysis_thread s = AnFirstWait ->
    steps (evs ++ AnalysisStep listing service :: rest) s = Some s' ->
    In AnalysisWake evs.
Proof.
  induction evs as [| ev evs IH]; intros s s' listing service rest Hpc Hrun.
  - exfalso. revert Hrun. cbn [app steps]. unfold step. rewrite Hpc.
    destruct (main_thread s); discriminate.
  - revert Hrun. cbn [app steps].
    destruct (step ev s) as [s1 |] eqn:Hstep; [| discriminate].
    intros Hrun.
    destruct (step_keeps_first_wait _ _ _ Hstep Hpc) as [-> | Hpc1].
    + now left.
    + right. exact (IH _ _ _ _ _ Hpc1 Hrun).
Qed.

(** X5.  First-tick delay.  In every run of the coordinator an analysis pass
    comes after the return of the analysis thread's first wait: nothing is
    analysed before the first analysis interval has gone by. *)
Lemma first_analysis_waits_one_interval
  (output_dir : string) (interval analysis_interval : Q)
  (before after : list event) (listing : list string)
  (service : string -> reply) (s : state) :
  steps (before ++ AnalysisStep listing service :: after)
    (start output_dir interval analysis_interval) = Some s ->
  In AnalysisWake before.
Proof.
  apply analysis_needs_the_first_wake. reflexivity.
Qed.

Lemma first_analysis_waits_one_interval_witness :
  In AnalysisWake [CaptureStep (CaptureFacts.march_7 0) ShotSaved; AnalysisWake].
Proof.
  eapply (first_analysis_waits_one_interval "screenshots" 10%Q 60%Q
            [CaptureStep (CaptureFacts.march_7 0) ShotSaved; AnalysisWake] []
            [] service_of_the_example).
  reflexivity.
Defined.

End CoordinatorFacts.

(** ** Properties of the simulated analysis *)
Module SimulatedFacts.
Import Py Simulated.

Local Open Scope string_scope.

(** The line printed for a failure. *)
Definition error_line (image_path : string) (e : exn) : out :=
  Print "Error processing {}: {}" [Val (PStr image_path); Exc e].

(** [_analyze_for_food], case by case. *)
Lemma analyze_for_food_eq (image_path : string) (img : image) (d : draws) :
  _analyze_for_food image_path img d =
  match img with
  | ImageRaises e => ([error_line image_path e], inr (0%Z, []))
  | ImageRead =>
      if SFltb (random d) seventy_percent then
        match sample d possible_foods (randint d 0 1 3) with
        | inl e => ([error_line image_path e], inr (0%Z, []))
        | inr foods =>
            match mapM (lookup (draw_calories d 1 calorie_ranges)) foods with
            | inl e => ([error_line image_path e], inr (0%Z, []))
            | inr zs => ([], inr (sum_ints zs, foods))
            end
        end
      else ([], inr (0%Z, []))
  end.
Proof.
  unfold _analyze_for_food. destruct img as [| e]; [| reflexivity].
  cbn [lift io_bind try_except ret app].
  destruct (SFltb (random d) seventy_percent); [| reflexivity].
  destruct (sample d possible_foods (randint d 0 1 3)) as [e | foods];
    [reflexivity |].
  cbn [lift io_bind try_except ret app].
  destruct (mapM (lookup (draw_calories d 1 calorie_ranges)) foods)
    as [e | zs]; reflexivity.
Qed.


(** *** The draws *)

(** The [n]-th call [random.randint(a, b)] gave an integer between [a] and
    [b]. *)
Definition in_range (d : draws) (n : nat) (a b : Z) : Prop :=
  (a <= randint d n a b <= b)%Z.

Fixpoint ranges_respected (d : draws) (n : nat)
  (ranges : list (string * (Z * Z))) : Prop :=
  match ranges with
  | [] => True
  | (_, (lo, hi)) :: rest => in_range d n lo hi /\ ranges_respected d (S n) rest
  end.

(** The calls of [random] made by [_analyze_for_food] gave what the
    documentation of the module says: integers within their bounds, and a
    sample of [num_foods] different elements of [possible_foods]. *)
Definition fair (d : draws) : Prop :=
  in_range d 0 1 3 /\
  ranges_respected d 1 calorie_ranges /\
  exists foods,
    sample d possible_foods (randint d 0 1 3) = inr foods /\
    Z.of_nat (List.length foods) = randint d 0 1 3 /\
    NoDup foods /\ incl foods possible_foods.

(** The bounds of a food in [food_calories]. *)
Fixpoint range_of (ranges : list (string * (Z * Z))) (food : string) : Z * Z :=
  match ranges with
  | [] => (0%Z, 0%Z)
  | (name, r) :: rest => if String.eqb name food then r else range_of rest food
  end.

Definition lo_of (food : string) : Z := fst (range_of calorie_ranges food).
Definition hi_of (food : string) : Z := snd (range_of calorie_ranges food).

Lemma sum_ints_from (zs : list Z) (a : Z) :
  fold_left Z.add zs a = (a + sum_ints zs)%Z.
Proof.
  unfold sum_ints. revert a. induction zs as [| z zs IH]; intros a; cbn.
  - lia.
  - rewrite (IH (a + z)%Z), (IH z). lia.
Qed.

Lemma sum_ints_cons (z : Z) (zs : list Z) :
  sum_ints (z :: zs) = (z + sum_ints zs)%Z.
Proof. unfold sum_ints at 1. cbn. apply sum_ints_from. Qed.

Lemma lookup_in_range (d : draws) (food : string) :
  ranges_respected d 1 calorie_ranges -> In food possible_foods ->
  exists z, lookup (draw_calories d 1 calorie_ranges) food = inr z /\
            (lo_of food <= z <= hi_of food)%Z.
Proof.
  intros Hr Hin. cbn in Hr. unfold in_range in Hr.
  cbn in Hin.
  repeat (destruct Hin as [<- | Hin];
          [eexists; split; [reflexivity | cbn; tauto] |]).
  contradiction.
Qed.

Lemma lookups_in_range (d : draws) (foods : list string) :
  ranges_respected d 1 calorie_ranges -> incl foods possible_foods ->
  exists zs,
    mapM (lookup (draw_calories d 1 calorie_ranges)) foods = inr zs /\
    (sum_ints (map lo_of foods) <= sum_ints zs <= sum_ints (map hi_of foods))%Z.
Proof.
  intros Hr. induction foods as [| f foods IH]; intros Hin.
  - exists []. split; [reflexivity | cbn; lia].
  - destruct (lookup_in_range d f Hr (Hin f (or_introl eq_refl)))
      as (z & Hz & Hb).
    destruct IH as (zs & Hzs & Hbs).
    { intros x Hx. apply Hin. now right. }
    exists (z :: zs). cbn [mapM map]. rewrite Hz. cbn [bind]. rewrite Hzs.
    split; [reflexivity |]. rewrite !sum_ints_cons. lia.
Qed.

(** No three different foods have more than 2100 calories together, and no
    food has fewer than 5 or more than 800. *)
Lemma three_foods (a b c : string) :
  In a possible_foods -> In b possible_foods -> In c possible_foods ->
  a <> b -> a <> c -> b <> c ->
  (hi_of a + hi_of b + hi_of c <= 2100)%Z.
Proof.
  intros Ha Hb Hc Hab Hac Hbc.
  assert (Hall :
    forallb (fun a =>
      forallb (fun b =>
        forallb (fun c =>
          String.eqb a b || String.eqb a c || String.eqb b c ||
          (hi_of a + hi_of b + hi_of c <=? 2100)%Z)
          possible_foods) possible_foods) possible_foods = true)
    by (vm_compute; reflexivity).
  rewrite forallb_forall in Hall. specialize (Hall a Ha).
  rewrite forallb_forall in Hall. specialize (Hall b Hb).
  rewrite forallb_forall in Hall. specialize (Hall c Hc).
  destruct (String.eqb_spec a b); [contradiction |].
  destruct (String.eqb_spec a c); [contradiction |].
  destruct (String.eqb_spec b c); [contradiction |].
  cbn [orb] in Hall. now apply Z.leb_le.
Qed.

Lemma one_food (a : string) :
  In a possible_foods -> (5 <= lo_of a /\ 0 <= hi_of a <= 800)%Z.
Proof.
  intros Ha.
  assert (Hall :
    forallb (fun a => (5 <=? lo_of a)%Z && (0 <=? hi_of a)%Z &&
                      (hi_of a <=? 800)%Z) possible_foods = true)
    by (vm_compute; reflexivity).
  rewrite forallb_forall in Hall. specialize (Hall a Ha).
  apply andb_prop in Hall. destruct Hall as [Hall H3].
  apply andb_prop in Hall. destruct Hall as [H1 H2].
  apply Z.leb_le in H1, H2, H3. lia.
Qed.

(** X11.  When the image is read and the draws are fair, the simulated
    analysis prints nothing and returns a success.  With [random.random()]
    below 0.7 the items are the sample: one to three different names of
    [possible_foods], and the calories are between 5 and 2100, hence
    positive.  Otherwise there is no item and the calories are 0. *)
Lemma simulated_detection_bounds (screenshot_path : string) (d : draws) :
  fair d ->
  exists res,
    analyze_screenshot screenshot_path ImageRead d = ([], inr res) /\
    status res = Analyzer.StSuccess /\
    if SFltb (random d) seventy_percent then
      sample d possible_foods (randint d 0 1 3) = inr (food_items res) /\
      (1 <= List.length (food_items res) <= 3)%nat /\
      NoDup (food_items res) /\ incl (food_items res) possible_foods /\
      (5 <= calories res <= 2100)%Z
    else calories res = 0%Z /\ food_items res = [].
Proof.
  intros (Hn & Hr & foods & Hs & Hlen & Hnd & Hin).
  unfold analyze_screenshot. rewrite analyze_for_food_eq.
  destruct (SFltb (random d) seventy_percent).
  2:{ eexists. split; [reflexivity |]. repeat split. }
  rewrite Hs.
  destruct (lookups_in_range d foods Hr Hin) as (zs & Hzs & Hlo & Hhi).
  rewrite Hzs. eexists. split; [reflexivity |]. cbn [status food_items calories].
  unfold in_range in Hn. split; [reflexivity |].
  split; [reflexivity |]. split; [lia |]. split; [exact Hnd |].
  split; [exact Hin |].
  destruct foods as [| a [| b [| c [| x foods]]]]; cbn [List.length] in Hlen;
    try lia.
  - pose proof (one_food a (Hin a (or_introl eq_refl))) as Ha.
    cbn [map] in Hlo, Hhi. rewrite !sum_ints_cons in Hlo, Hhi.
    change (sum_ints []) with 0%Z in Hlo, Hhi. lia.
  - pose proof (one_food a (Hin a (or_introl eq_refl))) as Ha.
    pose proof (one_food b (Hin b (or_intror (or_introl eq_refl)))) as Hb.
    cbn [map] in Hlo, Hhi. rewrite !sum_ints_cons in Hlo, Hhi.
    change (sum_ints []) with 0%Z in Hlo, Hhi. lia.
  - pose proof (one_food a (Hin a (or_introl eq_refl))) as Ha.
    pose proof (one_food b (Hin b (or_intror (or_introl eq_refl)))) as Hb.
    pose proof (one_food c
                  (Hin c (or_intror (or_intror (or_introl eq_refl))))) as Hc.
    assert (H3 : (hi_of a + hi_of b + hi_of c <= 2100)%Z).
    { inversion Hnd as [| ? ? Ha' Hnd']; subst.
      inversion Hnd' as [| ? ? Hb' _]; subst.
      apply three_foods; try (apply Hin; cbn; tauto).
      - intros ->. apply Ha'. now left.
      - intros ->. apply Ha'. right. now left.
      - intros ->. apply Hb'. now left. }
    cbn [map] in Hlo, Hhi. rewrite !sum_ints_cons in Hlo, Hhi.
    change (sum_ints []) with 0%Z in Hlo, Hhi. lia.
Qed.

(** Draws that take the least of every range and the first names. *)
Definition least_draws (r : pyfloat) : draws :=
  {| random := r;
     randint := fun _ a _ => a;
     sample := fun population k => inr (firstn (Z.to_nat k) population) |}.

Lemma simulated_detection_bounds_witness :
  exists res,
    analyze_screenshot "shots/a.png" ImageRead (least_draws (S754_zero false))
    = ([], inr res) /\
    status res = Analyzer.StSuccess /\
    sample (least_draws (S754_zero false)) possible_foods 1 =
    inr (food_items res) /\
    (1 <= List.length (food_items res) <= 3)%nat /\
    NoDup (food_items res) /\ incl (food_items res) possible_foods /\
    (5 <= calories res <= 2100)%Z.
Proof.
  apply (simulated_detection_bounds "shots/a.png"
           (least_draws (S754_zero false))).
  split; [| split].
  - unfold in_range. cbn. lia.
  - cbn. unfold in_range. cbn. lia.
  - exists ["sandwich"]. split; [reflexivity |]. split; [reflexivity |].
    split.
    + repeat constructor. intros [].
    + intros x [<- | []]. now left.
Defined.

(** *** The batch and the analysis thread *)





(** *** The report *)

(** The results that have calories. *)
Definition with_food (results : list result) : list result :=
  filter (fun r => (0 <? calories r)%Z) results.

Definition breakdown_lines (r : result) : list out :=
  [Print "- {}: {} calories"
     [Val (PStr (filename r)); Val (PInt (calories r))];
   Print "  Detected items: {}"
     [Val (PStr (String.concat ", " (food_items r)))]].

Lemma count_food_length (results : list result) :
  count_food results = Z.of_nat (List.length (with_food results)).
Proof.
  unfold count_food, with_food.
  induction results as [| r results IH]; [reflexivity |].
  cbn [map filter]. rewrite sum_ints_cons, IH.
  destruct (0 <? calories r)%Z; cbn [List.length]; lia.
Qed.

Lemma print_breakdowns_eq (results : list result) :
  io_for results print_breakdown =
  (flat_map breakdown_lines (with_food results), inr tt).
Proof.
  unfold with_food. induction results as [| r results IH]; [reflexivity |].
  cbn [io_for filter]. unfold print_breakdown at 1.
  destruct (0 <? calories r)%Z; cbn [io_bind emit io_ret app]; rewrite IH;
    reflexivity.
Qed.

(** X13.  The report of [calorie_analyzer.py] for a batch that is not empty:
    the number of results, the number of those with calories, the sum of
    the calories; then, when some result has calories, the breakdown, which
    shows the results with calories and only them, in order, and the closing
    note; and nothing after the rule otherwise. *)
Lemma simulated_report (results : list result) :
  results <> [] ->
  print_calorie_report results =
  ([Print "\n===== CALORIE ANALYSIS REPORT =====" [];
    Print "Total screenshots analyzed: {}"
      [Val (PInt (Z.of_nat (List.length results)))];
    Print "Screenshots containing food: {}"
      [Val (PInt (Z.of_nat (List.length (with_food results))))];
    Print "Estimated total calories: {}"
      [Val (PInt (fold_right Z.add 0%Z (map calories results)))];
    Print "==================================" []] ++
   match with_food results with
   | [] => []
   | _ =>
       Print "\nDetailed breakdown:" [] ::
       flat_map breakdown_lines (with_food results) ++
       [Print "\nNOTE: This analysis is simulated for demonstration purposes." [];
        Print "A real implementation would use actual AI models trained on food recognition." []]
   end, inr tt)%list.
Proof.
  intros Hne. unfold print_calorie_report.
  destruct results as [| r results]; [contradiction |].
  set (rs := r :: results).
  assert (Hsum : sum_ints (map calories rs) =
                 fold_right Z.add 0%Z (map calories rs)).
  { generalize (map calories rs). intros zs.
    induction zs as [| z zs IH]; [reflexivity |].
    rewrite sum_ints_cons, IH. reflexivity. }
  rewrite Hsum, count_food_length, print_breakdowns_eq.
  destruct (with_food rs) as [| r1 rest] eqn:Hw.
  - reflexivity.
  - change (0 <? Z.of_nat (List.length (r1 :: rest)))%Z with true.
    cbn [io_bind emit io_ret app]. reflexivity.
Qed.

Lemma simulated_report_witness :
  print_calorie_report
    [{| filename := "a.png"; calories := 0; food_items := [];
        status := Analyzer.StSuccess; error := None |};
     {| filename := "b.png"; calories := 650;
        food_items := ["pizza"; "salad"];
        status := Analyzer.StSuccess; error := None |}] =
  ([Print "\n===== CALORIE ANALYSIS REPORT =====" [];
    Print "Total screenshots analyzed: {}" [Val (PInt 2)];
    Print "Screenshots containing food: {}" [Val (PInt 1)];
    Print "Estimated total calories: {}" [Val (PInt 650)];
    Print "==================================" [];
    Print "\nDetailed breakdown:" [];
    Print "- {}: {} calories" [Val (PStr "b.png"); Val (PInt 650)];
    Print "  Detected items: {}" [Val (PStr "pizza, salad")];
    Print "\nNOTE: This analysis is simulated for demonstration purposes." [];
    Print "A real implementation would use actual AI models trained on food recognition." []],
   inr tt).
Proof.
  apply (simulated_report
           [{| filename := "a.png"; calories := 0; food_items := [];
               status := Analyzer.StSuccess; error := None |};
            {| filename := "b.png"; calories := 650;
               food_items := ["pizza"; "salad"];
               status := Analyzer.StSuccess; error := None |}]).
  discriminate.
Defined.

End SimulatedFacts.

(** ** Properties of the command line *)
Module AdvancedMainFacts.
Import Py AdvancedMain.

Local Open Scope string_scope.

(** The number of commas of a text. *)
Fixpoint commas (s : string) : nat :=
  match s with
  | EmptyString => 0
  | String c r => if (c =? ",")%char then S (commas r) else commas r
  end.

Lemma split_length (s : string) :
  List.length (split "," s) = S (commas s).
Proof.
  induction s as [| c r IH]; [reflexivity |].
  cbn [split commas]. destruct (c =? ",")%char; cbn [List.length].
  - now rewrite IH.
  - destruct (split "," r); cbn [List.length] in *; [discriminate | exact IH].
Qed.

Lemma mapM_length_eq (A B : Type) (f : A -> M B) (l : list A) (l' : list B) :
  mapM f l = inr l' -> List.length l' = List.length l.
Proof.
  revert l'. induction l as [| a l IH]; intros l'; cbn [mapM].
  - now intros [= <-].
  - destruct (f a) as [e | b]; cbn [bind]; [discriminate |].
    destruct (mapM f l) as [e | bs]; cbn [bind ret]; [discriminate |].
    intros [= <-]. cbn [List.length]. now rewrite (IH bs eq_refl).
Qed.

(** The two lines printed when the option is not accepted. *)
Definition not_accepted (reason : hole) : list out :=
  [Print "Error parsing region: {}" [reason];
   Print "Using full screen instead." []].

(** X14.  The region option of [advanced_screenshot.py].  The block never
    raises.  Without the option, or with an empty one, nothing is printed
    and there is no region.  When [int] refuses a field, the two lines are
    printed and there is no region.  When [int] accepts every field: with
    exactly three commas in the option nothing is printed and the region is
    the four integers; with another number of commas the same two lines are
    printed, announcing the full screen, but the region is the tuple of the
    integers all the same, of a length other than 4. *)
Lemma region_option (int : string -> M Z) (text : string) :
  parse_region int None = ([], inr None) /\
  parse_region int (Some "") = ([], inr None) /\
  (text <> "" ->
   (forall e,
       mapM int (split "," text) = inl e ->
       parse_region int (Some text) = (not_accepted (Exc e), inr None)) /\
   (forall region,
       mapM int (split "," text) = inr region ->
       List.length region = S (commas text) /\
       (commas text = 3%nat ->
        parse_region int (Some text) = ([], inr (Some region))) /\
       (commas text <> 3%nat ->
        parse_region int (Some text) =
        (not_accepted
           (Val (PStr "Region must have 4 values: left,top,width,height")),
         inr (Some region))))).
Proof.
  split; [reflexivity |]. split; [reflexivity |].
  intros Hne. unfold parse_region.
  destruct (String.eqb_spec text "") as [-> | _]; [contradiction |].
  split.
  - intros e ->. reflexivity.
  - intros region Hr. rewrite Hr.
    assert (Hlen : List.length region = S (commas text)).
    { rewrite (mapM_length_eq _ _ _ _ _ Hr). apply split_length. }
    split; [exact Hlen |]. rewrite Hlen. split.
    + intros ->. reflexivity.
    + intros Hc. destruct (Nat.eqb_spec (S (commas text)) 4) as [E | _].
      * lia.
      * reflexivity.
Qed.

(** An [int] for the examples: the decimal digits of a non-empty field. *)
Definition digits_int (field : string) : M Z :=
  match Json.span_digits field with
  | (String c r, EmptyString) => ret (Json.digits_to_Z 0 (String c r))
  | _ => raise (ExternalError "invalid literal for int()")
  end.

Lemma region_option_witness :
  parse_region digits_int (Some "0,0,800") =
  (not_accepted
     (Val (PStr "Region must have 4 values: left,top,width,height")),
   inr (Some [0; 0; 800]%Z)).
Proof.
  apply (proj2 (proj2 (proj2 (region_option digits_int "0,0,800"))
                 ltac:(discriminate)) [0; 0; 800]%Z eq_refl).
  cbn. lia.
Defined.

End AdvancedMainFacts.

(** ** Properties of the monitor *)
Module MonitorFacts.
Import Py Monitor.

Local Open Scope string_scope.

(** *** The half of the screen *)

(** X15.  The region [CalorieMonitor.take_screenshot] captures.  After
    [__init__] the half is 'left' or 'right', whatever was asked for.  On a
    screen of a width that is not negative, the left half starts at 0 and the
    right half where the left one ends; both have the height of the screen
    and the same width, half the width of the screen rounded down; and both
    lie within the screen, the last column of a screen of odd width being in
    neither. *)
Lemma monitor_captures_a_half (screen_half lowered : string)
  (screen_width screen_height : Z) :
  (0 <= screen_width)%Z ->
  exists o half,
    init_screen_half screen_half lowered = (o, inr half) /\
    (half = "left" \/ half = "right") /\
    (lowered = "left" \/ lowered = "right" -> half = lowered /\ o = []) /\
    exists left width,
      half_region half (screen_width, screen_height) =
      (left, 0%Z, width, screen_height) /\
      width = (screen_width / 2)%Z /\
      (half = "left" -> left = 0%Z) /\
      (half = "right" -> left = width) /\
      (0 <= left)%Z /\ (left + width <= screen_width)%Z /\
      (screen_width - 1 <= 2 * width)%Z.
Proof.
  intros Hw.
  assert (Hdiv : (0 <= screen_width / 2 /\ 2 * (screen_width / 2) <= screen_width
                  /\ screen_width - 1 <= 2 * (screen_width / 2))%Z).
  { pose proof (Z.div_mod screen_width 2 ltac:(lia)).
    pose proof (Z.mod_pos_bound screen_width 2 ltac:(lia)).
    pose proof (Z.div_pos screen_width 2 Hw ltac:(lia)). lia. }
  unfold init_screen_half. cbn [existsb].
  destruct (String.eqb_spec lowered "left") as [-> | Hl].
  - exists [], "left". split; [reflexivity |]. split; [now left |].
    split; [intros _; now split |].
    exists 0%Z, (screen_width / 2)%Z. split; [reflexivity |].
    repeat split; try discriminate; try congruence; lia.
  - destruct (String.eqb_spec lowered "right") as [-> | Hr].
    + exists [], "right". split; [reflexivity |]. split; [now right |].
      split; [intros _; now split |].
      exists (screen_width / 2)%Z, (screen_width / 2)%Z. split; [reflexivity |].
      repeat split; try discriminate; try congruence; lia.
    + eexists _, "left". split; [reflexivity |]. split; [now left |].
      split; [intros [? | ?]; contradiction |].
      exists 0%Z, (screen_width / 2)%Z. split; [reflexivity |].
      repeat split; try discriminate; try congruence; lia.
Qed.

Lemma monitor_captures_a_half_witness :
  exists o half,
    init_screen_half "Top" "top" = (o, inr half) /\
    (half = "left" \/ half = "right") /\
    ("top" = "left" \/ "top" = "right" -> half = "top" /\ o = []) /\
    exists left width,
      half_region half (1441, 900)%Z = (left, 0%Z, width, 900%Z) /\
      width = (1441 / 2)%Z /\
      (half = "left" -> left = 0%Z) /\
      (half = "right" -> left = width) /\
      (0 <= left)%Z /\ (left + width <= 1441)%Z /\
      (1441 - 1 <= 2 * width)%Z.
Proof.
  apply (monitor_captures_a_half "Top" "top" 1441 900). lia.
Defined.

(** *** The loop *)
















(** The exception that ends the capture of an iteration, if any. *)
Definition capture_error (t : tick) : option exn :=
  match tick_size t with
  | inl e => Some e
  | inr _ =>
      match tick_shot t with
      | Capture.ShotSaved => None
      | Capture.ShotRaises e | Capture.SaveRaises e => Some e
      end
  end.

(** The iterations before the first one whose capture fails. *)
Fixpoint before_failure (ticks : list tick) : list tick :=
  match ticks with
  | [] => []
  | t :: rest =>
      match capture_error t with
      | None => t :: before_failure rest
      | Some _ => []
      end
  end.

Fixpoint first_failure (ticks : list tick) : option exn :=
  match ticks with
  | [] => None
  | t :: rest =>
      match capture_error t with
      | None => first_failure rest
      | Some e => Some e
      end
  end.

Definition path (self : monitor) (now : Capture.datetime) (n : nat) : string :=
  Analyzer.path_join (m_output_dir self)
    (Capture.file_name "screenshot" now n "png").





End MonitorFacts.
